(** * tulayngmamamo: a message bridge between two assistants

    A shallow embedding of the bridge's components, the theorems
    settling the claims its specification makes (C1 to C10), and further
    properties of the code (X1 to X26).

    Definitions:
    - [EventStore]: the per-session in-memory event log
      (mcp/eventStore.ts, [InMemoryEventStore]);
    - [JsString]: the string operations the code relies on;
    - [Agents]: persona selection (agents/registry.ts);
    - [Store]: the SQLite tables and row operations (db/schema.sql,
      db/clients.ts, db/conversations.ts, db/messages.ts,
      db/message_queue.ts);
    - [Registry]: the in-memory client registry (mcp/clientRegistry.ts);
    - [QueueProcessor]: the background queue processor
      (router/queueProcessor.ts);
    - [Dispatcher]: the message dispatcher (router/dispatcher.ts);
    - [Tools]: the [mark_message_read] tool handler (mcp/server.ts);
    - [CodexMcp]: response extraction of the persistent subprocess client
      (router/codexMcpClient.ts);
    - [Transport]: the session hooks of the HTTP transport (mcp/http.ts);
    - [Scenarios]: concrete runs built from these operations;
    - [EventStoreInv]: what an event log keeps true;
    - [StoreMore]: the listings and statistics of the tables;
    - [Http]: the table of sessions and the shutdown hook (mcp/http.ts);
    - [Security]: the request filter (security.ts);
    - [MoreScenarios]: further concrete runs.

    Properties follow, one module per component; [Runs] and [MoreRuns]
    apply the theorems to the concrete runs.

    Conventions.  Wall-clock readings ([Date.now()], SQLite's
    [strftime('now')]) are explicit arguments, in milliseconds, one per
    call; the fixed-width ISO text the tables store orders exactly as
    these numbers do.  Identifiers drawn from [randomUUID()] are explicit
    arguments as well.  A thrown exception (a violated SQLite constraint,
    a missing conversation) is [None] in the option monad.  Rows that an
    [ORDER BY] leaves tied come in rowid order.  Calls are taken one at
    a time: no other task touches the store or the log while one
    runs. *)

From Stdlib Require Import ZArith NArith String Ascii List Lia Bool.
From Stdlib Require Import Sorting.Permutation Sorting.Sorted.
From stdpp Require Import base option list sorting gmap strings pretty.

Local Open Scope string_scope.

Set Warnings "-register-all".

(** ** The event log *)

Module EventStore.

Section WithMessage.

(** The payload of an event ([JSONRPCMessage]) is opaque to the log. *)
Context {JSONRPCMessage : Type}.

Record EventRecord := mkEventRecord {
  id : string;
  ts : Z;
  message : JSONRPCMessage
}.

Record StreamState := mkStreamState {
  nextSeq : N;
  events : list EventRecord;
  indexById : gmap string nat
}.

Record InMemoryEventStore := mkStore {
  streams : gmap string StreamState;
  ttlMs : Z;
  maxEventsPerStream : nat
}.

(** [new InMemoryEventStore(opts)]: both options have defaults. *)
Definition newStore (ttl : option Z) (cap : option nat) : InMemoryEventStore :=
  {| streams := ∅;
     ttlMs := default (15 * 60 * 1000)%Z ttl;
     maxEventsPerStream := default 5000%nat cap |}.

Definition makeEventId (streamId : string) (seq : N) : string :=
  streamId +:+ ":" +:+ pretty seq.

Definition parseStreamId (eventId : string) : string :=
  match String.index 0 ":" eventId with
  | None => EmptyString
  | Some i => String.substring 0 i eventId
  end.

(** The first loop of [pruneStream]: while the head is older than the
    cutoff, shift it off and delete its id from the index. *)
Fixpoint dropExpired (cutoff : Z) (evs : list EventRecord)
    (idx : gmap string nat) : list EventRecord * gmap string nat :=
  match evs with
  | ev :: rest =>
      if (ts ev <? cutoff)%Z
      then dropExpired cutoff rest (delete (id ev) idx)
      else (evs, idx)
  | [] => ([], idx)
  end.

(** [s.events.forEach((ev, idx) => s.indexById.set(ev.id, idx))], from
    position [i] on. *)
Fixpoint setPositions (evs : list EventRecord) (i : nat)
    (idx : gmap string nat) : gmap string nat :=
  match evs with
  | [] => idx
  | ev :: rest => setPositions rest (S i) (<[id ev := i]> idx)
  end.

(** [s.indexById.clear()] followed by the [forEach] above. *)
Definition rebuildIndex (evs : list EventRecord) : gmap string nat :=
  setPositions evs 0 ∅.

(** The [for] loop of the overflow branch: [overflow] shifts, each with
    its index deletion.  The list is never empty there, since
    [overflow <= length]. *)
Fixpoint shiftOverflow (overflow : nat) (evs : list EventRecord)
    (idx : gmap string nat) : list EventRecord * gmap string nat :=
  match overflow, evs with
  | S k, ev :: rest => shiftOverflow k rest (delete (id ev) idx)
  | _, _ => (evs, idx)
  end.

(** [pruneStream] on the state of one stream, at clock reading [now]. *)
Definition pruneState (ttl : Z) (cap : nat) (now : Z) (s : StreamState)
    : StreamState :=
  let cutoff := (now - ttl)%Z in
  let '(evs1, idx1) := dropExpired cutoff (events s) (indexById s) in
  let idx2 :=
    if negb (size idx1 =? length evs1)%nat then rebuildIndex evs1 else idx1 in
  if (cap <? length evs1)%nat then
    let overflow := (length evs1 - cap)%nat in
    let '(evs3, _) := shiftOverflow overflow evs1 idx2 in
    {| nextSeq := nextSeq s; events := evs3; indexById := rebuildIndex evs3 |}
  else
    {| nextSeq := nextSeq s; events := evs1; indexById := idx2 |}.

Definition pruneStream (st : InMemoryEventStore) (streamId : string) (now : Z)
    : InMemoryEventStore :=
  match streams st !! streamId with
  | None => st
  | Some s =>
      {| streams := <[streamId := pruneState (ttlMs st) (maxEventsPerStream st) now s]>
                      (streams st);
         ttlMs := ttlMs st;
         maxEventsPerStream := maxEventsPerStream st |}
  end.

Definition emptyStream : StreamState :=
  {| nextSeq := 1%N; events := []; indexById := ∅ |}.

(** [storeEvent]: the new store and the id given to the event. *)
Definition storeEvent (st : InMemoryEventStore) (streamId : string)
    (msg : JSONRPCMessage) (now : Z) : InMemoryEventStore * string :=
  let s0 := default emptyStream (streams st !! streamId) in
  let s := pruneState (ttlMs st) (maxEventsPerStream st) now s0 in
  let eid := makeEventId streamId (nextSeq s) in
  let rec := {| id := eid; ts := now; message := msg |} in
  let s' := {| nextSeq := (nextSeq s + 1)%N;
               events := events s ++ [rec];
               indexById := <[eid := length (events s)]> (indexById s) |} in
  ({| streams := <[streamId := s']> (streams st);
      ttlMs := ttlMs st;
      maxEventsPerStream := maxEventsPerStream st |}, eid).

(** [replayEventsAfter]: the new store, the calls made to [send] in
    order, and the returned stream id. *)
Definition replayEventsAfter (st : InMemoryEventStore) (lastEventId : string)
    (now : Z) : InMemoryEventStore * list (string * JSONRPCMessage) * string :=
  if String.eqb lastEventId EmptyString then (st, [], EmptyString) else
  let streamId := parseStreamId lastEventId in
  if String.eqb streamId EmptyString then (st, [], EmptyString) else
  match streams st !! streamId with
  | None => (st, [], EmptyString)
  | Some s =>
      let s' := pruneState (ttlMs st) (maxEventsPerStream st) now s in
      let st' := {| streams := <[streamId := s']> (streams st);
                    ttlMs := ttlMs st;
                    maxEventsPerStream := maxEventsPerStream st |} in
      match indexById s' !! lastEventId with
      | None => (st', [], EmptyString)
      | Some startIdx =>
          (st', map (fun ev => (id ev, message ev)) (drop (S startIdx) (events s')),
           streamId)
      end
  end.

(** The position an event id has in the buffer, if it is there. *)
Fixpoint positionOf (eid : string) (evs : list EventRecord) : option nat :=
  match evs with
  | [] => None
  | ev :: rest =>
      if String.eqb (id ev) eid then Some 0%nat
      else S <$> positionOf eid rest
  end.

(** What the specification asks of a replay: the events after the
    anchor's current position. *)
Definition eventsAfter (eid : string) (evs : list EventRecord)
    : option (list (string * JSONRPCMessage)) :=
  p ← positionOf eid evs;
  Some (map (fun ev => (id ev, message ev)) (drop (S p) evs)).

(** The index knows the buffer, up to a shift of [off] positions: ids
    are distinct, the index has one entry per event, and each event's
    entry is its position plus [off]. *)
Definition indexed (off : nat) (evs : list EventRecord)
    (idx : gmap string nat) : Prop :=
  NoDup (id <$> evs)
  /\ size idx = length evs
  /\ forall i ev, evs !! i = Some ev -> idx !! id ev = Some (i + off)%nat.

End WithMessage.

Arguments EventRecord : clear implicits.
Arguments StreamState : clear implicits.
Arguments InMemoryEventStore : clear implicits.

(** Three events are stored on stream [s] at times 0, 900 and 950 with a
    one-second TTL; the client resumes from [s:2] at time 1500, when only
    [s:1] has expired. *)
Definition bug_store0 : InMemoryEventStore string := newStore (Some 1000%Z) None.
Definition bug_store1 := (storeEvent bug_store0 "s" "m1" 0).1.
Definition bug_store2 := (storeEvent bug_store1 "s" "m2" 900).1.
Definition bug_store3 := (storeEvent bug_store2 "s" "m3" 950).1.

End EventStore.

(** ** Strings as JavaScript uses them here *)

Module JsString.

(** [s.includes(t)]: [t] occurs in [s] as a contiguous run. *)
Fixpoint includes (s t : string) : bool :=
  String.prefix t s ||
  match s with
  | EmptyString => false
  | String _ s' => includes s' t
  end.

(** [toLowerCase] on the ASCII range; other bytes are left as they are. *)
Definition lowerAscii (c : ascii) : ascii :=
  let n := nat_of_ascii c in
  if ((65 <=? n) && (n <=? 90))%nat then ascii_of_nat (n + 32) else c.

Fixpoint asciiLowerCase (s : string) : string :=
  match s with
  | EmptyString => EmptyString
  | String c s' => String (lowerAscii c) (asciiLowerCase s')
  end.

(** A non-empty string is truthy. *)
Definition truthy (s : string) : bool := negb (String.eqb s EmptyString).

Definition isSubstring (t s : string) : Prop :=
  exists pre post, s = pre +:+ t +:+ post.

End JsString.

(** ** Agent personas *)

Module Agents.

Import JsString.

Inductive AgentName := architect | oracle.

Inductive AgentCategory := advisor | exploration | specialist.

(** The static prompt text [baseInstructions] of a persona is data that no
    decision of the bridge reads; it is not reproduced here. *)
Record AgentPersona := mkPersona {
  name : string;
  description : string;
  category : AgentCategory;
  triggers : list string;
  sandbox : option string
}.

Definition ARCHITECT : AgentPersona :=
  {| name := "architect";
     description := "Critical code reviewer and design advisor";
     category := advisor;
     triggers := ["architecture"; "design"; "review"; "should we"; "approach";
                  "refactor"];
     sandbox := None |}.

Definition ORACLE : AgentPersona :=
  {| name := "oracle";
     description := "Strategic reasoning for debugging and complex problems";
     category := advisor;
     triggers := ["why"; "debug"; "investigate"; "understand"; "root cause";
                  "explain"];
     sandbox := None |}.

Definition AGENT_PERSONAS (n : AgentName) : AgentPersona :=
  match n with
  | architect => ARCHITECT
  | oracle => ORACLE
  end.

Definition DEFAULT_AGENT : AgentName := architect.

(** [getAgent(name)]: both names of the [AgentName] type are keys of the
    registry, so a given name selects its persona. *)
Definition getAgent (n : option AgentName) : AgentPersona :=
  match n with
  | Some a => AGENT_PERSONAS a
  | None => AGENT_PERSONAS DEFAULT_AGENT
  end.

Definition oracleTriggers : list string :=
  ["why"; "debug"; "investigate"; "root cause"; "understand"; "explain";
   "failing"; "broken"; "not working"; "error"; "bug"].

(** Some oracle trigger occurs in the lowered content. *)
Definition triggered (lower : string) : Prop :=
  exists t, In t oracleTriggers /\ isSubstring t lower.

(** The [for ... of] loop of [selectAgent]: the first trigger found in
    the lowered content returns. *)
Fixpoint firstTrigger (lower : string) (ts : list string) : bool :=
  match ts with
  | [] => false
  | t :: rest => if includes lower t then true else firstTrigger lower rest
  end.

Section WithLowerCase.

(** [String.prototype.toLowerCase] of the platform; [asciiLowerCase] is
    its restriction to ASCII text. *)
Variable toLowerCase : string -> string.

Definition selectAgent (content : string) : AgentPersona :=
  let lower := toLowerCase content in
  if firstTrigger lower oracleTriggers then ORACLE else ARCHITECT.

(** The persona the dispatcher uses for an offline codex:
    [opts.agent ? getAgent(opts.agent) : selectAgent(opts.content)]. *)
Definition selectPersona (agent : option AgentName) (content : string)
    : AgentPersona :=
  match agent with
  | Some a => getAgent (Some a)
  | None => selectAgent content
  end.

End WithLowerCase.

End Agents.

(** ** The store: tables and row operations *)

Module Store.

Inductive ClientId := claude | codex.

Inductive ClientStatus := online | offline | busy.

Inductive ConversationStatus := active | conv_pending | completed | archived.

Inductive MessageType :=
  | message | research_request | research_response
  | review_request | review_response | context_share | system.

Inductive MessagePriority := normal | high | urgent.

Inductive MessageStatus := pending | delivered | read | responded.

#[export] Instance ClientId_eq_dec : EqDecision ClientId.
Proof. solve_decision. Defined.

#[export] Instance ClientStatus_eq_dec : EqDecision ClientStatus.
Proof. solve_decision. Defined.

#[export] Instance ConversationStatus_eq_dec : EqDecision ConversationStatus.
Proof. solve_decision. Defined.

#[export] Instance MessageStatus_eq_dec : EqDecision MessageStatus.
Proof. solve_decision. Defined.

#[export] Instance ClientId_countable : Countable ClientId.
Proof.
  refine (inj_countable' (fun c => match c with claude => false | codex => true end)
                         (fun b => if b then codex else claude) _).
  intros []; reflexivity.
Defined.

(** Rows of the four tables the dispatcher and the queue processor
    touch.  Columns keep their names, prefixed by the table's initial. *)
Record Client := mkClient {
  c_id : ClientId;
  c_display_name : string;
  c_last_seen_at : option Z;
  c_session_id : option string;
  c_status : ClientStatus;
  c_created_at : Z
}.

Record Conversation := mkConversation {
  cv_id : string;
  cv_title : option string;
  cv_project : option string;
  cv_status : ConversationStatus;
  cv_created_by : ClientId;
  cv_created_at : Z;
  cv_updated_at : Z;
  cv_closed_at : option Z;
  cv_summary : option string;
  cv_metadata : option string
}.

Record Message := mkMessage {
  m_id : string;
  m_conversation_id : string;
  m_sender : ClientId;
  m_target : ClientId;
  m_content : string;
  m_message_type : MessageType;
  m_priority : MessagePriority;
  m_status : MessageStatus;
  m_response_to_id : option string;
  m_created_at : Z;
  m_delivered_at : option Z;
  m_read_at : option Z;
  m_metadata : option string
}.

Record QueuedMessage := mkQueued {
  q_id : Z;
  q_message_id : string;
  q_target : ClientId;
  q_priority : Z;
  q_attempts : nat;
  q_max_attempts : Z;
  q_next_attempt : Z;
  q_created_at : Z
}.

(** The database: each table is the list of its rows in rowid order. *)
Record Db := mkDb {
  clients : list Client;
  conversations : list Conversation;
  messages : list Message;
  message_queue : list QueuedMessage
}.

(** schema.sql on an empty file: the tables, and the two seeded clients. *)
Definition migrate (now : Z) : Db :=
  {| clients :=
       [ mkClient claude "Claude Code CLI" None None offline now;
         mkClient codex "OpenAI Codex CLI" None None offline now ];
     conversations := [];
     messages := [];
     message_queue := [] |}.

(** *** clients *)

Definition getClient (db : Db) (cid : ClientId) : option Client :=
  find (fun c => bool_decide (c_id c = cid)) (clients db).

Definition updateClientStatus (db : Db) (cid : ClientId) (st : ClientStatus)
    (sessionId : option string) (now : Z) : Db :=
  {| clients :=
       map (fun c => if bool_decide (c_id c = cid)
                     then mkClient (c_id c) (c_display_name c) (Some now)
                                   sessionId st (c_created_at c)
                     else c) (clients db);
     conversations := conversations db;
     messages := messages db;
     message_queue := message_queue db |}.

Definition setClientOffline (db : Db) (cid : ClientId) : Db :=
  {| clients :=
       map (fun c => if bool_decide (c_id c = cid)
                     then mkClient (c_id c) (c_display_name c) (c_last_seen_at c)
                                   None offline (c_created_at c)
                     else c) (clients db);
     conversations := conversations db;
     messages := messages db;
     message_queue := message_queue db |}.

(** [client?.status === "online"] *)
Definition isClientOnline (db : Db) (cid : ClientId) : bool :=
  match getClient db cid with
  | Some c => bool_decide (c_status c = online)
  | None => false
  end.

(** Foreign keys are enforced ([foreign_keys = ON]). *)
Definition clientExists (db : Db) (cid : ClientId) : bool :=
  existsb (fun c => bool_decide (c_id c = cid)) (clients db).

(** *** conversations *)

Record CreateConversationInput := mkCreateConversationInput {
  cci_title : option string;
  cci_project : option string;
  cci_created_by : ClientId;
  cci_metadata : option string
}.

Definition getConversation (db : Db) (cid : string) : option Conversation :=
  find (fun c => String.eqb (cv_id c) cid) (conversations db).

(** [createConversation]: the insert takes the column defaults (status
    [active], both timestamps now); a duplicate primary key or an unknown
    creator makes the insert throw.  The row is read back. *)
Definition createConversation (db : Db) (input : CreateConversationInput)
    (newId : string) (now : Z) : option (Db * Conversation) :=
  if existsb (fun c => String.eqb (cv_id c) newId) (conversations db) then None
  else if negb (clientExists db (cci_created_by input)) then None
  else
    let row := {| cv_id := newId;
                  cv_title := cci_title input;
                  cv_project := cci_project input;
                  cv_status := active;
                  cv_created_by := cci_created_by input;
                  cv_created_at := now;
                  cv_updated_at := now;
                  cv_closed_at := None;
                  cv_summary := None;
                  cv_metadata := cci_metadata input |} in
    let db' := {| clients := clients db;
                  conversations := conversations db ++ [row];
                  messages := messages db;
                  message_queue := message_queue db |} in
    c ← getConversation db' newId;
    Some (db', c).

Record ConversationUpdates := mkConversationUpdates {
  cu_title : option string;
  cu_status : option ConversationStatus;
  cu_summary : option string
}.

Definition isClosing (st : ConversationStatus) : bool :=
  match st with completed | archived => true | _ => false end.

Definition updateConversation (db : Db) (cid : string)
    (updates : ConversationUpdates) (now : Z) : Db * option Conversation :=
  let upd (c : Conversation) :=
    if String.eqb (cv_id c) cid then
      {| cv_id := cv_id c;
         cv_title := match cu_title updates with
                     | Some t => Some t | None => cv_title c end;
         cv_project := cv_project c;
         cv_status := default (cv_status c) (cu_status updates);
         cv_created_by := cv_created_by c;
         cv_created_at := cv_created_at c;
         cv_updated_at := now;
         cv_closed_at := match cu_status updates with
                         | Some st => if isClosing st then Some now
                                      else cv_closed_at c
                         | None => cv_closed_at c
                         end;
         cv_summary := match cu_summary updates with
                       | Some s => Some s | None => cv_summary c end;
         cv_metadata := cv_metadata c |}
    else c in
  let db' := {| clients := clients db;
                conversations := map upd (conversations db);
                messages := messages db;
                message_queue := message_queue db |} in
  (db', getConversation db' cid).

Definition closeConversation (db : Db) (cid : string) (summary : option string)
    (now : Z) : Db * option Conversation :=
  updateConversation db cid
    {| cu_title := None; cu_status := Some completed; cu_summary := summary |} now.

(** *** messages *)

Record CreateMessageInput := mkCreateMessageInput {
  cmi_conversation_id : string;
  cmi_sender : ClientId;
  cmi_target : ClientId;
  cmi_content : string;
  cmi_message_type : option MessageType;
  cmi_priority : option MessagePriority;
  cmi_response_to_id : option string;
  cmi_metadata : option string
}.

Definition getMessage (db : Db) (mid : string) : option Message :=
  find (fun m => String.eqb (m_id m) mid) (messages db).

Definition messageExists (db : Db) (mid : string) : bool :=
  existsb (fun m => String.eqb (m_id m) mid) (messages db).

Definition conversationExists (db : Db) (cid : string) : bool :=
  existsb (fun c => String.eqb (cv_id c) cid) (conversations db).

(** The row [createMessage] inserts: status and timestamps take the
    column defaults. *)
Definition newMessageRow (input : CreateMessageInput) (newId : string) (now : Z)
    : Message :=
  {| m_id := newId;
     m_conversation_id := cmi_conversation_id input;
     m_sender := cmi_sender input;
     m_target := cmi_target input;
     m_content := cmi_content input;
     m_message_type := default message (cmi_message_type input);
     m_priority := default normal (cmi_priority input);
     m_status := pending;
     m_response_to_id := cmi_response_to_id input;
     m_created_at := now;
     m_delivered_at := None;
     m_read_at := None;
     m_metadata := cmi_metadata input |}.

Definition touchConversation (cid : string) (now : Z) (c : Conversation)
    : Conversation :=
  if String.eqb (cv_id c) cid then
    {| cv_id := cv_id c; cv_title := cv_title c; cv_project := cv_project c;
       cv_status := cv_status c; cv_created_by := cv_created_by c;
       cv_created_at := cv_created_at c; cv_updated_at := now;
       cv_closed_at := cv_closed_at c; cv_summary := cv_summary c;
       cv_metadata := cv_metadata c |}
  else c.

(** [createMessage]: the insert throws on a duplicate id or a dangling
    reference (conversation, sender, target, answered message); then the
    conversation's [updated_at] is bumped and the row is read back. *)
Definition createMessage (db : Db) (input : CreateMessageInput)
    (newId : string) (now : Z) : option (Db * Message) :=
  if messageExists db newId then None
  else if negb (conversationExists db (cmi_conversation_id input)) then None
  else if negb (clientExists db (cmi_sender input)
                && clientExists db (cmi_target input)) then None
  else if negb (from_option (messageExists db) true (cmi_response_to_id input))
  then None
  else
    let db' :=
      {| clients := clients db;
         conversations :=
           map (touchConversation (cmi_conversation_id input) now)
               (conversations db);
         messages := messages db ++ [newMessageRow input newId now];
         message_queue := message_queue db |} in
    m ← getMessage db' newId;
    Some (db', m).

Definition olderMessage (m1 m2 : Message) : Prop :=
  (m_created_at m1 <= m_created_at m2)%Z.

#[export] Instance olderMessage_dec : RelDecision olderMessage.
Proof. intros m1 m2. unfold olderMessage. apply _. Defined.

(** [ORDER BY created_at ASC LIMIT ? OFFSET ?] *)
Definition getConversationMessages (db : Db) (cid : string)
    (limit : option nat) (offset : option nat) : list Message :=
  take (default 50%nat limit)
    (drop (default 0%nat offset)
       (merge_sort olderMessage
          (filter (fun m => m_conversation_id m = cid) (messages db)))).

(** The columns an [UPDATE messages SET status = ?, ...] writes on a
    row: the status, and [delivered_at] or [read_at] when the status
    written is [delivered] or [read]. *)
Definition withStatus (m : Message) (st : MessageStatus) (now : Z) : Message :=
  {| m_id := m_id m; m_conversation_id := m_conversation_id m;
     m_sender := m_sender m; m_target := m_target m;
     m_content := m_content m; m_message_type := m_message_type m;
     m_priority := m_priority m;
     m_status := st;
     m_response_to_id := m_response_to_id m;
     m_created_at := m_created_at m;
     m_delivered_at := match st with
                       | delivered => Some now
                       | _ => m_delivered_at m
                       end;
     m_read_at := match st with read => Some now | _ => m_read_at m end;
     m_metadata := m_metadata m |}.

(** [updateMessageStatus]: the [UPDATE], on the rows with the given
    id. *)
Definition updateMessageStatus (db : Db) (mid : string) (st : MessageStatus)
    (now : Z) : Db :=
  {| clients := clients db;
     conversations := conversations db;
     messages :=
       map (fun m => if String.eqb (m_id m) mid then withStatus m st now else m)
           (messages db);
     message_queue := message_queue db |}.

(** The order of the statuses: [pending], [delivered], [read],
    [responded]. *)
Definition statusRank (st : MessageStatus) : nat :=
  match st with
  | pending => 0
  | delivered => 1
  | read => 2
  | responded => 3
  end.

(** [ORDER BY created_at ASC LIMIT 1] over the answers to [mid]. *)
Definition getResponseToMessage (db : Db) (mid : string) : option Message :=
  head (merge_sort olderMessage
          (filter (fun m => m_response_to_id m = Some mid) (messages db))).

(** *** message_queue *)

Record CreateQueuedMessageInput := mkCreateQueuedMessageInput {
  cqi_message_id : string;
  cqi_target : ClientId;
  cqi_priority : option Z;
  cqi_max_attempts : option Z
}.

(** The rowid SQLite gives an insert: one more than the largest in use. *)
Definition nextRowid (q : list QueuedMessage) : Z :=
  (foldr (fun r acc => Z.max (q_id r) acc) 0 q + 1)%Z.

(** [enqueueMessage]: the insert throws when the message is already
    queued ([UNIQUE(message_id)]) or does not exist, or the target is
    unknown; the inserted row is read back. *)
Definition enqueueMessage (db : Db) (input : CreateQueuedMessageInput)
    (now : Z) : option (Db * QueuedMessage) :=
  if existsb (fun r => String.eqb (q_message_id r) (cqi_message_id input))
             (message_queue db) then None
  else if negb (messageExists db (cqi_message_id input)) then None
  else if negb (clientExists db (cqi_target input)) then None
  else
    let rowid := nextRowid (message_queue db) in
    let row := {| q_id := rowid;
                  q_message_id := cqi_message_id input;
                  q_target := cqi_target input;
                  q_priority := default 0%Z (cqi_priority input);
                  q_attempts := 0;
                  q_max_attempts := default 3%Z (cqi_max_attempts input);
                  q_next_attempt := now;
                  q_created_at := now |} in
    let db' := {| clients := clients db;
                  conversations := conversations db;
                  messages := messages db;
                  message_queue := message_queue db ++ [row] |} in
    r ← find (fun r => (q_id r =? rowid)%Z) (message_queue db');
    Some (db', r).

Definition getQueuedMessage (db : Db) (mid : string) : option QueuedMessage :=
  find (fun r => String.eqb (q_message_id r) mid) (message_queue db).

(** The [WHERE] clause of [dequeueMessages]. *)
Definition ready (target : ClientId) (now : Z) (r : QueuedMessage) : Prop :=
  q_target r = target /\ (q_next_attempt r <= now)%Z
  /\ (Z.of_nat (q_attempts r) < q_max_attempts r)%Z.

#[export] Instance ready_dec target now r : Decision (ready target now r).
Proof. unfold ready. apply _. Defined.

(** [ORDER BY priority DESC, next_attempt ASC] *)
Definition queueOrder (r1 r2 : QueuedMessage) : Prop :=
  (q_priority r2 < q_priority r1)%Z
  \/ (q_priority r1 = q_priority r2 /\ (q_next_attempt r1 <= q_next_attempt r2)%Z).

#[export] Instance queueOrder_dec : RelDecision queueOrder.
Proof. intros r1 r2. unfold queueOrder. apply _. Defined.

(** [dequeueMessages]: a count of rows bounds the answer. *)
Definition dequeueMessages (db : Db) (target : ClientId) (limit : nat)
    (now : Z) : list QueuedMessage :=
  take limit (merge_sort queueOrder (filter (ready target now) (message_queue db))).

(** [incrementAttempts]: [delaySeconds] seconds from now. *)
Definition incrementAttempts (db : Db) (rowid : Z) (delaySeconds : Z) (now : Z)
    : Db :=
  {| clients := clients db;
     conversations := conversations db;
     messages := messages db;
     message_queue :=
       map (fun r => if (q_id r =? rowid)%Z
                     then {| q_id := q_id r; q_message_id := q_message_id r;
                             q_target := q_target r; q_priority := q_priority r;
                             q_attempts := S (q_attempts r);
                             q_max_attempts := q_max_attempts r;
                             q_next_attempt := (now + 1000 * delaySeconds)%Z;
                             q_created_at := q_created_at r |}
                     else r) (message_queue db) |}.

Definition removeFromQueue (db : Db) (mid : string) : Db * bool :=
  let keep := filter (fun r => q_message_id r <> mid) (message_queue db) in
  ({| clients := clients db;
      conversations := conversations db;
      messages := messages db;
      message_queue := keep |},
   (length keep <? length (message_queue db))%nat).

Definition exhausted (r : QueuedMessage) : Prop :=
  (q_max_attempts r <= Z.of_nat (q_attempts r))%Z.

#[export] Instance exhausted_dec r : Decision (exhausted r).
Proof. unfold exhausted. apply _. Defined.

(** [clearExhaustedMessages]: the new table and the number of rows
    deleted. *)
Definition clearExhaustedMessages (db : Db) : Db * nat :=
  let keep := filter (fun r => ~ exhausted r) (message_queue db) in
  ({| clients := clients db;
      conversations := conversations db;
      messages := messages db;
      message_queue := keep |},
   (length (message_queue db) - length keep)%nat).

End Store.

(** ** The in-memory client registry *)

Module Registry.

Import Store.

(** [activeSessions]: client id to session id. *)
Abbreviation ClientRegistry := (gmap ClientId string).

Definition newRegistry : ClientRegistry := ∅.

Definition setOnline (r : ClientRegistry) (c : ClientId) (sessionId : string)
    : ClientRegistry := <[c := sessionId]> r.

Definition setOffline (r : ClientRegistry) (c : ClientId) : ClientRegistry :=
  delete c r.

Definition isOnline (r : ClientRegistry) (c : ClientId) : bool :=
  bool_decide (is_Some (r !! c)).

Definition getSessionId (r : ClientRegistry) (c : ClientId) : option string :=
  r !! c.

(** The keys, in the map's order rather than insertion order. *)
Definition getOnlineClients (r : ClientRegistry) : list ClientId :=
  (map_to_list r).*1.

Definition clear (r : ClientRegistry) : ClientRegistry := ∅.

End Registry.

(** ** The background queue processor *)

Module QueueProcessor.

Import Store.

Definition CLIENTS : list ClientId := [claude; codex].

Inductive DeliveryResult := Delivered | Retry | Removed.

(** [Math.min(baseDelay * Math.pow(2, item.attempts), maxDelay)], in
    seconds.  The powers of two are exact in floating point, and one too
    large to represent is an infinity that [Math.min] discards, so the
    integer computation gives the same number. *)
Definition retryDelay (attempts : nat) : Z :=
  let baseDelay := 30%Z in
  let backoffDelay := (baseDelay * 2 ^ Z.of_nat attempts)%Z in
  let maxDelay := 3600%Z in
  Z.min backoffDelay maxDelay.

Definition scheduleRetry (db : Db) (item : QueuedMessage) (now : Z) : Db :=
  incrementAttempts db (q_id item) (retryDelay (q_attempts item)) now.

(** The row a retry leaves in place of [item] at time [now]. *)
Definition retried (item : QueuedMessage) (now : Z) : QueuedMessage :=
  {| q_id := q_id item;
     q_message_id := q_message_id item;
     q_target := q_target item;
     q_priority := q_priority item;
     q_attempts := S (q_attempts item);
     q_max_attempts := q_max_attempts item;
     q_next_attempt :=
       (now + 1000 * Z.min (30 * 2 ^ Z.of_nat (q_attempts item)) 3600)%Z;
     q_created_at := q_created_at item |}.

(** [attemptDelivery]: the online check reads the [clients] table. *)
Definition attemptDelivery (db : Db) (target : ClientId) (item : QueuedMessage)
    (now : Z) : Db * DeliveryResult :=
  match getMessage db (q_message_id item) with
  | None => ((removeFromQueue db (q_message_id item)).1, Removed)
  | Some m =>
      if negb (isClientOnline db target)
      then (scheduleRetry db item now, Retry)
      else
        let db1 := updateMessageStatus db (m_id m) delivered now in
        ((removeFromQueue db1 (q_message_id item)).1, Delivered)
  end.

(** The [for ... of queued] loop.  No store operation of the model
    throws, so the [catch] arm of the loop is not taken. *)
Fixpoint deliverAll (db : Db) (target : ClientId) (queued : list QueuedMessage)
    (now : Z) : Db * list DeliveryResult :=
  match queued with
  | [] => (db, [])
  | item :: rest =>
      let '(db1, res) := attemptDelivery db target item now in
      let '(db2, ress) := deliverAll db1 target rest now in
      (db2, res :: ress)
  end.

(** [processQueueForTarget]: the new store and the outcome of each
    delivery attempt (the source only counts and logs them). *)
Definition processQueueForTarget (db : Db) (target : ClientId) (now : Z)
    : Db * list DeliveryResult :=
  if negb (isClientOnline db target) then (db, [])
  else deliverAll db target (dequeueMessages db target 10 now) now.

Definition processQueue (db : Db) (now : Z) : Db :=
  fold_left (fun d t => (processQueueForTarget d t now).1) CLIENTS db.

Definition onClientOnline (db : Db) (clientId : ClientId) (now : Z)
    : Db * list DeliveryResult :=
  processQueueForTarget db clientId now.

(** The five-minute cleanup timer. *)
Definition cleanup (db : Db) : Db * nat := clearExhaustedMessages db.

End QueueProcessor.

(** ** The message dispatcher *)

Module Dispatcher.

Import JsString Agents Store Registry.

Record SendMessageOpts := mkSendMessageOpts {
  conversationId : option string;
  sender : ClientId;
  target : ClientId;
  content : string;
  messageType : option MessageType;
  priority : option MessagePriority;
  waitForResponse_ : option bool;
  timeoutMs : option Z;
  useOutputSchema : option bool;
  metadata : option string;
  agent : option AgentName
}.

Record SendMessageResult := mkSendMessageResult {
  r_message : Message;
  r_conversation : Conversation;
  r_response : option Message;
  r_invoked : option bool;
  r_invokedViaMcp : option bool;
  r_invocationError : option string;
  r_selectedAgent : option string
}.

(** What the persistent client and the one-shot subprocess hand back. *)
Record CodexCallResult := mkCodexCallResult {
  ccr_response : string;
  ccr_conversationId : option string
}.

Record InvocationResult := mkInvocationResult {
  ir_id : string;
  ir_success : bool;
  ir_stdout : string;
  ir_stderr : string;
  ir_exitCode : option Z;
  ir_response : option string
}.

Definition clientIdText (c : ClientId) : string :=
  match c with claude => "claude" | codex => "codex" end.

Definition newline : string := String (ascii_of_nat 10) EmptyString.

Fixpoint join (sep : string) (parts : list string) : string :=
  match parts with
  | [] => EmptyString
  | [p] => p
  | p :: rest => p +:+ sep +:+ join sep rest
  end.

Definition buildConversationContext (db : Db) (cid : string) : string :=
  let msgs := getConversationMessages db cid (Some 20%nat) None in
  join (newline +:+ newline)
       (map (fun m => "[" +:+ clientIdText (m_sender m) +:+ "]: " +:+ m_content m)
            msgs).

Definition getResponseType (requestType : option MessageType) : MessageType :=
  match requestType with
  | Some research_request => research_response
  | Some review_request => review_response
  | _ => message
  end.

Definition priorityMap (p : MessagePriority) : Z :=
  match p with urgent => 2 | high => 1 | normal => 0 end.

(** [waitForResponse] while no other task writes the store: every poll
    reads the same answer, and a deadline that has already passed makes
    no poll at all. *)
Definition waitForResponse (db : Db) (mid : string) (timeout : Z)
    : option Message :=
  if (0 <? timeout)%Z then getResponseToMessage db mid else None.

Section WithEnvironment.

(** The platform's [toLowerCase]. *)
Variable toLowerCase : string -> string.

(** [codexMcpClient.sendMessage(prompt, messageId, persona)]: the
    subprocess peer's answer, [None] when it gives none or the call
    throws. *)
Variable codexSend : string -> string -> AgentPersona -> option CodexCallResult.

(** [invokeCodexExec(db, message, context, {timeoutMs, useOutputSchema})]
    as far as the dispatcher reads it.  Its audit rows go to the
    [invocations] table, which no operation here reads. *)
Variable invokeCodexExec : Message -> string -> Z -> bool -> InvocationResult.

Definition tryCodexMcpServer (enabled : bool) (content conversationContext
    messageId : string) (persona : AgentPersona) : option string :=
  if negb enabled then None
  else
    let prompt :=
      if truthy conversationContext
      then "Previous conversation:" +:+ newline +:+ conversationContext
           +:+ newline +:+ newline +:+ "New message:" +:+ newline +:+ content
      else content in
    match codexSend prompt messageId persona with
    | Some res => if truthy (ccr_response res) then Some (ccr_response res)
                  else None
    | None => None
    end.

(** The last step of [sendMessage]: poll for an answer when asked to and
    none was produced inline. *)
Definition finish (db : Db) (opts : SendMessageOpts) (res : SendMessageResult)
    : option (Db * SendMessageResult) :=
  if default false (waitForResponse_ opts) && negb (bool_decide (is_Some (r_response res)))
  then
    match waitForResponse db (m_id (r_message res)) (default 60000%Z (timeoutMs opts)) with
    | Some resp =>
        Some (db, mkSendMessageResult (r_message res) (r_conversation res)
                    (Some resp) (r_invoked res) (r_invokedViaMcp res)
                    (r_invocationError res) (r_selectedAgent res))
    | None => Some (db, res)
    end
  else Some (db, res).

(** [sendMessage].  [registry] is the dispatcher's optional
    [clientRegistry], [enabled] its [codexMcpEnabled]; [convId], [msgId]
    and [respId] are the identifiers [randomUUID()] yields for a new
    conversation, the message and an inline answer. *)
Definition sendMessage (registry : option ClientRegistry) (enabled : bool)
    (db : Db) (opts : SendMessageOpts) (convId msgId respId : string) (now : Z)
    : option (Db * SendMessageResult) :=
  let create :=
    createConversation db
      {| cci_title := None; cci_project := None;
         cci_created_by := sender opts; cci_metadata := None |} convId now in
  '(db1, conversation) ←
    match conversationId opts with
    | Some cid =>
        if truthy cid
        then existing ← getConversation db cid; Some (db, existing)
        else create
    | None => create
    end;
  '(db2, msg) ←
    createMessage db1
      {| cmi_conversation_id := cv_id conversation;
         cmi_sender := sender opts;
         cmi_target := target opts;
         cmi_content := content opts;
         cmi_message_type := messageType opts;
         cmi_priority := priority opts;
         cmi_response_to_id := None;
         cmi_metadata := metadata opts |} msgId now;
  let result := mkSendMessageResult msg conversation None None None None None in
  let targetOnline :=
    match registry with
    | Some r => isOnline r (target opts)
    | None => false
    end in
  if targetOnline then
    finish (updateMessageStatus db2 (m_id msg) delivered now) opts result
  else if bool_decide (target opts = codex) then
    let conversationContext := buildConversationContext db2 (cv_id conversation) in
    let persona := selectPersona toLowerCase (agent opts) (content opts) in
    let answer (db : Db) (text : string) :=
      createMessage db
        {| cmi_conversation_id := cv_id conversation;
           cmi_sender := target opts;
           cmi_target := sender opts;
           cmi_content := text;
           cmi_message_type := Some (getResponseType (messageType opts));
           cmi_priority := None;
           cmi_response_to_id := Some (m_id msg);
           cmi_metadata := None |} respId now in
    match tryCodexMcpServer enabled (content opts) conversationContext
                            (m_id msg) persona with
    | Some mcpResult =>
        '(db3, responseMessage) ← answer db2 mcpResult;
        finish (updateMessageStatus db3 (m_id msg) responded now) opts
          (mkSendMessageResult msg conversation (Some responseMessage)
             (Some true) (Some true) None (Some (name persona)))
    | None =>
        let inv := invokeCodexExec msg conversationContext
                     (default 300000%Z (timeoutMs opts))
                     (default true (useOutputSchema opts)) in
        let hasResponse := from_option truthy false (ir_response inv) in
        '(db3, response) ←
          (if hasResponse
           then '(db3, responseMessage) ← answer db2 (default EmptyString (ir_response inv));
                Some (updateMessageStatus db3 (m_id msg) responded now,
                      Some responseMessage)
           else Some (db2, None));
        let invocationError :=
          if negb (ir_success inv) && negb hasResponse
          then Some (if truthy (ir_stderr inv) then ir_stderr inv
                     else "Invocation failed with no output")
          else None in
        finish db3 opts
          (mkSendMessageResult msg conversation response (Some true) None
             invocationError (Some (name persona)))
    end
  else
    '(db3, _) ←
      enqueueMessage db2
        {| cqi_message_id := m_id msg;
           cqi_target := target opts;
           cqi_priority := Some (priorityMap (default normal (priority opts)));
           cqi_max_attempts := Some 5%Z |} now;
    finish db3 opts result.

End WithEnvironment.

(** *** The steps of [sendMessage], named *)

(** The first step of [sendMessage]: load the conversation named, or
    create one. *)
Definition resolveConversation (db : Db) (opts : SendMessageOpts)
    (convId : string) (now : Z) : option (Db * Conversation) :=
  match conversationId opts with
  | Some cid =>
      if truthy cid
      then existing ← getConversation db cid; Some (db, existing)
      else createConversation db
             {| cci_title := None; cci_project := None;
                cci_created_by := sender opts; cci_metadata := None |} convId now
  | None =>
      createConversation db
        {| cci_title := None; cci_project := None;
           cci_created_by := sender opts; cci_metadata := None |} convId now
  end.

Definition messageInput (opts : SendMessageOpts) (conv : Conversation)
    : CreateMessageInput :=
  {| cmi_conversation_id := cv_id conv;
     cmi_sender := sender opts;
     cmi_target := target opts;
     cmi_content := content opts;
     cmi_message_type := messageType opts;
     cmi_priority := priority opts;
     cmi_response_to_id := None;
     cmi_metadata := metadata opts |}.

Definition answerInput (opts : SendMessageOpts) (conv : Conversation)
    (msg : Message) (text : string) : CreateMessageInput :=
  {| cmi_conversation_id := cv_id conv;
     cmi_sender := target opts;
     cmi_target := sender opts;
     cmi_content := text;
     cmi_message_type := Some (getResponseType (messageType opts));
     cmi_priority := None;
     cmi_response_to_id := Some (m_id msg);
     cmi_metadata := None |}.

Definition queueInput (opts : SendMessageOpts) (msg : Message)
    : CreateQueuedMessageInput :=
  {| cqi_message_id := m_id msg;
     cqi_target := target opts;
     cqi_priority := Some (priorityMap (default normal (priority opts)));
     cqi_max_attempts := Some 5%Z |}.

(** What the dispatcher takes for the target's availability. *)
Definition targetOnline (registry : option ClientRegistry) (t : ClientId) : bool :=
  match registry with
  | Some r => isOnline r t
  | None => false
  end.

(** Every message of [db'] that [db] did not have belongs to the
    conversation [cid]. *)
Definition newMessagesIn (db db' : Db) (cid : string) : Prop :=
  forall m, In m (messages db') ->
    messageExists db (m_id m) = false -> m_conversation_id m = cid.

End Dispatcher.

(** ** The tool server: [mark_message_read] *)

Module Tools.

Import Store.

(** The envelope a handler returns: an error text with [isError], or
    the JSON of the success case. *)
Inductive ToolResult :=
  | ToolError (error : string)
  | MarkedRead (message_id : string) (status : MessageStatus).

Definition isSuccess (r : ToolResult) : bool :=
  match r with MarkedRead _ _ => true | ToolError _ => false end.

(** The handler of [mark_message_read] for the session of [clientId]. *)
Definition mark_message_read (db : Db) (clientId : option ClientId)
    (message_id : string) (now : Z) : Db * ToolResult :=
  match clientId with
  | None => (db, ToolError "Unknown client")
  | Some caller =>
      match getMessage db message_id with
      | None => (db, ToolError "Message not found")
      | Some m =>
          if negb (bool_decide (m_target m = caller))
          then (db, ToolError "Cannot mark message as read: not the target")
          else (updateMessageStatus db message_id read now,
                MarkedRead message_id read)
      end
  end.

End Tools.

(** ** The persistent subprocess client: reading a tool-call result *)

Module CodexMcp.

Import JsString.

(** A number as [JSON.parse] yields it. *)
Inductive JsNumber := Finite (z : Z) (exp2 : Z) | Infinite (negative : bool).

(** JSON values. *)
Inductive JSON :=
  | JNull
  | JBool (b : bool)
  | JNumber (n : JsNumber)
  | JString (s : string)
  | JArray (items : list JSON)
  | JObject (fields : list (string * JSON)).

(** Truthiness of a parsed value. *)
Definition truthyValue (v : JSON) : bool :=
  match v with
  | JNull => false
  | JBool b => b
  | JNumber (Finite z _) => negb (z =? 0)%Z
  | JNumber (Infinite _) => true
  | JString s => truthy s
  | JArray _ | JObject _ => true
  end.

(** Property read on a parsed object: the last of duplicate keys wins. *)
Fixpoint getField (key : string) (fields : list (string * JSON)) : option JSON :=
  match fields with
  | [] => None
  | (k, v) :: rest =>
      match getField key rest with
      | Some v' => Some v'
      | None => if String.eqb k key then Some v else None
      end
  end.

(** An entry of [content]: an object whose [type] and [text], when
    present, are strings. *)
Record ContentItem := mkContentItem {
  ci_type : option string;
  ci_text : option string
}.

(** The legacy [toolResult] member: a string, or an object that may
    carry a [response] (given here as [String(...)] prints it). *)
Inductive LegacyToolResult :=
  | LegacyText (s : string)
  | LegacyObject (response : option string).

(** The result of [callTool]: an object with an optional [content]
    array and an optional [toolResult]. *)
Record CallToolResult := mkCallToolResult {
  content : option (list ContentItem);
  toolResult : option LegacyToolResult
}.

Definition isTextItem (item : ContentItem) : bool :=
  match ci_type item, ci_text item with
  | Some ty, Some _ => String.eqb ty "text"
  | _, _ => false
  end.

Section WithParser.

(** [JSON.parse]: [None] when it throws. *)
Variable JSON_parse : string -> option JSON.

(** The last block of [extractResponse], reached when the two before
    it returned nothing: parse the text of [content[0]]. *)
Definition parseFirstItem (r : CallToolResult) : option JSON :=
  match content r with
  | Some (item :: _) =>
      match ci_text item with
      | Some text =>
          if truthy text then
            match JSON_parse text with
            | None => Some (JString text)
            | Some JNull => Some (JString text)
            | Some (JObject fields) =>
                match getField "response" fields with
                | Some v => if truthyValue v then Some v else None
                | None => None
                end
            | Some _ => None
            end
          else None
      | None => None
      end
  | _ => None
  end.

(** [extractResponse] on a result object: the value returned, [None]
    for [null]. *)
Definition extractResponse (r : CallToolResult) : option JSON :=
  match
    match content r with
    | Some items => find isTextItem items
    | None => None
    end
  with
  | Some item => Some (JString (default EmptyString (ci_text item)))
  | None =>
      match toolResult r with
      | Some (LegacyText s) =>
          if truthy s then Some (JString s) else parseFirstItem r
      | Some (LegacyObject (Some response)) => Some (JString response)
      | Some (LegacyObject None) => parseFirstItem r
      | None => parseFirstItem r
      end
  end.

(** What the specification describes: the text item's [response]
    field when its text parses as JSON having one, else the text. *)
Definition spec_extractResponse (r : CallToolResult) : option JSON :=
  items ← content r;
  item ← find isTextItem items;
  text ← ci_text item;
  match JSON_parse text with
  | Some (JObject fields) =>
      match getField "response" fields with
      | Some v => Some v
      | None => Some (JString text)
      end
  | _ => Some (JString text)
  end.

End WithParser.

(** A parser that knows one text. *)
Definition parseOnly (text : string) (v : JSON) (s : string) : option JSON :=
  if String.eqb s text then Some v else None.

Definition dquote : string := String (ascii_of_nat 34) EmptyString.

(** The text [{"response":"hello"}] and the value it parses to. *)
Definition wrappedText : string :=
  "{" +:+ dquote +:+ "response" +:+ dquote +:+ ":" +:+ dquote +:+ "hello"
  +:+ dquote +:+ "}".

Definition wrappedValue : JSON := JObject [("response", JString "hello")].

Definition wrappedResult : CallToolResult :=
  {| content := Some [ {| ci_type := Some "text"; ci_text := Some wrappedText |} ];
     toolResult := None |}.

End CodexMcp.

(** ** The transport's session hooks *)

Module Transport.

Import Store Registry QueueProcessor.

(** [onsessioninitialized]: for an identified client, the registry
    first, then the [clients] row, then an immediate drain of its
    queue. *)
Definition onsessioninitialized (reg : ClientRegistry) (db : Db)
    (clientId : option ClientId) (sid : string) (now : Z)
    : ClientRegistry * Db :=
  match clientId with
  | Some c =>
      let reg' := setOnline reg c sid in
      let db' := updateClientStatus db c online (Some sid) now in
      (reg', (onClientOnline db' c now).1)
  | None => (reg, db)
  end.

(** [transport.onclose]. *)
Definition onclose (reg : ClientRegistry) (db : Db) (clientId : option ClientId)
    : ClientRegistry * Db :=
  match clientId with
  | Some c => (setOffline reg c, setClientOffline db c)
  | None => (reg, db)
  end.

End Transport.

(** ** Concrete runs *)

Module Scenarios.

Import JsString Agents Store Registry QueueProcessor Dispatcher Tools Transport.

(** A subprocess peer that gives no answer on either tier. *)
Definition silentCodex (prompt messageId : string) (persona : AgentPersona)
    : option CodexCallResult := None.

Definition failedExec (m : Message) (context : string) (timeout : Z)
    (schema : bool) : InvocationResult :=
  {| ir_id := "inv-1"; ir_success := false; ir_stdout := EmptyString;
     ir_stderr := "spawn codex ENOENT"; ir_exitCode := None;
     ir_response := None |}.

(** A persistent peer that answers every prompt with [text]. *)
Definition answeringCodex (text : string) (prompt messageId : string)
    (persona : AgentPersona) : option CodexCallResult :=
  Some {| ccr_response := text; ccr_conversationId := None |}.

Definition send := sendMessage asciiLowerCase silentCodex failedExec.

Definition opts (from to : ClientId) (conv : option string) (text : string)
    (prio : option MessagePriority) : SendMessageOpts :=
  {| conversationId := conv; sender := from; target := to; content := text;
     messageType := None; priority := prio; waitForResponse_ := Some false;
     timeoutMs := Some 60000%Z; useOutputSchema := None; metadata := None;
     agent := None |}.

(** A fresh database file and a fresh process. *)
Definition db0 : Db := migrate 0.
Definition reg0 : ClientRegistry := newRegistry.

(** *** Offline claude: only codex has a session, and sends "ping" with
    priority high. *)
Definition codexOnly : ClientRegistry * Db :=
  onsessioninitialized reg0 db0 (Some codex) "S2" 10.

Definition pingSent : option (Db * SendMessageResult) :=
  send (Some codexOnly.1) true codexOnly.2
       (opts codex claude None "ping" (Some high)) "conv-1" "msg-1" "resp-1" 100.

(** *** Both online: claude sends "hello" to codex. *)
Definition bothOnline : ClientRegistry * Db :=
  let '(reg, db) := onsessioninitialized reg0 db0 (Some claude) "S1" 10 in
  onsessioninitialized reg db (Some codex) "S2" 20.

Definition helloSent : option (Db * SendMessageResult) :=
  send (Some bothOnline.1) true bothOnline.2
       (opts claude codex None "hello" None) "conv-1" "msg-1" "resp-1" 100.

(** *** A closed conversation: claude creates a conversation, closes it,
    and then sends a message into it. *)
Definition closedConversation : option Db :=
  '(db1, conv) ← createConversation bothOnline.2
       {| cci_title := Some "design"; cci_project := None;
          cci_created_by := claude; cci_metadata := None |} "conv-1" 30;
  Some (closeConversation db1 (cv_id conv) (Some "done") 40).1.

Definition sentIntoClosed : option (Db * SendMessageResult) :=
  db ← closedConversation;
  send (Some bothOnline.1) true db
       (opts claude codex (Some "conv-1") "one more thing" None)
       "conv-2" "msg-1" "resp-1" 100.

(** *** An answered message read afterwards: claude asks an offline
    codex, the persistent peer answers, and codex later opens a session
    and marks the question read. *)
Definition claudeOnly : ClientRegistry * Db :=
  onsessioninitialized reg0 db0 (Some claude) "S1" 10.

Definition asked : option (Db * SendMessageResult) :=
  sendMessage asciiLowerCase (answeringCodex "Because Y.") failedExec
    (Some claudeOnly.1) true claudeOnly.2
    (opts claude codex None "Why is X failing?" None)
    "conv-1" "msg-1" "resp-1" 100.

Definition readAfterAnswer : option (Db * ToolResult) :=
  '(db1, _) ← asked;
  let '(_, db2) := onsessioninitialized claudeOnly.1 db1 (Some codex) "S2" 200 in
  Some (mark_message_read db2 (Some codex) "msg-1" 300).

(** *** A stale [clients] row: claude had a session when the process was
    killed, so its row still says online.  After the restart the
    registry is empty; codex opens a session and sends to claude. *)
Definition beforeKill : ClientRegistry * Db :=
  onsessioninitialized reg0 db0 (Some claude) "S1" 10.

Definition afterRestart : ClientRegistry * Db :=
  onsessioninitialized newRegistry beforeKill.2 (Some codex) "S2" 1000.

Definition sentToAbsentClaude : option (Db * SendMessageResult) :=
  send (Some afterRestart.1) true afterRestart.2
       (opts codex claude None "ping" (Some high)) "conv-1" "msg-1" "resp-1" 1100.

Definition drained : option (Db * list DeliveryResult) :=
  '(db1, _) ← sentToAbsentClaude;
  Some (processQueueForTarget db1 claude 6000).

(** The stores these runs end in. *)
Definition pingDb : Db := from_option fst db0 pingSent.
Definition helloDb : Db := from_option fst db0 helloSent.
Definition closedDb : Db := default db0 closedConversation.

(** The store once codex, answered for by the persistent peer, has
    opened a session of its own. *)
Definition answeredDb : Db :=
  (onsessioninitialized claudeOnly.1 (from_option fst db0 asked)
     (Some codex) "S2" 200).2.

(** The queue row of the ping. *)
Definition pingRow : QueuedMessage :=
  {| q_id := 1; q_message_id := "msg-1"; q_target := claude; q_priority := 1;
     q_attempts := 0; q_max_attempts := 5; q_next_attempt := 100;
     q_created_at := 100 |}.

(** *** A queue with rows of every kind, read at time 100. *)
Definition queued (rowid : Z) (mid : string) (to : ClientId) (prio : Z)
    (attempts : nat) (next : Z) : QueuedMessage :=
  {| q_id := rowid; q_message_id := mid; q_target := to; q_priority := prio;
     q_attempts := attempts; q_max_attempts := 3; q_next_attempt := next;
     q_created_at := 0 |}.

Definition mixedQueue : Db :=
  {| clients := clients db0; conversations := []; messages := [];
     message_queue :=
       [ queued 1 "a" claude 0 0 50;    (* due, normal *)
         queued 2 "b" claude 2 0 80;    (* due, urgent, later *)
         queued 3 "c" codex 2 0 10;     (* another target *)
         queued 4 "d" claude 2 1 60;    (* due, urgent, earlier *)
         queued 5 "e" claude 1 0 500;   (* not due yet *)
         queued 6 "f" claude 1 3 20 ]   (* exhausted *) |}.

(** The ping failing to be delivered [n] times in a row, one minute
    apart. *)
Fixpoint failures (n : nat) (db : Db) (now : Z) : Db :=
  match n with
  | O => db
  | S k =>
      match getQueuedMessage db "msg-1" with
      | Some item => failures k (scheduleRetry db item now) (now + 60000)
      | None => db
      end
  end.

End Scenarios.

(** ** The event log: what a store keeps true *)

Module EventStoreInv.

Import EventStore.

Section WithMessage.

Context {JSONRPCMessage : Type}.

(** The stream as [storeEvent] finds it: a stream not seen before
    starts empty, with sequence number 1. *)
Definition streamOf (st : InMemoryEventStore JSONRPCMessage)
    (streamId : string) : StreamState JSONRPCMessage :=
  default emptyStream (streams st !! streamId).

(** Every buffered event carries an id made for this stream from a
    sequence number already used up. *)
Definition numbered (streamId : string) (s : StreamState JSONRPCMessage)
    : Prop :=
  Forall (fun ev => exists n, (n < nextSeq s)%N /\ id ev = makeEventId streamId n)
         (events s).

(** The index has no entry for an id that is not in the buffer. *)
Definition indexWithin (evs : list (EventRecord JSONRPCMessage))
    (idx : gmap string nat) : Prop :=
  dom idx ⊆ (list_to_set (id <$> evs) : gset string).

(** What a replay hands to [send], as pairs. *)
Definition sendable (evs : list (EventRecord JSONRPCMessage))
    : list (string * JSONRPCMessage) :=
  map (fun ev => (id ev, message ev)) evs.

End WithMessage.

End EventStoreInv.

(** ** The store: listings and statistics *)

Module StoreMore.

Import Store.

(** *** clients *)

Definition getAllClients (db : Db) : list Client := clients db.

Definition getClientBySession (db : Db) (sessionId : string) : option Client :=
  find (fun c => bool_decide (c_session_id c = Some sessionId)) (clients db).

(** *** conversations *)

(** The [status] option of [listConversations]: one status, or "all". *)
Inductive StatusFilter := OnlyStatus (st : ConversationStatus) | AllStatuses.

Record ListConversationsOpts := mkListConversationsOpts {
  lc_status : option StatusFilter;
  lc_participant : option ClientId;
  lc_limit : option nat;
  lc_offset : option nat
}.

(** [JOIN messages m ON m.conversation_id = c.id
     WHERE (m.sender = ? OR m.target = ?)] *)
Definition involves (db : Db) (p : ClientId) (c : Conversation) : Prop :=
  Exists (fun m => m_conversation_id m = cv_id c
                   /\ (m_sender m = p \/ m_target m = p)) (messages db).

#[export] Instance involves_dec db p c : Decision (involves db p c).
Proof. unfold involves. apply _. Defined.

Definition hasStatus (f : StatusFilter) (c : Conversation) : Prop :=
  match f with
  | OnlyStatus st => cv_status c = st
  | AllStatuses => True
  end.

#[export] Instance hasStatus_dec f c : Decision (hasStatus f c).
Proof. destruct f; cbn; apply _. Defined.

(** [ORDER BY c.updated_at DESC] *)
Definition newerConversation (c1 c2 : Conversation) : Prop :=
  (cv_updated_at c2 <= cv_updated_at c1)%Z.

#[export] Instance newerConversation_dec : RelDecision newerConversation.
Proof. intros c1 c2. unfold newerConversation. apply _. Defined.

(** [listConversations]: the defaults are status [active], limit 20,
    offset 0; [SELECT DISTINCT] lists a conversation once however many
    of its messages involve the participant. *)
Definition listConversations (db : Db) (opts : ListConversationsOpts)
    : list Conversation :=
  let status := default (OnlyStatus active) (lc_status opts) in
  let joined :=
    match lc_participant opts with
    | Some p => filter (involves db p) (conversations db)
    | None => conversations db
    end in
  take (default 20%nat (lc_limit opts))
    (drop (default 0%nat (lc_offset opts))
       (merge_sort newerConversation (filter (hasStatus status) joined))).

(** *** messages *)

(** [CASE priority WHEN 'urgent' THEN 0 WHEN 'high' THEN 1 ELSE 2 END] *)
Definition priorityCase (p : MessagePriority) : nat :=
  match p with urgent => 0 | high => 1 | normal => 2 end.

Definition moreUrgent (m1 m2 : Message) : Prop :=
  (priorityCase (m_priority m1) < priorityCase (m_priority m2))%nat
  \/ (priorityCase (m_priority m1) = priorityCase (m_priority m2)
      /\ (m_created_at m1 <= m_created_at m2)%Z).

#[export] Instance moreUrgent_dec : RelDecision moreUrgent.
Proof. intros m1 m2. unfold moreUrgent. apply _. Defined.

Definition pendingFor (target : ClientId) (m : Message) : Prop :=
  m_target m = target /\ m_status m = pending.

#[export] Instance pendingFor_dec target m : Decision (pendingFor target m).
Proof. unfold pendingFor. apply _. Defined.

(** [getPendingMessagesForTarget], limit 10 by default. *)
Definition getPendingMessagesForTarget (db : Db) (target : ClientId)
    (limit : option nat) : list Message :=
  take (default 10%nat limit)
    (merge_sort moreUrgent (filter (pendingFor target) (messages db))).

(** *** message_queue *)

Record QueueStats := mkQueueStats {
  qs_target : ClientId;
  qs_pending : nat;
  qs_ready : nat;
  qs_exhausted : nat
}.

Definition rowsFor (db : Db) (target : ClientId) : list QueuedMessage :=
  filter (fun r => q_target r = target) (message_queue db).

(** One group of [getQueueStats]: the row count and the two
    [SUM(CASE ...)] over the rows of a target. *)
Definition statsFor (db : Db) (now : Z) (target : ClientId) : QueueStats :=
  {| qs_target := target;
     qs_pending := length (rowsFor db target);
     qs_ready := length (filter (ready target now) (rowsFor db target));
     qs_exhausted := length (filter exhausted (rowsFor db target)) |}.

(** [getQueueStats]: [GROUP BY target] yields a group for each target
    that has rows; the groups are listed here by target. *)
Definition getQueueStats (db : Db) (now : Z) : list QueueStats :=
  map (statsFor db now)
      (filter (fun t => rowsFor db t <> []) [claude; codex]).

Definition getQueueLength (db : Db) (target : option ClientId) : nat :=
  match target with
  | Some t => length (rowsFor db t)
  | None => length (message_queue db)
  end.

(** The two constraints of the table: [UNIQUE(message_id)] and the
    primary key. *)
Definition queueKeyed (db : Db) : Prop :=
  NoDup (q_message_id <$> message_queue db)
  /\ NoDup (q_id <$> message_queue db).

(** The store once the queue rows of the messages [ids] are gone and
    those messages are marked delivered at [now]. *)
Definition markDelivered (db : Db) (ids : list string) (now : Z) : Db :=
  {| clients := clients db;
     conversations := conversations db;
     messages :=
       map (fun m => if bool_decide (m_id m ∈ ids)
                     then withStatus m delivered now else m) (messages db);
     message_queue := filter (fun r => q_message_id r ∉ ids) (message_queue db) |}.

(** A closed conversation carries its closing time. *)
Definition closedStamped (db : Db) : Prop :=
  Forall (fun c => isClosing (cv_status c) = true -> is_Some (cv_closed_at c))
         (conversations db).

End StoreMore.

(** ** The HTTP routes: the table of sessions *)

Module Http.

Import JsString Store Registry QueueProcessor Transport.

(** [sessions]: session id to the client the opening request was
    identified as. *)
Abbreviation Sessions := (gmap string (option ClientId)).

(** What the routes share: the sessions, the registry and the
    database. *)
Record Server := mkServer {
  sessions : Sessions;
  clientRegistry : ClientRegistry;
  db : Db
}.

(** A process started on an empty database file. *)
Definition newServer (now : Z) : Server :=
  {| sessions := ∅; clientRegistry := newRegistry; db := migrate now |}.

(** The transport's [onsessioninitialized] callback: the session is
    recorded, then the client is marked online and its queue drained. *)
Definition sessionInitialized (s : Server) (clientId : option ClientId)
    (sid : string) (now : Z) : Server :=
  let '(reg, d) :=
    onsessioninitialized (clientRegistry s) (db s) clientId sid now in
  {| sessions := <[sid := clientId]> (sessions s);
     clientRegistry := reg;
     db := d |}.

(** [transport.onclose] of the session [sid]. *)
Definition sessionClosed (s : Server) (sid : string) : Server :=
  if truthy sid then
    let '(reg, d) :=
      match sessions s !! sid with
      | Some clientId => onclose (clientRegistry s) (db s) clientId
      | None => (clientRegistry s, db s)
      end in
    {| sessions := delete sid (sessions s); clientRegistry := reg; db := d |}
  else s.

(** The queue processor's timer. *)
Definition tick (s : Server) (now : Z) : Server :=
  {| sessions := sessions s;
     clientRegistry := clientRegistry s;
     db := processQueue (db s) now |}.

(** The [onClose] hook of the application: every session's client is
    marked offline, then both maps are cleared.  Closing a transport
    runs its [onclose], which repeats writes made here. *)
Definition shutdown (s : Server) : Server :=
  {| sessions := ∅;
     clientRegistry := clear (clientRegistry s);
     db := foldr (fun entry d =>
                    match entry.2 with
                    | Some c => setClientOffline d c
                    | None => d
                    end)
                 (db s) (map_to_list (sessions s)) |}.

(** The status and session columns of a client's row. *)
Definition rowOf (d : Db) (c : ClientId) : option (ClientStatus * option string) :=
  row ← getClient d c; Some (c_status row, c_session_id row).

(** The registry and the [clients] table tell the same story: a client
    in the registry has a session on record and an online row carrying
    that session id; a client not in it has an offline row without
    one. *)
Definition inStep (s : Server) : Prop :=
  forall c,
    match clientRegistry s !! c with
    | Some sid =>
        rowOf (db s) c = Some (online, Some sid)
        /\ sessions s !! sid = Some (Some c)
    | None => rowOf (db s) c = Some (offline, None)
    end.

End Http.

(** ** The request filter *)

Module Security.

Import JsString.

(** What the filter reads of a request. *)
Record Request := mkRequest {
  ip : option string;
  host : option string;
  origin : option string;
  url : string
}.

Definition isLoopback (addr : option string) : bool :=
  match addr with
  | None => false
  | Some a =>
      if negb (truthy a) then false
      else String.eqb a "127.0.0.1" || String.eqb a "::1"
           || String.prefix "::ffff:127.0.0.1" a
  end.

(** The set [allowedHosts]; the port is a number the server can listen
    on, printed in decimal. *)
Definition allowedHosts (port : N) : list string :=
  [ "127.0.0.1:" +:+ pretty port;
    "localhost:" +:+ pretty port;
    "[::1]:" +:+ pretty port ].

(** The hook either lets the request go on to its route or answers 403
    with an error. *)
Inductive Verdict := Continue | Forbidden (error : string).

(** The [preHandler] hook. *)
Definition preHandler (port : N) (req : Request) : Verdict :=
  if negb (isLoopback (ip req)) then Forbidden "loopback_only"
  else
    if negb (from_option truthy false (host req))
       || negb (from_option (fun h => bool_decide (h ∈ allowedHosts port))
                            false (host req))
    then Forbidden "invalid_host"
    else
      if String.prefix "/mcp" (url req) then
        if from_option truthy false (origin req)
        then Forbidden "origin_not_allowed_for_mcp"
        else Continue
      else Continue.

End Security.

(** ** More concrete runs *)

Module MoreScenarios.

Import JsString Agents Store Registry QueueProcessor Dispatcher Transport.
Import Scenarios StoreMore.

(** The hello message, delivered to codex, queued by hand afterwards. *)
Definition requeued : option (Db * QueuedMessage) :=
  enqueueMessage helloDb
    {| cqi_message_id := "msg-1"; cqi_target := codex;
       cqi_priority := None; cqi_max_attempts := None |} 200.

(** Claude opens a second session while its first is still on record. *)
Definition twoSessions : Http.Server :=
  Http.sessionInitialized
    (Http.sessionInitialized (Http.newServer 0) (Some claude) "S1" 10)
    (Some claude) "S2" 20.

(** A request from the same machine to the [/mcp] route of a server on
    port 3790. *)
Definition localRequest : Security.Request :=
  {| Security.ip := Some "127.0.0.1";
     Security.host := Some "localhost:3790";
     Security.origin := None;
     Security.url := "/mcp" |}.

(** A persistent peer that answers with the name of the persona it is
    handed. *)
Definition namingCodex (prompt messageId : string) (persona : AgentPersona)
    : option CodexCallResult :=
  Some {| ccr_response := name persona; ccr_conversationId := None |}.

(** A review request without any oracle trigger, sent with the oracle
    named explicitly. *)
Definition reviewByOracle : SendMessageOpts :=
  {| conversationId := None; sender := claude; target := codex;
     content := "Please review the schema";
     messageType := None; priority := None; waitForResponse_ := Some false;
     timeoutMs := Some 60000%Z; useOutputSchema := None; metadata := None;
     agent := Some oracle |}.

Definition askedOracle : option (Db * SendMessageResult) :=
  sendMessage asciiLowerCase namingCodex failedExec
    (Some claudeOnly.1) true claudeOnly.2 reviewByOracle
    "conv-1" "msg-1" "resp-1" 100.

(** Every conversation claude takes part in, whatever its status. *)
Definition listForClaude : ListConversationsOpts :=
  {| lc_status := Some AllStatuses; lc_participant := Some claude;
     lc_limit := None; lc_offset := None |}.

End MoreScenarios.

(** * Properties *)

Local Open Scope list_scope.

(** ** Strings *)

Module JsStringFacts.

Import JsString.

Lemma prefix_iff_append (t s : string) :
  String.prefix t s = true <-> exists post, s = t +:+ post.
Proof.
  revert s. induction t as [|a t IH]; intros s; simpl.
  - split; [intros _; exists s; reflexivity | now destruct s].
  - destruct s as [|b s]; simpl.
    + split; [discriminate | intros [post H]; discriminate].
    + destruct (ascii_dec a b) as [->|Hne].
      * rewrite IH. split; intros [post H]; exists post.
        -- now rewrite H.
        -- now inversion H.
      * split; [discriminate|]. intros [post H]. inversion H. congruence.
Qed.

Lemma includes_iff_substring (s t : string) :
  includes s t = true <-> isSubstring t s.
Proof.
  unfold isSubstring. induction s as [|a s IH]; cbn [includes].
  - rewrite orb_false_r, prefix_iff_append. split.
    + intros [post H]. exists EmptyString, post. exact H.
    + intros (pre & post & H). destruct pre; [|discriminate].
      exists post. exact H.
  - rewrite orb_true_iff, prefix_iff_append, IH. split.
    + intros [[post H]|(pre & post & H)].
      * exists EmptyString, post. exact H.
      * exists (String a pre), post. simpl. now rewrite H.
    + intros (pre & post & H). destruct pre as [|b pre]; simpl in H.
      * left. exists post. exact H.
      * right. inversion H. now exists pre, post.
Qed.

End JsStringFacts.

(** ** Persona selection *)

Module AgentsFacts.

Import JsString JsStringFacts Agents.

Lemma firstTrigger_iff (lower : string) (ts : list string) :
  firstTrigger lower ts = true <->
  exists t, In t ts /\ isSubstring t lower.
Proof.
  induction ts as [|t ts IH]; simpl.
  - split; [discriminate | intros (t & [] & _)].
  - destruct (includes lower t) eqn:E.
    + split; [|reflexivity]. intros _. exists t. split; [now left|].
      now apply includes_iff_substring.
    + rewrite IH. split.
      * intros (u & Hin & Hsub). exists u. split; [now right | exact Hsub].
      * intros (u & [->|Hin] & Hsub).
        -- apply includes_iff_substring in Hsub. congruence.
        -- now exists u.
Qed.

Lemma personas_differ : ORACLE <> ARCHITECT.
Proof. discriminate. Qed.

Lemma selectAgent_oracle (toLowerCase : string -> string) (content : string) :
  selectAgent toLowerCase content = ORACLE <-> triggered (toLowerCase content).
Proof.
  unfold selectAgent, triggered. rewrite <- firstTrigger_iff.
  destruct (firstTrigger _ _); split; try reflexivity; try discriminate.
Qed.

Lemma selectAgent_architect (toLowerCase : string -> string) (content : string) :
  selectAgent toLowerCase content = ARCHITECT <-> ~ triggered (toLowerCase content).
Proof.
  unfold selectAgent, triggered. rewrite <- firstTrigger_iff.
  destruct (firstTrigger _ _); split; try reflexivity; try discriminate;
    intros H; exfalso; now apply H.
Qed.

Lemma selectPersona_explicit (toLowerCase : string -> string)
    (a : AgentName) (content : string) :
  selectPersona toLowerCase (Some a) content = AGENT_PERSONAS a.
Proof. reflexivity. Qed.

Example selectAgent_why_failing :
  selectAgent asciiLowerCase "Why is X failing?" = ORACLE.
Proof. reflexivity. Qed.

Example selectAgent_plain :
  selectAgent asciiLowerCase "Please review the schema" = ARCHITECT.
Proof. reflexivity. Qed.

(** A trigger counts wherever it occurs, also inside a longer word. *)
Example selectAgent_inside_word :
  selectAgent asciiLowerCase "Add a debugger entry to the menu" = ORACLE.
Proof. reflexivity. Qed.

End AgentsFacts.

(** ** The queue table *)

Module QueueFacts.

Import Store QueueProcessor.

#[export] Instance queueOrder_transitive : Transitive queueOrder.
Proof. intros x y z. unfold queueOrder. lia. Qed.

#[export] Instance queueOrder_total : Total queueOrder.
Proof. intros x y. unfold queueOrder. lia. Qed.

Lemma find_app_fresh {A} (f : A -> bool) (l : list A) (x : A) :
  existsb f l = false -> f x = true -> find f (l ++ [x]) = Some x.
Proof.
  induction l as [|y l IH]; simpl; intros Hl Hx.
  - now rewrite Hx.
  - apply orb_false_iff in Hl as [Hy Hl]. rewrite Hy. now apply IH.
Qed.

Lemma nextRowid_above (q : list QueuedMessage) (r : QueuedMessage) :
  In r q -> (q_id r < nextRowid q)%Z.
Proof.
  unfold nextRowid. induction q as [|x q IH]; simpl; intros Hin; [easy|].
  destruct Hin as [->|Hin]; [lia|]. specialize (IH Hin). lia.
Qed.

Lemma nextRowid_fresh (q : list QueuedMessage) :
  existsb (fun r => (q_id r =? nextRowid q)%Z) q = false.
Proof.
  apply not_true_is_false. intros H. apply existsb_exists in H as (r & Hin & Heq).
  apply Z.eqb_eq in Heq. apply nextRowid_above in Hin. lia.
Qed.

(** What [enqueueMessage] does when it does not throw: one row is
    appended, and it is the row returned. *)
Lemma enqueueMessage_Some (db db' : Db) (input : CreateQueuedMessageInput)
    (now : Z) (row : QueuedMessage) :
  enqueueMessage db input now = Some (db', row) ->
  row = {| q_id := nextRowid (message_queue db);
           q_message_id := cqi_message_id input;
           q_target := cqi_target input;
           q_priority := default 0%Z (cqi_priority input);
           q_attempts := 0;
           q_max_attempts := default 3%Z (cqi_max_attempts input);
           q_next_attempt := now;
           q_created_at := now |}
  /\ message_queue db' = message_queue db ++ [row]
  /\ messages db' = messages db
  /\ conversations db' = conversations db
  /\ clients db' = clients db.
Proof.
  unfold enqueueMessage. intros H.
  repeat match type of H with
         | (if ?b then None else _) = Some _ =>
             destruct b; [discriminate|]
         end.
  cbn [message_queue] in H.
  rewrite find_app_fresh in H.
  - cbn in H. injection H as <- <-. cbn. repeat split; reflexivity.
  - apply nextRowid_fresh.
  - cbn. apply Z.eqb_refl.
Qed.


(** C10.  A call to the store's [enqueueMessage] that omits
    [max_attempts] creates a row with [max_attempts = 3], the default
    that the schema has as well; a created row has the value 5 only when
    the caller passed 5. *)
Theorem enqueueMessage_default_max_attempts (db db' : Db)
    (input : CreateQueuedMessageInput) (now : Z) (row : QueuedMessage) :
  enqueueMessage db input now = Some (db', row) ->
  In row (message_queue db')
  /\ (cqi_max_attempts input = None -> q_max_attempts row = 3%Z)
  /\ (q_max_attempts row = 5%Z -> cqi_max_attempts input = Some 5%Z).
Proof.
  intros H. apply enqueueMessage_Some in H as (Hrow & Hq & _).
  split; [rewrite Hq; apply in_or_app; right; now left|].
  subst row; cbn. split.
  - now intros ->.
  - destruct (cqi_max_attempts input) as [n|]; cbn; [congruence | discriminate].
Qed.

(** C7.  [dequeueMessages] returns rows of the queue for the given
    target that are due ([next_attempt <= now]) and not exhausted
    ([attempts < max_attempts]); they come ordered by priority descending
    then [next_attempt] ascending; there are [limit] of them, or all the
    eligible rows when those are fewer; and the eligible rows left out
    all rank after the ones returned. *)
Theorem dequeueMessages_selects_orders_bounds (db : Db) (target : ClientId)
    (limit : nat) (now : Z) :
  let eligible := filter (ready target now) (message_queue db) in
  let result := dequeueMessages db target limit now in
  (forall r, r ∈ result ->
     r ∈ message_queue db /\ q_target r = target
     /\ (q_next_attempt r <= now)%Z
     /\ (Z.of_nat (q_attempts r) < q_max_attempts r)%Z)
  /\ StronglySorted queueOrder result
  /\ length result = Nat.min limit (length eligible)
  /\ (length result <= limit)%nat
  /\ exists rest,
       eligible ≡ₚ result ++ rest
       /\ StronglySorted queueOrder (result ++ rest).
Proof.
  intros eligible result.
  set (sorted := merge_sort queueOrder eligible).
  assert (Hperm : sorted ≡ₚ eligible) by apply merge_sort_Permutation.
  assert (Hsorted : StronglySorted queueOrder sorted)
    by apply (StronglySorted_merge_sort queueOrder).
  assert (Hsplit : result ++ drop limit sorted = sorted) by apply take_drop.
  assert (Hlen : length result = Nat.min limit (length eligible)).
  { unfold result, dequeueMessages. fold eligible. fold sorted.
    rewrite length_take. now rewrite Hperm. }
  repeat split.
  - assert (r ∈ eligible) as Hin.
    { rewrite <- Hperm, <- Hsplit. apply elem_of_app. now left. }
    apply list_elem_of_filter in Hin. tauto.
  - assert (r ∈ eligible) as Hin.
    { rewrite <- Hperm, <- Hsplit. apply elem_of_app. now left. }
    apply list_elem_of_filter in Hin. unfold ready in Hin. tauto.
  - assert (r ∈ eligible) as Hin.
    { rewrite <- Hperm, <- Hsplit. apply elem_of_app. now left. }
    apply list_elem_of_filter in Hin. unfold ready in Hin. tauto.
  - assert (r ∈ eligible) as Hin.
    { rewrite <- Hperm, <- Hsplit. apply elem_of_app. now left. }
    apply list_elem_of_filter in Hin. unfold ready in Hin. tauto.
  - rewrite <- Hsplit in Hsorted. now apply StronglySorted_app_1_l in Hsorted.
  - exact Hlen.
  - rewrite Hlen. apply Nat.le_min_l.
  - exists (drop limit sorted). rewrite Hsplit. split; [now symmetry | exact Hsorted].
Qed.

Example dequeueMessages_mixed_limit_2 :
  map q_message_id (dequeueMessages Scenarios.mixedQueue claude 2 100)
  = ["d"; "b"]%string.
Proof. vm_compute. reflexivity. Qed.

Example dequeueMessages_mixed_limit_10 :
  map q_message_id (dequeueMessages Scenarios.mixedQueue claude 10 100)
  = ["d"; "b"; "a"]%string.
Proof. vm_compute. reflexivity. Qed.

(** With room for every eligible row, the answer is a rearrangement of
    exactly those rows. *)
Corollary dequeueMessages_all (db : Db) (target : ClientId) (limit : nat)
    (now : Z) :
  (length (filter (ready target now) (message_queue db)) <= limit)%nat ->
  dequeueMessages db target limit now
    ≡ₚ filter (ready target now) (message_queue db).
Proof.
  intros Hle. unfold dequeueMessages. rewrite take_ge.
  - apply merge_sort_Permutation.
  - now rewrite merge_sort_Permutation.
Qed.

Lemma retryDelay_values :
  map retryDelay [0; 1; 2; 3; 6; 7; 8; 2000]%nat
  = [30; 60; 120; 240; 1920; 3600; 3600; 3600]%Z.
Proof. vm_compute. reflexivity. Qed.

Lemma retryDelay_capped (n : nat) : (7 <= n)%nat -> retryDelay n = 3600%Z.
Proof.
  intros Hn. unfold retryDelay. apply Z.min_r.
  assert (2 ^ 7 <= 2 ^ Z.of_nat n)%Z by (apply Z.pow_le_mono_r; lia).
  lia.
Qed.

(** The ping of the offline-claude run failing again and again: the
    delays are 30, 60 and 120 seconds, and after the fifth failure the
    sweep removes the row. *)
Example backoff_progression :
  map (fun n => option_map (fun r => (q_attempts r, q_next_attempt r))
                  (getQueuedMessage (Scenarios.failures n Scenarios.pingDb 1000)
                                    "msg-1"))
      [0; 1; 2; 3]%nat
  = [Some (0%nat, 100%Z); Some (1%nat, 31000%Z); Some (2%nat, 121000%Z);
     Some (3%nat, 241000%Z)]
  /\ message_queue
       (clearExhaustedMessages (Scenarios.failures 4 Scenarios.pingDb 1000)).1
     <> []
  /\ clearExhaustedMessages (Scenarios.failures 5 Scenarios.pingDb 1000)
     = ({| clients := clients Scenarios.pingDb;
           conversations := conversations Scenarios.pingDb;
           messages := messages Scenarios.pingDb;
           message_queue := [] |}, 1%nat).
Proof. repeat split; try (vm_compute; reflexivity). vm_compute. discriminate. Qed.

Lemma map_update_at_key (f : QueuedMessage -> QueuedMessage)
    (item : QueuedMessage) (l : list QueuedMessage) :
  In item l ->
  NoDup (map q_id l) ->
  exists before after,
    l = before ++ item :: after
    /\ map (fun r => if (q_id r =? q_id item)%Z then f r else r) l
       = before ++ f item :: after.
Proof.
  intros Hin Hnd. apply in_split in Hin as (before & after & ->).
  exists before, after. split; [reflexivity|].
  rewrite map_app in Hnd. cbn [map] in Hnd.
  apply NoDup_app in Hnd as (_ & Hdisj & Hnd).
  apply NoDup_cons in Hnd as [Hnotin _].
  rewrite map_app. cbn [map]. rewrite Z.eqb_refl. f_equal; [|f_equal].
  - rewrite <- (map_id before) at 2. apply map_ext_in. intros r Hr.
    destruct (q_id r =? q_id item)%Z eqn:E; [|reflexivity]. exfalso.
    apply Z.eqb_eq in E. apply (Hdisj (q_id r)).
    + apply list_elem_of_In, in_map. exact Hr.
    + rewrite E. apply list_elem_of_here.
  - rewrite <- (map_id after) at 2. apply map_ext_in. intros r Hr.
    destruct (q_id r =? q_id item)%Z eqn:E; [|reflexivity]. exfalso.
    apply Z.eqb_eq in E. apply Hnotin. rewrite <- E.
    apply list_elem_of_In, in_map. exact Hr.
Qed.

(** C6, as the code has it.  The rowids being the primary key,
    [scheduleRetry] rewrites the entry in place and touches no other
    row.  For an entry with [n] attempts so far it sets [next_attempt]
    to the time of the retry plus [min(30 * 2^n, 3600)] seconds and the
    attempts to [n + 1], leaving the other columns alone.  The entry's
    own [next_attempt] therefore moves by that delay plus the time by
    which the retry came after the entry was due: by the delay exactly
    only when the retry is made at the instant the entry was due.  The
    sweeper's [clearExhaustedMessages] deletes exactly the rows with
    [attempts >= max_attempts], reporting how many. *)
Theorem scheduleRetry_backoff_and_sweep (db : Db) (item : QueuedMessage)
    (now : Z) :
  In item (message_queue db) ->
  NoDup (map q_id (message_queue db)) ->
  let delay := (1000 * Z.min (30 * 2 ^ Z.of_nat (q_attempts item)) 3600)%Z in
  (exists before after row,
     message_queue db = before ++ item :: after
     /\ message_queue (scheduleRetry db item now) = before ++ row :: after
     /\ q_next_attempt row = (now + delay)%Z
     /\ (q_next_attempt row - q_next_attempt item
         = delay + (now - q_next_attempt item))%Z
     /\ ((q_next_attempt row - q_next_attempt item = delay)%Z
         <-> q_next_attempt item = now)
     /\ q_attempts row = (q_attempts item + 1)%nat
     /\ q_id row = q_id item
     /\ q_message_id row = q_message_id item
     /\ q_target row = q_target item
     /\ q_priority row = q_priority item
     /\ q_max_attempts row = q_max_attempts item
     /\ q_created_at row = q_created_at item)
  /\ clients (scheduleRetry db item now) = clients db
  /\ conversations (scheduleRetry db item now) = conversations db
  /\ messages (scheduleRetry db item now) = messages db
  /\ (forall r, In r (message_queue (clearExhaustedMessages db).1)
        <-> In r (message_queue db)
            /\ ~ (q_max_attempts r <= Z.of_nat (q_attempts r))%Z)
  /\ ((clearExhaustedMessages db).2
      = length (filter exhausted (message_queue db))).
Proof.
  intros Hin Hkey delay. split; [|split; [|split; [|split; [|split]]]];
    try reflexivity.
  - unfold scheduleRetry, incrementAttempts, retryDelay.
    cbn [message_queue].
    destruct (map_update_at_key
                (fun r => {| q_id := q_id r; q_message_id := q_message_id r;
                             q_target := q_target r; q_priority := q_priority r;
                             q_attempts := S (q_attempts r);
                             q_max_attempts := q_max_attempts r;
                             q_next_attempt :=
                               (now + 1000
                                      * Z.min (30 * 2 ^ Z.of_nat (q_attempts item))
                                              3600)%Z;
                             q_created_at := q_created_at r |})
                item (message_queue db) Hin Hkey)
      as (before & after & Hold & Hnew).
    exists before, after. eexists. split; [exact Hold|].
    split; [exact Hnew|]. cbn. unfold delay.
    repeat split; try reflexivity; lia.
  - intros r. split.
    + intros H. unfold clearExhaustedMessages in H. cbn in H.
      apply list_elem_of_In, list_elem_of_filter in H as [Hne Hr].
      split; [now apply list_elem_of_In | exact Hne].
    + intros [Hr Hne]. unfold clearExhaustedMessages. cbn.
      apply list_elem_of_In, list_elem_of_filter.
      split; [exact Hne | now apply list_elem_of_In].
  - unfold clearExhaustedMessages. cbn [snd message_queue].
    pose proof (filter_app_complement exhausted (message_queue db)) as Hp.
    apply Permutation_length in Hp. rewrite length_app in Hp. lia.
Qed.

End QueueFacts.

(** ** Messages and conversations *)

Module StoreFacts.

Import Store QueueFacts.

Lemma createMessage_Some (db db' : Db) (input : CreateMessageInput)
    (newId : string) (now : Z) (m : Message) :
  createMessage db input newId now = Some (db', m) ->
  m = newMessageRow input newId now
  /\ messages db' = messages db ++ [m]
  /\ conversations db'
     = map (touchConversation (cmi_conversation_id input) now) (conversations db)
  /\ message_queue db' = message_queue db
  /\ clients db' = clients db
  /\ conversationExists db (cmi_conversation_id input) = true
  /\ messageExists db newId = false.
Proof.
  unfold createMessage. intros H.
  destruct (messageExists db newId) eqn:Hfresh; [discriminate|].
  destruct (conversationExists db (cmi_conversation_id input)) eqn:Hconv;
    [|discriminate].
  repeat match type of H with
         | (if ?b then None else _) = Some _ => destruct b; [discriminate|]
         end.
  unfold getMessage in H. cbn [messages] in H.
  rewrite find_app_fresh in H; [| exact Hfresh | cbn; apply String.eqb_refl].
  cbn in H. injection H as <- <-. cbn. repeat split; reflexivity.
Qed.



Lemma touchConversation_status (cid : string) (now : Z) (c : Conversation) :
  cv_status (touchConversation cid now c) = cv_status c.
Proof. unfold touchConversation. now destruct (String.eqb _ _). Qed.

Lemma find_map_update {A} (f : A -> bool) (g : A -> A) (l : list A) :
  (forall x, f (g x) = f x) ->
  find f (map g l) = option_map g (find f l).
Proof.
  intros Hf. induction l as [|x l IH]; cbn; [reflexivity|].
  rewrite Hf. destruct (f x); [reflexivity | exact IH].
Qed.

(** Reading a message back after [updateMessageStatus]. *)
Lemma getMessage_updateMessageStatus (db : Db) (mid mid' : string)
    (st : MessageStatus) (now : Z) :
  getMessage (updateMessageStatus db mid st now) mid'
  = option_map (fun m => if String.eqb (m_id m) mid then withStatus m st now else m)
               (getMessage db mid').
Proof.
  unfold getMessage, updateMessageStatus. cbn [messages].
  rewrite find_map_update.
  - destruct (find _ _); reflexivity.
  - intros x. now destruct (String.eqb (m_id x) mid).
Qed.

Lemma getMessage_id (db : Db) (mid : string) (m : Message) :
  getMessage db mid = Some m -> m_id m = mid.
Proof.
  unfold getMessage. intros H. apply find_some in H as [_ H].
  now apply String.eqb_eq.
Qed.

Lemma getMessage_updated (db : Db) (mid : string) (st : MessageStatus)
    (now : Z) (m : Message) :
  getMessage db mid = Some m ->
  getMessage (updateMessageStatus db mid st now) mid = Some (withStatus m st now).
Proof.
  intros H. rewrite getMessage_updateMessageStatus, H. cbn.
  apply getMessage_id in H. rewrite H, String.eqb_refl. reflexivity.
Qed.

Lemma getMessage_app_new (db db' : Db) (m : Message) :
  messages db' = messages db ++ [m] ->
  messageExists db (m_id m) = false ->
  getMessage db' (m_id m) = Some m.
Proof.
  intros Hm Hfresh. unfold getMessage. rewrite Hm.
  apply find_app_fresh; [exact Hfresh | apply String.eqb_refl].
Qed.

End StoreFacts.

(** ** The dispatcher *)

Module DispatcherFacts.

Import JsString Agents Store Registry Dispatcher QueueFacts StoreFacts.

Lemma finish_Some (db db' : Db) (opts : SendMessageOpts)
    (res r : SendMessageResult) :
  finish db opts res = Some (db', r) ->
  db' = db
  /\ r_message r = r_message res
  /\ r_conversation r = r_conversation res
  /\ r_selectedAgent r = r_selectedAgent res.
Proof.
  unfold finish. intros H.
  destruct (_ && _); [destruct (waitForResponse _ _ _)|];
    injection H as <- <-; cbn; repeat split; reflexivity.
Qed.

Section WithEnvironment.

Variable toLowerCase : string -> string.
Variable codexSend : string -> string -> AgentPersona -> option CodexCallResult.
Variable invokeCodexExec : Message -> string -> Z -> bool -> InvocationResult.

Abbreviation send := (sendMessage toLowerCase codexSend invokeCodexExec).

(** The three routes of a [sendMessage] call that returns. *)
Lemma sendMessage_routes (registry : option ClientRegistry) (enabled : bool)
    (db db' : Db) (opts : SendMessageOpts) (convId msgId respId : string)
    (now : Z) (r : SendMessageResult) :
  send registry enabled db opts convId msgId respId now = Some (db', r) ->
  exists db1 conv db2 msg,
    resolveConversation db opts convId now = Some (db1, conv)
    /\ createMessage db1 (messageInput opts conv) msgId now = Some (db2, msg)
    /\ r_message r = msg
    /\ r_conversation r = conv
    /\ ((targetOnline registry (target opts) = true
         /\ db' = updateMessageStatus db2 (m_id msg) delivered now)
        \/ (targetOnline registry (target opts) = false
            /\ target opts = codex
            /\ r_selectedAgent r
               = Some (name (selectPersona toLowerCase (agent opts) (content opts)))
            /\ (db' = db2
                \/ exists db3 resp text,
                     createMessage db2 (answerInput opts conv msg text) respId now
                     = Some (db3, resp)
                     /\ db' = updateMessageStatus db3 (m_id msg) responded now))
        \/ (targetOnline registry (target opts) = false
            /\ target opts <> codex
            /\ exists row,
                 enqueueMessage db2 (queueInput opts msg) now = Some (db', row))).
Proof.
  unfold sendMessage. intros H.
  change (match conversationId opts with
          | Some cid => _
          | None => _
          end) with (resolveConversation db opts convId now) in H.
  destruct (resolveConversation db opts convId now) as [[db1 conv]|] eqn:Hres;
    [|discriminate].
  cbn [mbind option_bind] in H.
  change (createMessage db1 _ msgId now)
    with (createMessage db1 (messageInput opts conv) msgId now) in H.
  destruct (createMessage db1 (messageInput opts conv) msgId now)
    as [[db2 msg]|] eqn:Hmsg; [|discriminate].
  cbn [mbind option_bind] in H.
  change (match registry with Some r => isOnline r (target opts) | None => false end)
    with (targetOnline registry (target opts)) in H.
  exists db1, conv, db2, msg.
  split; [reflexivity|]. split; [exact Hmsg|].
  destruct (targetOnline registry (target opts)) eqn:Hon.
  - apply finish_Some in H as (-> & -> & -> & _). cbn.
    do 2 (split; [reflexivity|]). left. split; reflexivity.
  - destruct (bool_decide (target opts = codex)) eqn:Hcodex.
    + apply bool_decide_eq_true in Hcodex.
      destruct (tryCodexMcpServer _ _ _ _ _ _) as [mcpResult|].
      * destruct (createMessage db2 _ respId now) as [[db3 resp]|] eqn:Hans;
          [|discriminate].
        cbn [mbind option_bind] in H.
        apply finish_Some in H as (-> & -> & -> & ->). cbn.
        do 2 (split; [reflexivity|]). right. left.
        do 3 (split; [easy|]). right. exists db3, resp, mcpResult.
        split; [first [exact Hans | reflexivity] | reflexivity].
      * destruct (from_option truthy false _) eqn:Hhas.
        -- destruct (createMessage db2 _ respId now) as [[db3 resp]|] eqn:Hans;
             [|discriminate].
           cbn [mbind option_bind] in H.
           apply finish_Some in H as (-> & -> & -> & ->). cbn.
           do 2 (split; [reflexivity|]). right. left.
           do 3 (split; [easy|]). right.
           eexists db3, resp, _. split; [first [exact Hans | reflexivity] | reflexivity].
        -- cbn [mbind option_bind] in H.
           apply finish_Some in H as (-> & -> & -> & ->). cbn.
           do 2 (split; [reflexivity|]). right. left.
           do 3 (split; [easy|]). now left.
    + apply bool_decide_eq_false in Hcodex.
      destruct (enqueueMessage db2 _ now) as [[db3 row]|] eqn:Henq;
        [|discriminate].
      cbn [mbind option_bind] in H.
      apply finish_Some in H as (-> & -> & -> & _). cbn.
      do 2 (split; [reflexivity|]). right. right.
      do 2 (split; [easy|]). exists row. first [exact Henq | reflexivity].
Qed.

Lemma messageExists_In (db : Db) (m : Message) :
  In m (messages db) -> messageExists db (m_id m) = true.
Proof.
  intros Hin. apply existsb_exists. exists m. split; [exact Hin|].
  apply String.eqb_refl.
Qed.

Lemma messageExists_messages (db db' : Db) (mid : string) :
  messages db' = messages db -> messageExists db' mid = messageExists db mid.
Proof. unfold messageExists. now intros ->. Qed.

Lemma newMessagesIn_same (db db' : Db) (cid : string) :
  messages db' = messages db -> newMessagesIn db db' cid.
Proof.
  intros Heq m Hin Hfresh. rewrite Heq in Hin.
  apply messageExists_In in Hin. congruence.
Qed.

Lemma newMessagesIn_create (db0 db db' : Db) (input : CreateMessageInput)
    (newId : string) (now : Z) (m : Message) :
  newMessagesIn db0 db (cmi_conversation_id input) ->
  createMessage db input newId now = Some (db', m) ->
  newMessagesIn db0 db' (cmi_conversation_id input).
Proof.
  intros Hold Hc. apply createMessage_Some in Hc as (-> & Hm & _).
  intros x Hin Hfresh. rewrite Hm in Hin. apply in_app_or in Hin as [Hin|[<-|[]]].
  - now apply Hold.
  - reflexivity.
Qed.

Lemma newMessagesIn_update (db0 db : Db) (cid mid : string)
    (st : MessageStatus) (now : Z) :
  newMessagesIn db0 db cid ->
  newMessagesIn db0 (updateMessageStatus db mid st now) cid.
Proof.
  intros Hold x Hin Hfresh. unfold updateMessageStatus in Hin. cbn in Hin.
  apply in_map_iff in Hin as (y & <- & Hy).
  destruct (String.eqb (m_id y) mid); cbn in *; now apply Hold.
Qed.

Lemma createConversation_Some (db db' : Db) (input : CreateConversationInput)
    (newId : string) (now : Z) (c : Conversation) :
  createConversation db input newId now = Some (db', c) ->
  conversationExists db newId = false
  /\ cv_id c = newId /\ cv_status c = active
  /\ conversations db' = conversations db ++ [c]
  /\ messages db' = messages db
  /\ message_queue db' = message_queue db
  /\ clients db' = clients db.
Proof.
  unfold createConversation, conversationExists. intros H.
  destruct (existsb _ _) eqn:Hfresh; [discriminate|].
  destruct (negb _); [discriminate|].
  unfold getConversation in H. cbn [conversations] in H.
  rewrite find_app_fresh in H; [| exact Hfresh | cbn; apply String.eqb_refl].
  cbn in H. injection H as <- <-. cbn. repeat split; reflexivity.
Qed.

(** The conversation a call resolves to: one that is stored under the
    given id, whatever its status, or a new, active one. *)
Lemma resolveConversation_Some (db db1 : Db) (opts : SendMessageOpts)
    (convId : string) (now : Z) (conv : Conversation) :
  resolveConversation db opts convId now = Some (db1, conv) ->
  messages db1 = messages db
  /\ message_queue db1 = message_queue db
  /\ ((exists c, conversationId opts = Some c /\ truthy c = true
                 /\ getConversation db c = Some conv /\ db1 = db)
      \/ ((conversationId opts = None \/ conversationId opts = Some EmptyString)
          /\ conversationExists db convId = false
          /\ cv_id conv = convId /\ cv_status conv = active
          /\ conversations db1 = conversations db ++ [conv])).
Proof.
  unfold resolveConversation. intros H.
  destruct (conversationId opts) as [c|] eqn:Hc.
  - destruct (truthy c) eqn:Ht.
    + destruct (getConversation db c) as [existing|] eqn:Hg; [|discriminate].
      cbn in H. injection H as <- <-.
      do 2 (split; [reflexivity|]). left. exists c. auto.
    + apply createConversation_Some in H as (Hf & Hid & Hst & Hcs & Hm & Hq & _).
      do 2 (split; [assumption|]). right.
      split; [|auto]. right. f_equal.
      unfold truthy in Ht. apply negb_false_iff in Ht. now apply String.eqb_eq.
  - apply createConversation_Some in H as (Hf & Hid & Hst & Hcs & Hm & Hq & _).
    do 2 (split; [assumption|]). right. auto.
Qed.




Lemma existsb_app_last {A} (f : A -> bool) (l : list A) (x : A) :
  existsb f (l ++ [x]) = existsb f l || f x.
Proof. rewrite existsb_app. cbn. now rewrite orb_false_r. Qed.



(** C5.  When [sendMessage] is dispatched with the target offline and
    the target is claude, exactly one queue row is inserted, for the
    message just created, with priority urgent=2, high=1, normal=0,
    [attempts = 0] and [max_attempts = 5]; the message stays [pending]. *)
Theorem offline_claude_is_enqueued (registry : option ClientRegistry)
    (enabled : bool) (db db' : Db) (opts : SendMessageOpts)
    (convId msgId respId : string) (now : Z) (r : SendMessageResult) :
  send registry enabled db opts convId msgId respId now = Some (db', r) ->
  targetOnline registry (target opts) = false ->
  target opts = claude ->
  exists row,
    message_queue db' = message_queue db ++ [row]
    /\ q_message_id row = m_id (r_message r)
    /\ q_target row = claude
    /\ q_priority row
       = match default normal (priority opts) with
         | urgent => 2%Z | high => 1%Z | normal => 0%Z
         end
    /\ q_attempts row = 0%nat
    /\ q_max_attempts row = 5%Z
    /\ exists m, getMessage db' (m_id (r_message r)) = Some m
                 /\ m_status m = pending.
Proof.
  intros Hsend Hoff Hclaude.
  apply sendMessage_routes in Hsend
    as (db1 & conv & db2 & msg & Hres & Hmsg & -> & _ & Hroute).
  destruct Hroute as [[Hon _]|[(_ & Hcodex & _)|(_ & _ & row & Henq)]];
    [congruence | congruence |].
  apply resolveConversation_Some in Hres as (Hm1 & Hq1 & _).
  pose proof Hmsg as Hnew.
  apply createMessage_Some in Hnew as (Hrow & Hm2 & _ & Hq2 & _ & _ & Hfresh).
  apply enqueueMessage_Some in Henq as (Hqrow & Hq3 & Hm3 & _).
  exists row. split; [now rewrite Hq3, Hq2, Hq1|].
  rewrite Hqrow. cbn. rewrite Hclaude.
  do 5 (split; [reflexivity|]).
  exists msg. split.
  - assert (m_id msg = msgId) as Hid by now rewrite Hrow.
    unfold getMessage. rewrite Hm3. apply (getMessage_app_new db1 db2 msg Hm2).
    now rewrite Hid.
  - now rewrite Hrow.
Qed.

(** C4, as the code has it.  A [sendMessage] call that returns has put
    its message, and any answer it created, into a conversation that is
    in the store: either the one stored under the given
    [conversation_id], whose status is not looked at, or one the call
    created itself, which is active. *)
Theorem sendMessage_conversation_is_stored (registry : option ClientRegistry)
    (enabled : bool) (db db' : Db) (opts : SendMessageOpts)
    (convId msgId respId : string) (now : Z) (r : SendMessageResult) :
  send registry enabled db opts convId msgId respId now = Some (db', r) ->
  m_conversation_id (r_message r) = cv_id (r_conversation r)
  /\ ((exists c, conversationId opts = Some c /\ truthy c = true
                 /\ getConversation db c = Some (r_conversation r))
      \/ ((conversationId opts = None \/ conversationId opts = Some EmptyString)
          /\ conversationExists db convId = false
          /\ cv_id (r_conversation r) = convId
          /\ cv_status (r_conversation r) = active))
  /\ newMessagesIn db db' (cv_id (r_conversation r)).
Proof.
  intros Hsend.
  apply sendMessage_routes in Hsend
    as (db1 & conv & db2 & msg & Hres & Hmsg & -> & -> & Hroute).
  apply resolveConversation_Some in Hres as (Hm1 & Hq1 & Hconv).
  pose proof (newMessagesIn_create db db1 db2 (messageInput opts conv) msgId now
                msg (newMessagesIn_same db db1 _ Hm1) Hmsg) as Hnew2.
  cbn [messageInput cmi_conversation_id] in Hnew2.
  split; [|split].
  - apply createMessage_Some in Hmsg as (-> & _). reflexivity.
  - destruct Hconv as [(c & Hc & Ht & Hg & _)|(Hc & Hf & Hid & Hst & _)].
    + left. exists c. auto.
    + right. auto.
  - destruct Hroute as [[_ ->]|[(_ & _ & _ & [->|(db3 & resp & text & Hans & ->)])
                               |(_ & _ & row & Henq)]].
    + now apply newMessagesIn_update.
    + exact Hnew2.
    + apply newMessagesIn_update.
      apply (newMessagesIn_create db db2 db3 (answerInput opts conv msg text)
               respId now resp Hnew2 Hans).
    + apply enqueueMessage_Some in Henq as (_ & _ & Hm3 & _).
      intros m Hin. rewrite Hm3 in Hin. now apply Hnew2.
Qed.

(** The fields [finish] does not touch, and an answer handed in. *)
Lemma finish_keeps (db db' : Db) (opts : SendMessageOpts)
    (res r : SendMessageResult) :
  finish db opts res = Some (db', r) ->
  r_invoked r = r_invoked res
  /\ r_invokedViaMcp r = r_invokedViaMcp res
  /\ forall answer, r_response res = Some answer -> r_response r = Some answer.
Proof.
  unfold finish. intros H.
  destruct (r_response res) as [given|] eqn:Hgiven.
  - rewrite andb_false_r in H. injection H as <- <-.
    do 2 (split; [reflexivity|]). intros answer Heq. congruence.
  - destruct (_ && _); [destruct (waitForResponse _ _ _)|];
      injection H as <- <-; cbn; (do 2 (split; [reflexivity|])); discriminate.
Qed.

(** The peer is asked about the persona it is handed, and no other. *)
Lemma tryCodexMcpServer_at_persona
    (codexSend' : string -> string -> AgentPersona -> option CodexCallResult)
    (enabled : bool) (text context messageId : string) (persona : AgentPersona) :
  (forall prompt mid, codexSend' prompt mid persona = codexSend prompt mid persona) ->
  tryCodexMcpServer codexSend' enabled text context messageId persona
  = tryCodexMcpServer codexSend enabled text context messageId persona.
Proof. intros Hsame. unfold tryCodexMcpServer. now rewrite Hsame. Qed.

(** C9.  In the tiered invocation for an offline codex the persona is
    [selectPersona]: for an explicitly given [agent] it is that agent's
    persona, ARCHITECT for architect and ORACLE for oracle; with none
    given it is ORACLE exactly when one of the eleven triggers occurs as
    a substring of the lowercased content, and ARCHITECT exactly when
    none does.  That persona is the one handed to the persistent peer,
    whose answer, if it gives one, becomes the response; the call reads
    the peer at no other persona; and the persona's name is reported as
    [selectedAgent]. *)
Theorem offline_codex_persona_selection (registry : option ClientRegistry)
    (enabled : bool) (db db' : Db) (opts : SendMessageOpts)
    (convId msgId respId : string) (now : Z) (r : SendMessageResult) :
  send registry enabled db opts convId msgId respId now = Some (db', r) ->
  targetOnline registry (target opts) = false ->
  target opts = codex ->
  let persona := selectPersona toLowerCase (agent opts) (content opts) in
  oracleTriggers
  = ["why"; "debug"; "investigate"; "root cause"; "understand"; "explain";
     "failing"; "broken"; "not working"; "error"; "bug"]%string
  /\ (forall a, agent opts = Some a ->
        r_selectedAgent r = Some (name (AGENT_PERSONAS a)))
  /\ (agent opts = None ->
      (r_selectedAgent r = Some (name ORACLE)
       <-> exists t, In t oracleTriggers
                     /\ isSubstring t (toLowerCase (content opts)))
      /\ (r_selectedAgent r = Some (name ARCHITECT)
          <-> ~ exists t, In t oracleTriggers
                          /\ isSubstring t (toLowerCase (content opts))))
  /\ (forall a, agent opts = Some a ->
        persona = match a with architect => ARCHITECT | oracle => ORACLE end
        /\ r_selectedAgent r
           = Some match a with
                  | architect => "architect"
                  | oracle => "oracle"
                  end%string)
  /\ (agent opts = None ->
      (persona = ORACLE
       <-> exists t, In t oracleTriggers
                     /\ isSubstring t (toLowerCase (content opts)))
      /\ (persona = ARCHITECT
          <-> ~ exists t, In t oracleTriggers
                          /\ isSubstring t (toLowerCase (content opts))))
  /\ r_selectedAgent r = Some (name persona)
  /\ (exists db1 db2,
        resolveConversation db opts convId now = Some (db1, r_conversation r)
        /\ createMessage db1 (messageInput opts (r_conversation r)) msgId now
           = Some (db2, r_message r)
        /\ match
             tryCodexMcpServer codexSend enabled (content opts)
               (buildConversationContext db2 (cv_id (r_conversation r)))
               (m_id (r_message r)) persona
           with
           | Some text =>
               r_invokedViaMcp r = Some true
               /\ exists answer,
                    r_response r = Some answer /\ m_content answer = text
           | None => r_invokedViaMcp r = None
           end)
  /\ (forall codexSend',
        (forall prompt mid,
           codexSend' prompt mid persona = codexSend prompt mid persona) ->
        sendMessage toLowerCase codexSend' invokeCodexExec registry enabled db
                    opts convId msgId respId now
        = Some (db', r)).
Proof.
  intros Hsend Hoff Hcodex persona.
  assert (r_selectedAgent r = Some (name persona)) as Hsel.
  { pose proof Hsend as Hroutes.
    apply sendMessage_routes in Hroutes
      as (db1 & conv & db2 & msg & _ & _ & _ & _ & Hroute).
    destruct Hroute as [[Hon _]|[(_ & _ & Hsel & _)|(_ & Hne & _)]];
      [congruence | exact Hsel | congruence]. }
  assert (agent opts = None ->
          (persona = ORACLE
           <-> exists t, In t oracleTriggers
                         /\ isSubstring t (toLowerCase (content opts)))
          /\ (persona = ARCHITECT
              <-> ~ exists t, In t oracleTriggers
                              /\ isSubstring t (toLowerCase (content opts))))
    as Hauto.
  { intros Hnone. unfold persona. rewrite Hnone. cbn [selectPersona]. split.
    - apply AgentsFacts.selectAgent_oracle.
    - apply AgentsFacts.selectAgent_architect. }
  split; [reflexivity|]. split; [|split; [|split; [|split; [|split; [|split]]]]].
  - intros a Ha. rewrite Hsel. unfold persona. rewrite Ha. reflexivity.
  - intros Hnone. destruct (Hauto Hnone) as [Ho Ha]. rewrite Hsel. split.
    + rewrite <- Ho. unfold persona. rewrite Hnone. cbn [selectPersona].
      unfold selectAgent.
      destruct (firstTrigger _ _); cbn; split;
        try reflexivity; try discriminate; intros H; now inversion H.
    + rewrite <- Ha. unfold persona. rewrite Hnone. cbn [selectPersona].
      unfold selectAgent.
      destruct (firstTrigger _ _); cbn; split;
        try reflexivity; try discriminate; intros H; now inversion H.
  - intros a Ha. rewrite Hsel. unfold persona. rewrite Ha.
    destruct a; split; reflexivity.
  - exact Hauto.
  - exact Hsel.
  - unfold sendMessage in Hsend.
    change (match conversationId opts with
            | Some cid => _
            | None => _
            end) with (resolveConversation db opts convId now) in Hsend.
    destruct (resolveConversation db opts convId now) as [[db1 conv]|] eqn:Hres;
      [|discriminate].
    cbn [mbind option_bind] in Hsend.
    change (createMessage db1 _ msgId now)
      with (createMessage db1 (messageInput opts conv) msgId now) in Hsend.
    destruct (createMessage db1 (messageInput opts conv) msgId now)
      as [[db2 msg]|] eqn:Hmsg; [|discriminate].
    cbn [mbind option_bind] in Hsend.
    change (match registry with Some r => isOnline r (target opts) | None => false end)
      with (targetOnline registry (target opts)) in Hsend.
    rewrite Hoff in Hsend.
    destruct (bool_decide (target opts = codex)) eqn:Hroute;
      [|apply bool_decide_eq_false in Hroute; congruence].
    fold persona in Hsend.
    destruct (tryCodexMcpServer codexSend enabled (content opts)
                (buildConversationContext db2 (cv_id conv)) (m_id msg) persona)
      as [mcpResult|] eqn:Hpeer.
    + change (createMessage db2 _ respId now)
        with (createMessage db2 (answerInput opts conv msg mcpResult) respId now)
        in Hsend.
      destruct (createMessage db2 _ respId now) as [[db3 answer]|] eqn:Hans;
        [|discriminate].
      cbn [mbind option_bind] in Hsend.
      pose proof (finish_Some _ _ _ _ _ Hsend) as (_ & Hrm & Hrc & _).
      pose proof (finish_keeps _ _ _ _ _ Hsend) as (_ & Hvia & Hresp).
      cbn [r_message r_conversation r_invokedViaMcp r_response] in *.
      exists db1, db2. rewrite Hrm, Hrc. split; [reflexivity|].
      split; [exact Hmsg|]. rewrite Hpeer. split; [exact Hvia|].
      exists answer. split; [now apply Hresp|].
      apply createMessage_Some in Hans as (-> & _). reflexivity.
    + destruct (from_option truthy false _).
      * destruct (createMessage db2 _ respId now) as [[db3 answer]|];
          [|discriminate].
        cbn [mbind option_bind] in Hsend.
        pose proof (finish_Some _ _ _ _ _ Hsend) as (_ & Hrm & Hrc & _).
        pose proof (finish_keeps _ _ _ _ _ Hsend) as (_ & Hvia & _).
        cbn [r_message r_conversation r_invokedViaMcp] in *.
        exists db1, db2. rewrite Hrm, Hrc. split; [reflexivity|].
        split; [exact Hmsg|]. rewrite Hpeer. exact Hvia.
      * cbn [mbind option_bind] in Hsend.
        pose proof (finish_Some _ _ _ _ _ Hsend) as (_ & Hrm & Hrc & _).
        pose proof (finish_keeps _ _ _ _ _ Hsend) as (_ & Hvia & _).
        cbn [r_message r_conversation r_invokedViaMcp] in *.
        exists db1, db2. rewrite Hrm, Hrc. split; [reflexivity|].
        split; [exact Hmsg|]. rewrite Hpeer. exact Hvia.
  - intros codexSend' Hsame. rewrite <- Hsend. unfold sendMessage.
    change (match conversationId opts with
            | Some cid => _
            | None => _
            end) with (resolveConversation db opts convId now).
    destruct (resolveConversation db opts convId now) as [[db1 conv]|];
      [|reflexivity].
    cbn [mbind option_bind].
    destruct (createMessage db1 _ msgId now) as [[db2 msg]|]; [|reflexivity].
    cbn [mbind option_bind].
    destruct (match registry with Some r => isOnline r (target opts) | None => false end);
      [reflexivity|].
    destruct (bool_decide (target opts = codex)); [|reflexivity].
    fold persona.
    now rewrite (tryCodexMcpServer_at_persona codexSend' enabled (content opts)
                   (buildConversationContext db2 (cv_id conv)) (m_id msg) persona
                   Hsame).
Qed.

End WithEnvironment.

End DispatcherFacts.

(** ** Message status *)

Module StatusFacts.

Import Store StoreFacts Tools QueueProcessor.

(** A successful [mark_message_read] comes from the message's target,
    and is the status write [read]. *)
Lemma mark_message_read_success (db db' : Db) (caller : option ClientId)
    (mid : string) (now : Z) (res : ToolResult) :
  mark_message_read db caller mid now = (db', res) ->
  isSuccess res = true ->
  exists m, getMessage db mid = Some m
            /\ caller = Some (m_target m)
            /\ db' = updateMessageStatus db mid read now
            /\ res = MarkedRead mid read.
Proof.
  unfold mark_message_read. intros H Hok.
  destruct caller as [c|]; [|injection H as <- <-; discriminate].
  destruct (getMessage db mid) as [m|]; [|injection H as <- <-; discriminate].
  destruct (bool_decide (m_target m = c)) eqn:Ht; cbn in H;
    injection H as <- <-; [|discriminate].
  apply bool_decide_eq_true in Ht. subst c. exists m. auto.
Qed.

(** Any other caller gets an error and leaves the store as it was. *)
Lemma mark_message_read_refused (db : Db) (caller : option ClientId)
    (mid : string) (now : Z) (m : Message) :
  getMessage db mid = Some m ->
  caller <> Some (m_target m) ->
  (mark_message_read db caller mid now).1 = db
  /\ isSuccess (mark_message_read db caller mid now).2 = false.
Proof.
  unfold mark_message_read. intros Hm Hne.
  destruct caller as [c|]; [|split; reflexivity].
  rewrite Hm. destruct (bool_decide (m_target m = c)) eqn:Ht; cbn.
  - apply bool_decide_eq_true in Ht. congruence.
  - split; reflexivity.
Qed.

(** C3, as the code has it.  A status write replaces the status of the
    message by the one written, whatever it was: the write [responded]
    never moves a status backwards, the write [read] of
    [mark_message_read] moves it backwards exactly when the message is
    already [responded], and the write [delivered] of delivery marking
    exactly when it is already [read] or [responded].
    [mark_message_read] succeeds only when the caller is the message's
    target, and is then the write [read]. *)
Theorem status_writes_replace (db : Db) (mid : string) (now : Z) (m : Message) :
  getMessage db mid = Some m ->
  (forall st, exists m',
      getMessage (updateMessageStatus db mid st now) mid = Some m'
      /\ m_status m' = st)
  /\ (statusRank (m_status m) <= statusRank responded)
  /\ (statusRank read < statusRank (m_status m) <-> m_status m = responded)
  /\ (statusRank delivered < statusRank (m_status m)
      <-> m_status m = read \/ m_status m = responded)
  /\ (forall caller db' res,
        mark_message_read db caller mid now = (db', res) ->
        isSuccess res = true ->
        caller = Some (m_target m)
        /\ db' = updateMessageStatus db mid read now)
  /\ (forall caller, caller <> Some (m_target m) ->
        (mark_message_read db caller mid now).1 = db).
Proof.
  intros Hm. split; [|split; [|split; [|split; [|split]]]].
  - intros st. exists (withStatus m st now). split; [|reflexivity].
    now apply getMessage_updated.
  - destruct (m_status m); cbn; lia.
  - destruct (m_status m); cbn; split; intros H;
      try lia; try discriminate; reflexivity.
  - destruct (m_status m); cbn; split; intros H; try lia; auto;
      destruct H; discriminate.
  - intros caller db' res Hr Hok.
    apply mark_message_read_success in Hr as (m0 & Hm0 & Hc & Hdb & _);
      [|exact Hok].
    rewrite Hm in Hm0. injection Hm0 as <-. auto.
  - intros caller Hne. now apply (mark_message_read_refused db caller mid now m).
Qed.

(** The queue processor's delivery marking is the write [delivered]
    on the queued message. *)
Lemma attemptDelivery_delivered (db db' : Db) (target : ClientId)
    (item : QueuedMessage) (now : Z) :
  attemptDelivery db target item now = (db', Delivered) ->
  messages db'
  = messages (updateMessageStatus db (q_message_id item) delivered now).
Proof.
  unfold attemptDelivery. intros H.
  destruct (getMessage db (q_message_id item)) as [m|] eqn:Hm; [|congruence].
  destruct (negb (isClientOnline db target)); [congruence|].
  injection H as <-. apply getMessage_id in Hm. rewrite Hm. reflexivity.
Qed.

End StatusFacts.

(** ** The queue processor's view of who is online *)

Module DrainFacts.

Import Store Registry QueueProcessor Dispatcher Scenarios.

Lemma processQueueForTarget_offline (db : Db) (target : ClientId) (now : Z) :
  isClientOnline db target = false ->
  processQueueForTarget db target now = (db, []).
Proof. unfold processQueueForTarget. now intros ->. Qed.

Lemma processQueueForTarget_online (db : Db) (target : ClientId) (now : Z) :
  isClientOnline db target = true ->
  processQueueForTarget db target now
  = deliverAll db target (dequeueMessages db target 10 now) now.
Proof. unfold processQueueForTarget. now intros ->. Qed.

(** With the [clients] row saying online, a due entry whose message
    exists is delivered, whoever is in the registry. *)
Lemma attemptDelivery_online (db : Db) (target : ClientId)
    (item : QueuedMessage) (now : Z) (m : Message) :
  isClientOnline db target = true ->
  getMessage db (q_message_id item) = Some m ->
  attemptDelivery db target item now
  = ((removeFromQueue (updateMessageStatus db (m_id m) delivered now)
                      (q_message_id item)).1, Delivered).
Proof. unfold attemptDelivery. now intros -> ->. Qed.

(** C2 at the stale row.  Claude's [clients] row still says online from
    the killed process while the registry of the running one has no
    session for claude.  The dispatcher, reading the registry, queues
    codex's message; the drain, reading the row, takes the entry and
    marks the message delivered. *)
Theorem drain_follows_clients_row_not_registry :
  isOnline afterRestart.1 claude = false
  /\ isClientOnline afterRestart.2 claude = true
  /\ exists db1 r row db2,
       sentToAbsentClaude = Some (db1, r)
       /\ message_queue db1 = [row]
       /\ q_target row = claude
       /\ q_message_id row = "msg-1"
       /\ dequeueMessages db1 claude 10 6000 = [row]
       /\ processQueueForTarget db1 claude 6000 = (db2, [Delivered])
       /\ message_queue db2 = []
       /\ option_map m_status (getMessage db2 "msg-1") = Some delivered.
Proof.
  split; [vm_compute; reflexivity|]. split; [vm_compute; reflexivity|].
  do 4 eexists. split; [vm_compute; reflexivity|].
  repeat split; vm_compute; reflexivity.
Qed.

End DrainFacts.

(** ** Reading the subprocess peer's result *)

Module CodexMcpFacts.

Import JsString CodexMcp.

(** Whatever [JSON.parse] would make of it, the text of the first text
    item is what [extractResponse] returns. *)
Lemma extractResponse_text_item (JSON_parse : string -> option JSON)
    (r : CallToolResult) (items : list ContentItem) (item : ContentItem)
    (text : string) :
  content r = Some items ->
  find isTextItem items = Some item ->
  ci_text item = Some text ->
  extractResponse JSON_parse r = Some (JString text).
Proof.
  unfold extractResponse. intros -> -> ->. reflexivity.
Qed.

(** The parse of the first item's text is only reached when no item is
    a text item. *)
Lemma extractResponse_parses_only_without_text_item
    (JSON_parse : string -> option JSON) (r : CallToolResult)
    (items : list ContentItem) :
  content r = Some items ->
  find isTextItem items = None ->
  toolResult r = None ->
  extractResponse JSON_parse r = parseFirstItem JSON_parse r.
Proof.
  unfold extractResponse. intros -> -> ->. reflexivity.
Qed.

(** C8 at a wrapped answer.  The result's only content item is a text
    item whose text is [{"response":"hello"}].  [extractResponse]
    returns that text as it is; the value of its [response] field,
    which the specification asks for, is [hello]. *)
Theorem extractResponse_keeps_json_text :
  parseOnly wrappedText wrappedValue wrappedText = Some wrappedValue
  /\ extractResponse (parseOnly wrappedText wrappedValue) wrappedResult
     = Some (JString wrappedText)
  /\ spec_extractResponse (parseOnly wrappedText wrappedValue) wrappedResult
     = Some (JString "hello")
  /\ JString wrappedText <> JString "hello".
Proof.
  repeat split; try (vm_compute; reflexivity). discriminate.
Qed.

End CodexMcpFacts.

(** ** The event log *)

Module EventStoreFacts.

Import EventStore.

Section WithMessage.

Context {JSONRPCMessage : Type}.

Implicit Types (evs others : list (EventRecord JSONRPCMessage)).
Implicit Types (idx : gmap string nat).

Lemma indexed_shift (off off' : nat) evs idx :
  off = off' -> indexed off evs idx -> indexed off' evs idx.
Proof. now intros ->. Qed.

(** The expiry loop removes a prefix of [k] events from the buffer and
    their entries from the index, and leaves every other entry as it
    was: the survivors' entries are now [k] positions too high, and the
    index has as many entries as the buffer has events. *)
Lemma dropExpired_shifts (cutoff : Z) evs idx (off : nat) :
  indexed off evs idx ->
  exists k,
    (dropExpired cutoff evs idx).1 = drop k evs
    /\ indexed (k + off) (drop k evs) (dropExpired cutoff evs idx).2
    /\ Forall (fun ev => (ts ev < cutoff)%Z) (take k evs)
    /\ (forall ev, head (drop k evs) = Some ev -> (cutoff <= ts ev)%Z).
Proof.
  revert idx off. induction evs as [|ev rest IH]; intros idx off Hidx.
  - exists 0%nat. cbn. repeat split; try apply Hidx; try constructor.
    intros ev [=].
  - cbn [dropExpired]. destruct (ts ev <? cutoff)%Z eqn:Hts.
    + destruct Hidx as (Hnd & Hsize & Hpos).
      rewrite fmap_cons in Hnd. apply NoDup_cons in Hnd as [Hfresh Hnd].
      assert (indexed (S off) rest (delete (id ev) idx)) as Hrest.
      { split; [exact Hnd|]. split.
        - rewrite (map_size_delete_Some (id ev) idx).
          + rewrite Hsize. reflexivity.
          + exists (0 + off)%nat. now apply (Hpos 0%nat ev).
        - intros i e He.
          rewrite lookup_delete_ne.
          + rewrite (Hpos (S i) e He). f_equal. lia.
          + intros Heq. apply Hfresh. rewrite Heq.
            apply list_elem_of_fmap. exists e. split; [reflexivity|].
            eapply list_elem_of_lookup_2. exact He. }
      destruct (IH _ _ Hrest) as (k & Hdrop & Hind & Hexp & Hhead).
      exists (S k). cbn [drop take]. split; [exact Hdrop|].
      split; [|split].
      * eapply indexed_shift; [|exact Hind]. lia.
      * constructor; [now apply Z.ltb_lt | exact Hexp].
      * exact Hhead.
    + exists 0%nat. cbn. split; [reflexivity|]. split; [exact Hidx|].
      split; [constructor|]. intros e [= <-]. now apply Z.ltb_ge.
Qed.

(** Setting positions from [i] on. *)
Lemma setPositions_lookup evs (i : nat) idx (j : nat) ev :
  NoDup (id <$> evs) ->
  evs !! j = Some ev ->
  setPositions evs i idx !! id ev = Some (i + j)%nat.
Proof.
  revert i idx j. induction evs as [|e rest IH]; intros i idx j Hnd Hj.
  - discriminate.
  - rewrite fmap_cons in Hnd. apply NoDup_cons in Hnd as [Hfresh Hnd].
    destruct j as [|j]; cbn in Hj.
    + injection Hj as ->. cbn [setPositions].
      assert (forall others k m, id ev ∉ id <$> others ->
                m !! id ev = Some (i + 0)%nat ->
                setPositions others k m !! id ev = Some (i + 0)%nat) as Hkeep.
      { induction others as [|x l IHl]; intros k m Hx Hm; [exact Hm|].
        cbn [setPositions]. rewrite fmap_cons in Hx.
        apply not_elem_of_cons in Hx as [Hne Hx].
        apply IHl; [exact Hx|]. now rewrite lookup_insert_ne. }
      apply Hkeep; [exact Hfresh|]. rewrite Nat.add_0_r. apply lookup_insert_eq.
    + cbn [setPositions]. rewrite (IH (S i) _ j Hnd Hj). f_equal. lia.
Qed.

(** A rebuilt index gives every event its position. *)
Lemma rebuildIndex_lookup evs (j : nat) ev :
  NoDup (id <$> evs) ->
  evs !! j = Some ev ->
  rebuildIndex evs !! id ev = Some j.
Proof. intros Hnd Hj. unfold rebuildIndex. now rewrite (setPositions_lookup evs 0 ∅ j ev). Qed.

(** Pruning when the cap is not exceeded: the size test that guards the
    rebuild compares two numbers that the expiry loop has kept equal, so
    no rebuild happens and the entries keep the positions the events had
    before [k] of them were dropped. *)
Lemma pruneState_ttl_only (ttl : Z) (cap : nat) (now : Z)
    (s : StreamState JSONRPCMessage) :
  indexed 0 (events s) (indexById s) ->
  exists k,
    Forall (fun ev => (ts ev < now - ttl)%Z) (take k (events s))
    /\ (forall ev, head (drop k (events s)) = Some ev -> (now - ttl <= ts ev)%Z)
    /\ ((length (drop k (events s)) <= cap)%nat ->
        events (pruneState ttl cap now s) = drop k (events s)
        /\ indexed k (events (pruneState ttl cap now s))
                     (indexById (pruneState ttl cap now s))).
Proof.
  intros Hidx.
  destruct (dropExpired_shifts (now - ttl) _ _ _ Hidx)
    as (k & Hdrop & Hind & Hexp & Hhead).
  exists k. split; [exact Hexp|]. split; [exact Hhead|]. intros Hcap.
  unfold pruneState.
  destruct (dropExpired (now - ttl) (events s) (indexById s)) as [evs1 idx1].
  cbn [fst snd] in Hdrop, Hind. subst evs1.
  rewrite Nat.add_0_r in Hind.
  destruct Hind as (Hnd & Hsize & Hpos).
  rewrite Hsize, Nat.eqb_refl. cbn [negb].
  apply Nat.ltb_ge in Hcap. rewrite Hcap. cbn [events indexById].
  split; [reflexivity|]. repeat split; assumption.
Qed.

(** Replay after a prune that only expired events: the anchor sits at
    position [i] of the pruned buffer, its entry still says [i + k], and
    the replay starts [k] events too late. *)
Lemma replay_after_expiry (st : InMemoryEventStore JSONRPCMessage)
    (lastEventId : string) (now : Z) (s : StreamState JSONRPCMessage) :
  lastEventId <> EmptyString ->
  parseStreamId lastEventId <> EmptyString ->
  streams st !! parseStreamId lastEventId = Some s ->
  indexed 0 (events s) (indexById s) ->
  exists k,
    Forall (fun ev => (ts ev < now - ttlMs st)%Z) (take k (events s))
    /\ (forall ev, head (drop k (events s)) = Some ev ->
          (now - ttlMs st <= ts ev)%Z)
    /\ ((length (drop k (events s)) <= maxEventsPerStream st)%nat ->
        forall i ev,
          drop k (events s) !! i = Some ev -> id ev = lastEventId ->
          (replayEventsAfter st lastEventId now).1.2
          = map (fun ev => (id ev, message ev))
                (drop (S (i + k)) (drop k (events s)))
          /\ (replayEventsAfter st lastEventId now).2
             = parseStreamId lastEventId).
Proof.
  intros Hne Hsid Hs Hidx.
  destruct (pruneState_ttl_only (ttlMs st) (maxEventsPerStream st) now s Hidx)
    as (k & Hexp & Hhead & Hprune).
  exists k. split; [exact Hexp|]. split; [exact Hhead|].
  intros Hcap i ev Hi Hid.
  destruct (Hprune Hcap) as (Hevs & _ & _ & Hpos).
  unfold replayEventsAfter.
  apply String.eqb_neq in Hne. apply String.eqb_neq in Hsid.
  rewrite Hne, Hsid, Hs.
  rewrite <- Hevs in Hi. pose proof (Hpos i ev Hi) as Hlook.
  rewrite Hid in Hlook. rewrite Hlook. cbn [fst snd]. rewrite Hevs.
  split; reflexivity.
Qed.

Lemma positionOf_lookup evs (i : nat) ev :
  NoDup (id <$> evs) -> evs !! i = Some ev -> positionOf (id ev) evs = Some i.
Proof.
  revert i. induction evs as [|e rest IH]; intros i Hnd Hi; [discriminate|].
  rewrite fmap_cons in Hnd. apply NoDup_cons in Hnd as [Hfresh Hnd].
  destruct i as [|i]; cbn in Hi.
  - injection Hi as ->. cbn. now rewrite String.eqb_refl.
  - cbn. destruct (String.eqb (id e) (id ev)) eqn:E.
    + apply String.eqb_eq in E. exfalso. apply Hfresh. rewrite E.
      apply list_elem_of_fmap. exists ev. split; [reflexivity|].
      eapply list_elem_of_lookup_2. exact Hi.
    + now rewrite (IH i Hnd Hi).
Qed.

(** X25.  As long as no buffered event has expired and the cap is
    not exceeded, a replay from a buffered event sends exactly the
    events after it, in order, and returns the stream id. *)
Lemma replay_without_expiry (st : InMemoryEventStore JSONRPCMessage)
    (lastEventId : string) (now : Z) (s : StreamState JSONRPCMessage)
    (i : nat) (ev : EventRecord JSONRPCMessage) :
  lastEventId <> EmptyString ->
  parseStreamId lastEventId <> EmptyString ->
  streams st !! parseStreamId lastEventId = Some s ->
  indexed 0 (events s) (indexById s) ->
  Forall (fun e => (now - ttlMs st <= ts e)%Z) (events s) ->
  (length (events s) <= maxEventsPerStream st)%nat ->
  events s !! i = Some ev -> id ev = lastEventId ->
  eventsAfter lastEventId (events s)
  = Some ((replayEventsAfter st lastEventId now).1.2)
  /\ (replayEventsAfter st lastEventId now).2 = parseStreamId lastEventId.
Proof.
  intros Hne Hsid Hs Hidx Hfresh Hcap Hi Hid.
  destruct (replay_after_expiry st lastEventId now s Hne Hsid Hs Hidx)
    as (k & Hexp & _ & Hreplay).
  assert (k = 0%nat) as ->.
  { destruct k as [|k]; [reflexivity|]. exfalso.
    destruct (events s) as [|e0 rest]; [discriminate|].
    cbn [take] in Hexp. apply Forall_cons in Hexp as [Hold _].
    apply Forall_cons in Hfresh as [Hnew _]. lia. }
  destruct (Hreplay Hcap i ev Hi Hid) as [Hsent Hret].
  rewrite Nat.add_0_r in Hsent. cbn [drop] in Hsent.
  split; [|exact Hret]. rewrite Hsent. unfold eventsAfter.
  rewrite <- Hid, (positionOf_lookup (events s) i ev (proj1 Hidx) Hi).
  reflexivity.
Qed.

(** When the cap is exceeded the index is rebuilt, whatever it held. *)
Lemma pruneState_overflow_rebuilds (ttl : Z) (cap : nat) (now : Z)
    (s : StreamState JSONRPCMessage) :
  (cap < length (dropExpired (now - ttl) (events s) (indexById s)).1)%nat ->
  indexById (pruneState ttl cap now s)
  = rebuildIndex (events (pruneState ttl cap now s)).
Proof.
  unfold pruneState.
  destruct (dropExpired (now - ttl) (events s) (indexById s)) as [evs1 idx1].
  cbn [fst]. intros Hcap. apply Nat.ltb_lt in Hcap. rewrite Hcap.
  destruct (shiftOverflow _ _ _) as [evs3 idx3]. reflexivity.
Qed.

End WithMessage.

(** C1 at an expiry.  Three events are stored at times 0, 900 and 950
    under a one-second TTL, and the client resumes from [s:2] at time
    1500.  The prune drops [s:1]; the buffer is then [s:2; s:3] with the
    anchor at position 0, but the index was not rebuilt and still maps
    [s:2] to 1.  The replay returns the stream id having sent nothing,
    where the events after the anchor are [s:3]. *)
Theorem replay_after_expiry_skips_events :
  exists s',
    streams (replayEventsAfter bug_store3 "s:2" 1500).1.1 !! "s" = Some s'
    /\ (id <$> events s') = ["s:2"; "s:3"]%string
    /\ positionOf "s:2" (events s') = Some 0%nat
    /\ indexById s' !! "s:2" = Some 1%nat
    /\ eventsAfter "s:2" (events s') = Some [("s:3", "m3")]%string
    /\ (replayEventsAfter bug_store3 "s:2" 1500).1.2 = []
    /\ (replayEventsAfter bug_store3 "s:2" 1500).2 = "s"%string.
Proof.
  eexists. split; [vm_compute; reflexivity|].
  repeat split; vm_compute; reflexivity.
Qed.

(** The same resume point is served in full as long as nothing has
    expired. *)
Example replay_before_expiry :
  (replayEventsAfter bug_store3 "s:2" 990).1.2 = [("s:3", "m3")]%string.
Proof. vm_compute. reflexivity. Qed.

End EventStoreFacts.

(** ** The theorems at concrete runs *)

Module Runs.

Import JsString Agents Store Registry QueueProcessor Dispatcher Tools Scenarios.
Import QueueFacts DispatcherFacts StatusFacts.

(** C10 at a run: a row enqueued without [max_attempts] gets 3. *)
Lemma enqueueMessage_default_max_attempts_witness :
  exists db' row,
    enqueueMessage helloDb
      {| cqi_message_id := "msg-1"; cqi_target := codex;
         cqi_priority := None; cqi_max_attempts := None |} 200
    = Some (db', row)
    /\ In row (message_queue db')
    /\ q_max_attempts row = 3%Z.
Proof.
  destruct (enqueueMessage helloDb
              {| cqi_message_id := "msg-1"; cqi_target := codex;
                 cqi_priority := None; cqi_max_attempts := None |} 200)
    as [[db' row]|] eqn:E; [|vm_compute in E; discriminate E].
  exists db', row. split; [reflexivity|].
  destruct (enqueueMessage_default_max_attempts helloDb db' _ 200 row E)
    as (Hin & Hdef & _).
  split; [exact Hin | exact (Hdef eq_refl)].
Defined.

(** C6 at a run: the ping, due at time 100, is retried at time 6000. *)
Lemma scheduleRetry_backoff_and_sweep_witness :
  In pingRow (message_queue pingDb)
  /\ NoDup (map q_id (message_queue pingDb))
  /\ exists before after row,
       message_queue pingDb = before ++ pingRow :: after
       /\ message_queue (scheduleRetry pingDb pingRow 6000)
          = before ++ row :: after
       /\ q_next_attempt row = 36000%Z
       /\ q_attempts row = 1%nat.
Proof.
  assert (In pingRow (message_queue pingDb)) as Hin
    by (vm_compute; left; reflexivity).
  assert (NoDup (map q_id (message_queue pingDb))) as Hkey
    by (vm_compute; apply NoDup_singleton).
  split; [exact Hin|]. split; [exact Hkey|].
  pose proof (scheduleRetry_backoff_and_sweep pingDb pingRow 6000 Hin Hkey)
    as Hretry.
  cbv zeta in Hretry.
  destruct Hretry
    as [(before & after & row & Hold & Hnew & Hnext & _ & _ & Hatt & _) _].
  exists before, after, row.
  split; [exact Hold|]. split; [exact Hnew|].
  split; [rewrite Hnext; reflexivity | exact Hatt].
Defined.

(** C6 refuted: the ping's entry was due at time 100.  The delivery
    attempt at time 6000 finds claude offline and schedules the first
    retry, and the entry's [next_attempt] goes from 100 to 36000: it
    moves 35.9 seconds, where the delay for no attempt so far is 30
    seconds. *)
Lemma retry_moves_entry_by_more_than_the_delay :
  exists db' row,
    getQueuedMessage pingDb "msg-1" = Some pingRow
    /\ q_attempts pingRow = 0%nat
    /\ q_next_attempt pingRow = 100%Z
    /\ attemptDelivery pingDb claude pingRow 6000 = (db', Retry)
    /\ db' = scheduleRetry pingDb pingRow 6000
    /\ getQueuedMessage db' "msg-1" = Some row
    /\ q_attempts row = 1%nat
    /\ (q_next_attempt row - q_next_attempt pingRow = 35900)%Z
    /\ (1000 * Z.min (30 * 2 ^ Z.of_nat (q_attempts pingRow)) 3600 = 30000)%Z
    /\ (35900 <> 30000)%Z.
Proof.
  do 2 eexists. split; [vm_compute; reflexivity|].
  split; [reflexivity|]. split; [reflexivity|].
  split; [vm_compute; reflexivity|].
  split; [vm_compute; reflexivity|].
  split; [vm_compute; reflexivity|].
  split; [reflexivity|]. split; [vm_compute; reflexivity|].
  split; [vm_compute; reflexivity | discriminate].
Qed.

(** C5 at a run: codex's ping, priority high, to an offline claude. *)
Lemma offline_claude_is_enqueued_witness :
  exists db' r,
    pingSent = Some (db', r)
    /\ targetOnline (Some codexOnly.1) claude = false
    /\ exists row,
         message_queue db' = message_queue codexOnly.2 ++ [row]
         /\ q_message_id row = m_id (r_message r)
         /\ q_target row = claude
         /\ q_priority row = 1%Z
         /\ q_attempts row = 0%nat
         /\ q_max_attempts row = 5%Z
         /\ exists m, getMessage db' (m_id (r_message r)) = Some m
                      /\ m_status m = pending.
Proof.
  destruct pingSent as [[db' r]|] eqn:E; [|vm_compute in E; discriminate E].
  exists db', r. split; [reflexivity|].
  assert (targetOnline (Some codexOnly.1) claude = false) as Hoff
    by (vm_compute; reflexivity).
  split; [exact Hoff|].
  exact (offline_claude_is_enqueued asciiLowerCase silentCodex failedExec
           (Some codexOnly.1) true codexOnly.2 db'
           (opts codex claude None "ping" (Some high))
           "conv-1" "msg-1" "resp-1" 100 r E Hoff eq_refl).
Defined.

(** C9 at a run: a review request with no trigger in it, sent to an
    offline codex with the oracle named.  The oracle is selected and
    reported, and the peer, which answers with the name of the persona
    it is handed, answers "oracle". *)
Lemma offline_codex_persona_selection_witness :
  exists db' r answer,
    MoreScenarios.askedOracle = Some (db', r)
    /\ targetOnline (Some claudeOnly.1) codex = false
    /\ selectAgent asciiLowerCase "Please review the schema" = ARCHITECT
    /\ selectPersona asciiLowerCase (Some oracle) "Please review the schema"
       = ORACLE
    /\ r_selectedAgent r = Some "oracle"%string
    /\ r_invokedViaMcp r = Some true
    /\ r_response r = Some answer
    /\ m_content answer = "oracle"%string.
Proof.
  destruct MoreScenarios.askedOracle as [[db' r]|] eqn:E;
    [|vm_compute in E; discriminate E].
  assert (targetOnline (Some claudeOnly.1) codex = false) as Hoff
    by (vm_compute; reflexivity).
  pose proof (offline_codex_persona_selection asciiLowerCase
                MoreScenarios.namingCodex failedExec
                (Some claudeOnly.1) true claudeOnly.2 db'
                MoreScenarios.reviewByOracle
                "conv-1" "msg-1" "resp-1" 100 r E Hoff eq_refl) as Hsel.
  cbv zeta in Hsel.
  destruct Hsel as (_ & _ & _ & Hexplicit & _ & _ & Hpeer & _).
  destruct (Hexplicit oracle eq_refl) as [Hpersona Hname].
  destruct Hpeer as (db1 & db2 & _ & _ & Hpeer).
  cbn [tryCodexMcpServer negb MoreScenarios.namingCodex] in Hpeer.
  rewrite Hpersona in Hpeer.
  change (truthy (ccr_response
                    {| ccr_response := name ORACLE;
                       ccr_conversationId := None |})) with true in Hpeer.
  cbn [ccr_response] in Hpeer.
  destruct Hpeer as (Hvia & answer & Hresp & Hcontent).
  exists db', r, answer. split; [reflexivity|]. split; [exact Hoff|].
  split; [reflexivity|]. split; [exact Hpersona|].
  split; [exact Hname|]. split; [exact Hvia|].
  split; [exact Hresp | exact Hcontent].
Defined.

(** C4 at a run: a message sent into the conversation stored under
    [conv-1]. *)
Lemma sendMessage_conversation_is_stored_witness :
  exists db' r,
    sentIntoClosed = Some (db', r)
    /\ m_conversation_id (r_message r) = cv_id (r_conversation r)
    /\ newMessagesIn closedDb db' (cv_id (r_conversation r)).
Proof.
  destruct sentIntoClosed as [[db' r]|] eqn:E; [|vm_compute in E; discriminate E].
  exists db', r. split; [reflexivity|].
  destruct (sendMessage_conversation_is_stored asciiLowerCase silentCodex
              failedExec (Some bothOnline.1) true closedDb db'
              (opts claude codex (Some "conv-1") "one more thing" None)
              "conv-2" "msg-1" "resp-1" 100 r E)
    as (Hconv & _ & Hnew).
  split; [exact Hconv | exact Hnew].
Defined.

(** C4 refuted: the conversation [conv-1] is closed, its status is
    [completed], and a [sendMessage] naming it returns with its message
    inserted into that conversation. *)
Lemma message_inserted_into_completed_conversation :
  exists db' r m,
    option_map cv_status (getConversation closedDb "conv-1") = Some completed
    /\ sendMessage asciiLowerCase silentCodex failedExec (Some bothOnline.1)
         true closedDb (opts claude codex (Some "conv-1") "one more thing" None)
         "conv-2" "msg-1" "resp-1" 100 = Some (db', r)
    /\ cv_status (r_conversation r) = completed
    /\ getMessage closedDb "msg-1" = None
    /\ getMessage db' "msg-1" = Some m
    /\ m_conversation_id m = "conv-1"%string
    /\ option_map cv_status (getConversation db' "conv-1") = Some completed.
Proof.
  eexists _, _, _. split; [vm_compute; reflexivity|].
  split; [vm_compute; reflexivity|].
  repeat split; vm_compute; reflexivity.
Qed.

(** C3 at a run: the answered question in the store. *)
Lemma status_writes_replace_witness :
  exists m,
    getMessage answeredDb "msg-1" = Some m
    /\ m_status m = responded
    /\ (forall st, exists m',
          getMessage (updateMessageStatus answeredDb "msg-1" st 300) "msg-1"
          = Some m' /\ m_status m' = st)
    /\ (statusRank read < statusRank (m_status m) <-> m_status m = responded).
Proof.
  destruct (getMessage answeredDb "msg-1") as [m|] eqn:E;
    [|vm_compute in E; discriminate E].
  exists m. split; [reflexivity|].
  assert (m_status m = responded) as Hst.
  { vm_compute in E. injection E as <-. reflexivity. }
  split; [exact Hst|].
  destruct (status_writes_replace answeredDb "msg-1" 300 m E)
    as (Hwrite & _ & Hread & _).
  split; [exact Hwrite | exact Hread].
Defined.

(** C3 refuted: the question has been answered, so its status is
    [responded]; codex, its target, then marks it read, the call
    succeeds, and the status is [read], which is earlier in the order. *)
Lemma mark_read_moves_responded_back :
  exists db',
    option_map m_status (getMessage answeredDb "msg-1") = Some responded
    /\ option_map m_target (getMessage answeredDb "msg-1") = Some codex
    /\ mark_message_read answeredDb (Some codex) "msg-1" 300
       = (db', MarkedRead "msg-1" read)
    /\ option_map m_status (getMessage db' "msg-1") = Some read
    /\ (statusRank read < statusRank responded)%nat.
Proof.
  eexists. split; [vm_compute; reflexivity|].
  split; [vm_compute; reflexivity|].
  split; [vm_compute; reflexivity|].
  split; [vm_compute; reflexivity|]. cbn. lia.
Qed.

End Runs.

(** ** The event log: bounds, identifiers and evicted anchors *)

Module EventStoreMore.

Import EventStore EventStoreFacts.

#[local] Set Warnings "-clear-no-such-hyp".

Lemma index_colon_cons (a : ascii) (s : string) :
  String.index 0 ":" (String a s)
  = if ascii_dec ":" a then Some 0%nat else S <$> String.index 0 ":" s.
Proof.
  cbn [String.index String.prefix].
  destruct (ascii_dec ":" a).
  - now destruct s.
  - reflexivity.
Qed.

(** [streamId] recovered from an event id: everything before the first
    colon. *)
Lemma parse_before_colon (sid rest : string) :
  String.index 0 ":" sid = None ->
  String.index 0 ":" (sid +:+ ":" +:+ rest) = Some (String.length sid)
  /\ String.substring 0 (String.length sid) (sid +:+ ":" +:+ rest) = sid.
Proof.
  induction sid as [|a sid IH]; intros Hnone.
  - change (EmptyString +:+ ":" +:+ rest) with (String ":" rest).
    rewrite index_colon_cons. destruct (ascii_dec ":" ":"); [|congruence].
    split; [reflexivity | now destruct rest].
  - rewrite index_colon_cons in Hnone.
    change (String a sid +:+ ":" +:+ rest) with (String a (sid +:+ ":" +:+ rest)).
    rewrite index_colon_cons.
    destruct (ascii_dec ":" a) as [Heq|Hne]; [discriminate|].
    destruct (String.index 0 ":" sid) eqn:E; [discriminate|].
    destruct (IH eq_refl) as [Hidx Hsub]. rewrite Hidx. split; [reflexivity|].
    cbn [String.length String.substring]. now rewrite Hsub.
Qed.

(** X1.  The stream id is recovered from an event id made for it,
    provided the stream id itself contains no colon. *)
Theorem parseStreamId_makeEventId (sid : string) (n : N) :
  String.index 0 ":" sid = None ->
  parseStreamId (makeEventId sid n) = sid.
Proof.
  intros Hnone. unfold parseStreamId, makeEventId.
  destruct (parse_before_colon sid (pretty n) Hnone) as [Hidx Hsub].
  now rewrite Hidx.
Qed.

(** A stream id with a colon in it is cut at that colon: its events can
    be stored but not replayed under their own stream. *)
Example parseStreamId_cuts_at_colon :
  parseStreamId (makeEventId "a:b" 7) = "a"%string.
Proof. reflexivity. Qed.

Lemma makeEventId_inj (sid : string) (n m : N) :
  makeEventId sid n = makeEventId sid m -> n = m.
Proof.
  unfold makeEventId. intros H.
  apply (inj (String.append sid)) in H.
  apply (inj (String.append ":")) in H.
  now apply (inj pretty) in H.
Qed.

Section WithMessage.

Context {JSONRPCMessage : Type}.

Implicit Types (evs : list (EventRecord JSONRPCMessage)).
Implicit Types (idx : gmap string nat).
Implicit Types (s : StreamState JSONRPCMessage).

Lemma dropExpired_events (cutoff : Z) evs idx :
  exists k, (dropExpired cutoff evs idx).1 = drop k evs.
Proof.
  revert idx. induction evs as [|ev rest IH]; intros idx.
  - now exists 0%nat.
  - cbn [dropExpired]. destruct (ts ev <? cutoff)%Z.
    + destruct (IH (delete (id ev) idx)) as [k Hk]. now exists (S k).
    + now exists 0%nat.
Qed.

Lemma dropExpired_head_fresh (cutoff : Z) evs idx :
  (forall ev, head evs = Some ev -> (cutoff <= ts ev)%Z) ->
  dropExpired cutoff evs idx = (evs, idx).
Proof.
  destruct evs as [|ev rest]; intros Hhead; [reflexivity|].
  cbn [dropExpired]. specialize (Hhead ev eq_refl).
  apply Z.ltb_ge in Hhead. now rewrite Hhead.
Qed.

Lemma shiftOverflow_events (n : nat) evs idx :
  (shiftOverflow n evs idx).1 = drop n evs.
Proof.
  revert evs idx. induction n as [|n IH]; intros [|ev rest] idx; cbn;
    try reflexivity. apply IH.
Qed.

(** Pruning only ever removes events from the front, and keeps the
    sequence counter. *)
Lemma pruneState_drops_prefix (ttl : Z) (cap : nat) (now : Z) s :
  nextSeq (pruneState ttl cap now s) = nextSeq s
  /\ exists k, events (pruneState ttl cap now s) = drop k (events s).
Proof.
  unfold pruneState.
  destruct (dropExpired_events (now - ttl) (events s) (indexById s)) as [k Hk].
  destruct (dropExpired (now - ttl) (events s) (indexById s)) as [evs1 idx1].
  cbn [fst] in Hk. subst evs1.
  destruct (cap <? length (drop k (events s)))%nat.
  - pose proof (shiftOverflow_events (length (drop k (events s)) - cap)
                  (drop k (events s))
                  (if negb (size idx1 =? length (drop k (events s)))%nat
                   then rebuildIndex (drop k (events s)) else idx1)) as Hs.
    destruct (shiftOverflow _ _ _) as [evs3 idx3]. cbn [fst] in Hs.
    cbn. split; [reflexivity|]. rewrite Hs, drop_drop. eauto.
  - cbn. eauto.
Qed.

(** X3.  After a prune the buffer holds at most [maxEventsPerStream]
    events.  [storeEvent] prunes before it appends, so right after a
    store the buffer holds at most one event more than the cap. *)
Theorem buffer_bounded (st : InMemoryEventStore JSONRPCMessage)
    (streamId : string) (msg : JSONRPCMessage) (now : Z) s :
  (length (events (pruneState (ttlMs st) (maxEventsPerStream st) now s))
   <= maxEventsPerStream st)%nat
  /\ exists s',
       streams (storeEvent st streamId msg now).1 !! streamId = Some s'
       /\ (1 <= length (events s') <= S (maxEventsPerStream st))%nat.
Proof.
  assert (forall s0 : StreamState JSONRPCMessage,
            (length (events (pruneState (ttlMs st) (maxEventsPerStream st) now s0))
             <= maxEventsPerStream st)%nat) as Hprune.
  { intros s0. unfold pruneState.
    destruct (dropExpired _ _ _) as [evs1 idx1].
    destruct (maxEventsPerStream st <? length evs1)%nat eqn:Hcap.
    - pose proof (shiftOverflow_events (length evs1 - maxEventsPerStream st) evs1
                    (if negb (size idx1 =? length evs1)%nat
                     then rebuildIndex evs1 else idx1)) as Hs.
      destruct (shiftOverflow _ _ _) as [evs3 idx3]. cbn [fst] in Hs.
      cbn. rewrite Hs, length_drop. apply Nat.ltb_lt in Hcap. lia.
    - cbn. now apply Nat.ltb_ge in Hcap. }
  split; [apply Hprune|].
  unfold storeEvent. cbn [fst streams]. eexists. split.
  - apply lookup_insert_eq.
  - cbn [events]. rewrite length_app. cbn.
    specialize (Hprune (default emptyStream (streams st !! streamId))). lia.
Qed.

Lemma setPositions_dom evs (i : nat) idx :
  dom (setPositions evs i idx) = dom idx ∪ list_to_set (id <$> evs).
Proof.
  revert i idx. induction evs as [|ev rest IH]; intros i idx; cbn [setPositions].
  - rewrite fmap_nil. cbn. set_solver.
  - rewrite IH, dom_insert_L, fmap_cons. cbn. set_solver.
Qed.

Lemma rebuildIndex_dom evs :
  dom (rebuildIndex evs) = list_to_set (id <$> evs).
Proof. unfold rebuildIndex. rewrite setPositions_dom, dom_empty_L. set_solver. Qed.

(** A rebuilt index is exact. *)
Lemma rebuildIndex_indexed evs :
  NoDup (id <$> evs) -> indexed 0 evs (rebuildIndex evs).
Proof.
  intros Hnd. split; [exact Hnd|]. split.
  - rewrite <- size_dom, rebuildIndex_dom, size_list_to_set by exact Hnd.
    apply length_fmap.
  - intros i ev Hi. rewrite Nat.add_0_r. now apply rebuildIndex_lookup.
Qed.

Lemma NoDup_ids_drop (k : nat) evs :
  NoDup (id <$> evs) -> NoDup (id <$> drop k evs).
Proof.
  intros Hnd. rewrite fmap_drop. apply (sublist_NoDup (drop k (id <$> evs)) (id <$> evs)); [exact Hnd | apply sublist_drop].
Qed.

(** Pruning keeps an exact index exact as long as the oldest event has
    not expired: either nothing changes, or the cap forces a rebuild. *)
Lemma pruneState_exact (ttl : Z) (cap : nat) (now : Z) s :
  indexed 0 (events s) (indexById s) ->
  (forall ev, head (events s) = Some ev -> (now - ttl <= ts ev)%Z) ->
  indexed 0 (events (pruneState ttl cap now s)) (indexById (pruneState ttl cap now s)).
Proof.
  intros Hidx Hhead. unfold pruneState.
  rewrite (dropExpired_head_fresh _ _ _ Hhead).
  destruct Hidx as (Hnd & Hsize & Hpos).
  rewrite Hsize, Nat.eqb_refl. cbn [negb].
  destruct (cap <? length (events s))%nat.
  - pose proof (shiftOverflow_events (length (events s) - cap) (events s)
                  (indexById s)) as Hs.
    destruct (shiftOverflow _ _ _) as [evs3 idx3]. cbn [fst] in Hs. cbn.
    apply rebuildIndex_indexed. rewrite Hs. now apply NoDup_ids_drop.
  - cbn. repeat split; assumption.
Qed.

(** Appending an event under an unused id, with its position entered
    in the index. *)
Lemma indexed_push evs idx (rec : EventRecord JSONRPCMessage) :
  indexed 0 evs idx ->
  id rec ∉ id <$> evs ->
  indexed 0 (evs ++ [rec]) (<[id rec := length evs]> idx).
Proof.
  intros (Hnd & Hsize & Hpos) Hfresh.
  assert (idx !! id rec = None) as Hnone.
  { destruct (idx !! id rec) as [p|] eqn:E; [|reflexivity]. exfalso.
    assert (list_to_set (id <$> evs) = dom idx) as Hdom.
    { apply set_subseteq_size_eq.
      - intros k Hk. apply elem_of_dom.
        apply elem_of_list_to_set, list_elem_of_fmap in Hk as (ev & -> & Hev).
        apply list_elem_of_lookup in Hev as (i & Hi). rewrite (Hpos i ev Hi). eauto.
      - rewrite size_dom, size_list_to_set, length_fmap by exact Hnd. lia. }
    apply Hfresh. apply (elem_of_list_to_set (C:=gset string)).
    rewrite Hdom. apply elem_of_dom. eauto. }
  split; [|split].
  - rewrite fmap_app. apply NoDup_app. split; [exact Hnd|]. split.
    + intros x Hx Hin. cbn in Hin. apply list_elem_of_singleton in Hin.
      subst x. contradiction.
    + cbn. apply NoDup_singleton.
  - rewrite map_size_insert_None by exact Hnone. rewrite length_app. cbn. lia.
  - intros i ev Hi. rewrite Nat.add_0_r.
    apply lookup_snoc_Some in Hi as [[Hlt Hi]|[-> ->]].
    + rewrite lookup_insert_ne.
      * rewrite (Hpos i ev Hi). f_equal. lia.
      * intros Heq. apply Hfresh. rewrite Heq.
        apply list_elem_of_fmap. exists ev. split; [reflexivity|].
        eapply list_elem_of_lookup_2. exact Hi.
    + apply lookup_insert_eq.
Qed.

(** X2.  As long as the oldest buffered event has not expired,
    [storeEvent] keeps the index exact: the new event gets the next
    sequence number of its stream (1 on a new stream), goes last in the
    buffer, and every buffered event is indexed at its position. *)
Theorem storeEvent_keeps_index_exact (st : InMemoryEventStore JSONRPCMessage)
    (streamId : string) (msg : JSONRPCMessage) (now : Z) :
  indexed 0 (events (EventStoreInv.streamOf st streamId))
            (indexById (EventStoreInv.streamOf st streamId)) ->
  EventStoreInv.numbered streamId (EventStoreInv.streamOf st streamId) ->
  (forall ev, head (events (EventStoreInv.streamOf st streamId)) = Some ev ->
     (now - ttlMs st <= ts ev)%Z) ->
  (storeEvent st streamId msg now).2
  = makeEventId streamId (nextSeq (EventStoreInv.streamOf st streamId))
  /\ exists s',
       streams (storeEvent st streamId msg now).1 !! streamId = Some s'
       /\ nextSeq s' = (nextSeq (EventStoreInv.streamOf st streamId) + 1)%N
       /\ last (events s')
          = Some {| id := (storeEvent st streamId msg now).2;
                    ts := now; message := msg |}
       /\ indexed 0 (events s') (indexById s')
       /\ EventStoreInv.numbered streamId s'.
Proof.
  unfold EventStoreInv.streamOf, EventStoreInv.numbered.
  set (s0 := default emptyStream (streams st !! streamId)).
  intros Hidx Hnum Hhead.
  pose proof (pruneState_exact (ttlMs st) (maxEventsPerStream st) now s0 Hidx Hhead)
    as Hexact.
  destruct (pruneState_drops_prefix (ttlMs st) (maxEventsPerStream st) now s0)
    as (Hseq & k & Hk).
  unfold storeEvent. fold s0. cbn [fst snd streams].
  set (s1 := pruneState (ttlMs st) (maxEventsPerStream st) now s0) in *.
  rewrite Hseq. split; [reflexivity|].
  eexists. split; [apply lookup_insert_eq|]. cbn [nextSeq events indexById].
  assert (Forall (fun ev => exists n, (n < nextSeq s0)%N
                                      /\ id ev = makeEventId streamId n)
                 (events s1)) as Hnum1.
  { rewrite Hk. apply Forall_drop. exact Hnum. }
  split; [reflexivity|]. split; [apply last_snoc|]. split.
  - apply (indexed_push (events s1) (indexById s1)
             {| id := makeEventId streamId (nextSeq s0); ts := now; message := msg |});
      [exact Hexact|].
    cbn [id]. intros Hin. apply list_elem_of_fmap in Hin as (ev & Heq & Hev).
    rewrite Forall_forall in Hnum1. destruct (Hnum1 ev Hev) as (n & Hlt & Hid).
    rewrite Hid in Heq. apply makeEventId_inj in Heq. lia.
  - apply Forall_app. split.
    + eapply Forall_impl; [exact Hnum1|]. cbn. intros ev (n & Hlt & Hid).
      exists n. split; [lia | exact Hid].
    + constructor; [|constructor]. cbn. exists (nextSeq s0). split; [lia|reflexivity].
Qed.

Lemma dropExpired_indexWithin (cutoff : Z) evs idx :
  NoDup (id <$> evs) ->
  EventStoreInv.indexWithin evs idx ->
  EventStoreInv.indexWithin (dropExpired cutoff evs idx).1
                            (dropExpired cutoff evs idx).2.
Proof.
  unfold EventStoreInv.indexWithin.
  revert idx. induction evs as [|ev rest IH]; intros idx Hnd Hin; [exact Hin|].
  cbn [dropExpired]. destruct (ts ev <? cutoff)%Z; [|exact Hin].
  rewrite fmap_cons in Hnd. apply NoDup_cons in Hnd as [Hfresh Hnd].
  apply IH; [exact Hnd|]. rewrite dom_delete_L.
  rewrite fmap_cons in Hin. cbn in Hin. set_solver.
Qed.

Lemma pruneState_indexWithin (ttl : Z) (cap : nat) (now : Z) s :
  NoDup (id <$> events s) ->
  EventStoreInv.indexWithin (events s) (indexById s) ->
  EventStoreInv.indexWithin (events (pruneState ttl cap now s))
                            (indexById (pruneState ttl cap now s)).
Proof.
  intros Hnd Hin.
  pose proof (dropExpired_indexWithin (now - ttl) _ _ Hnd Hin) as H1.
  unfold pruneState.
  destruct (dropExpired (now - ttl) (events s) (indexById s)) as [evs1 idx1].
  cbn [fst snd] in H1.
  destruct (cap <? length evs1)%nat.
  - destruct (shiftOverflow _ _ _) as [evs3 idx3]. cbn.
    unfold EventStoreInv.indexWithin. now rewrite rebuildIndex_dom.
  - cbn. destruct (negb _); [|exact H1].
    unfold EventStoreInv.indexWithin. now rewrite rebuildIndex_dom.
Qed.

(** X4.  A replay from an event id that the prune has evicted (by age
    or by the cap), or that was never stored, sends nothing and returns
    the empty string. *)
Theorem replay_of_evicted_anchor_is_empty
    (st : InMemoryEventStore JSONRPCMessage) (lastEventId : string) (now : Z) s :
  streams st !! parseStreamId lastEventId = Some s ->
  NoDup (id <$> events s) ->
  EventStoreInv.indexWithin (events s) (indexById s) ->
  lastEventId ∉ id <$> events (pruneState (ttlMs st) (maxEventsPerStream st) now s) ->
  (replayEventsAfter st lastEventId now).1.2 = []
  /\ (replayEventsAfter st lastEventId now).2 = EmptyString.
Proof.
  intros Hs Hnd Hin Hgone. unfold replayEventsAfter.
  destruct (String.eqb lastEventId EmptyString); [split; reflexivity|].
  destruct (String.eqb (parseStreamId lastEventId) EmptyString);
    [split; reflexivity|].
  rewrite Hs.
  pose proof (pruneState_indexWithin (ttlMs st) (maxEventsPerStream st) now s
                Hnd Hin) as Hwithin.
  unfold EventStoreInv.indexWithin in Hwithin.
  destruct (indexById (pruneState _ _ now s) !! lastEventId) as [p|] eqn:E;
    [|split; reflexivity].
  exfalso. apply Hgone. apply (elem_of_list_to_set (C:=gset string)).
  apply Hwithin. apply elem_of_dom. eauto.
Qed.

(** X5.  Whatever the index holds, a replay sends a suffix of the
    pruned buffer, in buffer order, and returns either the stream id or,
    having sent nothing, the empty string; for an unknown stream it
    leaves the store as it is. *)
Theorem replay_sends_a_suffix (st : InMemoryEventStore JSONRPCMessage)
    (lastEventId : string) (now : Z) :
  ((replayEventsAfter st lastEventId now).2 = parseStreamId lastEventId
   \/ ((replayEventsAfter st lastEventId now).2 = EmptyString
       /\ (replayEventsAfter st lastEventId now).1.2 = []))
  /\ match streams st !! parseStreamId lastEventId with
     | Some s =>
         (replayEventsAfter st lastEventId now).1.2
         `suffix_of`
         EventStoreInv.sendable
           (events (pruneState (ttlMs st) (maxEventsPerStream st) now s))
     | None => replayEventsAfter st lastEventId now = (st, [], EmptyString)
     end.
Proof.
  unfold replayEventsAfter.
  destruct (String.eqb lastEventId EmptyString).
  { split; [right; split; reflexivity|].
    destruct (streams st !! _); [apply suffix_nil | reflexivity]. }
  destruct (String.eqb (parseStreamId lastEventId) EmptyString).
  { split; [right; split; reflexivity|].
    destruct (streams st !! _); [apply suffix_nil | reflexivity]. }
  destruct (streams st !! parseStreamId lastEventId) as [s|];
    [|split; [right; split; reflexivity | reflexivity]].
  destruct (indexById _ !! lastEventId) as [p|]; cbn [fst snd].
  - split; [now left|]. unfold EventStoreInv.sendable.
    rewrite <- (take_drop (S p) (events (pruneState _ _ now s))) at 2.
    rewrite map_app. apply suffix_app_r. reflexivity.
  - split; [right; split; reflexivity | apply suffix_nil].
Qed.

End WithMessage.

(** With a cap of two, the third store leaves three events behind. *)
Example buffer_one_over_cap :
  let st0 : InMemoryEventStore string := newStore None (Some 2%nat) in
  let st3 := (storeEvent (storeEvent (storeEvent st0 "s" "a" 0).1 "s" "b" 1).1
                         "s" "c" 2).1 in
  (fun stream => id <$> events stream) <$> (streams st3 !! "s")
  = Some ["s:1"; "s:2"; "s:3"]%string.
Proof. vm_compute. reflexivity. Qed.

End EventStoreMore.

(** ** The queue table: constraints, round trips, statistics, drain *)

Module QueueMoreFacts.

Import Store StoreMore QueueProcessor QueueFacts StoreFacts.

Lemma fmap_map_same {A B} (f : A -> B) (g : A -> A) (l : list A) :
  (forall x, f (g x) = f x) -> f <$> map g l = f <$> l.
Proof.
  intros Hfg. induction l as [|x l IH]; cbn; [reflexivity|].
  now rewrite Hfg, IH.
Qed.

Lemma NoDup_fmap_filter {A B} (f : A -> B) (P : A -> Prop)
    `{forall x, Decision (P x)} (l : list A) :
  NoDup (f <$> l) -> NoDup (f <$> filter P l).
Proof.
  induction l as [|x l IH]; [trivial|]. rewrite fmap_cons. intros Hnd.
  apply NoDup_cons in Hnd as [Hx Hnd]. rewrite filter_cons.
  destruct (decide (P x)); [|now apply IH].
  rewrite fmap_cons. apply NoDup_cons. split; [|now apply IH].
  intros Hin. apply Hx. apply list_elem_of_fmap in Hin as (y & -> & Hy).
  apply list_elem_of_filter in Hy as [_ Hy].
  apply list_elem_of_fmap. eauto.
Qed.

Lemma existsb_false_not_elem {A B} `{EqDecision B} (f : A -> B) (b : B)
    (test : A -> bool) (l : list A) :
  (forall x, test x = true <-> f x = b) ->
  existsb test l = false -> b ∉ f <$> l.
Proof.
  intros Htest Hex Hin. apply list_elem_of_fmap in Hin as (x & -> & Hx).
  apply not_true_iff_false in Hex. apply Hex. apply existsb_exists.
  exists x. split; [now apply list_elem_of_In | now apply Htest].
Qed.

(** What [enqueueMessage] checked before it inserted. *)
Lemma enqueueMessage_checked (db db' : Db) (input : CreateQueuedMessageInput)
    (now : Z) (row : QueuedMessage) :
  enqueueMessage db input now = Some (db', row) ->
  (cqi_message_id input ∉ q_message_id <$> message_queue db)
  /\ messageExists db (cqi_message_id input) = true
  /\ clientExists db (cqi_target input) = true.
Proof.
  unfold enqueueMessage. intros H.
  destruct (existsb _ (message_queue db)) eqn:Hq; [discriminate|].
  destruct (messageExists db _) eqn:Hm; [|discriminate].
  destruct (clientExists db _) eqn:Hc; [|discriminate].
  split; [|split; reflexivity].
  eapply existsb_false_not_elem; [|exact Hq].
  intros x. apply String.eqb_eq.
Qed.

(** X6.  The two constraints of the queue table, one row per message
    and one row per rowid, survive every operation on it: a successful
    enqueue, an attempt increment, a removal and a sweep. *)
Theorem queue_constraints_kept (db : Db) :
  queueKeyed db ->
  (forall input now db' row,
      enqueueMessage db input now = Some (db', row) -> queueKeyed db')
  /\ (forall rowid delay now, queueKeyed (incrementAttempts db rowid delay now))
  /\ (forall mid, queueKeyed (removeFromQueue db mid).1)
  /\ queueKeyed (clearExhaustedMessages db).1.
Proof.
  intros [Hmid Hid]. unfold queueKeyed. repeat split.
  - pose proof (enqueueMessage_checked _ _ _ _ _ H) as (Hfresh & _).
    apply enqueueMessage_Some in H as (Hrow & Hq & _). rewrite Hq, fmap_app.
    apply NoDup_app. split; [exact Hmid|]. split; [|apply NoDup_singleton].
    intros x Hx Hin. cbn in Hin. apply list_elem_of_singleton in Hin.
    subst x row. cbn in Hx. contradiction.
  - apply enqueueMessage_Some in H as (Hrow & Hq & _). rewrite Hq, fmap_app.
    apply NoDup_app. split; [exact Hid|]. split; [|apply NoDup_singleton].
    intros x Hx Hin. cbn in Hin. apply list_elem_of_singleton in Hin.
    subst x row. cbn in Hx. apply list_elem_of_fmap in Hx as (r & Heq & Hr).
    apply list_elem_of_In, nextRowid_above in Hr. lia.
  - unfold incrementAttempts. cbn [message_queue].
    rewrite fmap_map_same; [exact Hmid|].
    intros x. now destruct (q_id x =? rowid)%Z.
  - unfold incrementAttempts. cbn [message_queue].
    rewrite fmap_map_same; [exact Hid|].
    intros x. now destruct (q_id x =? rowid)%Z.
  - cbn. now apply NoDup_fmap_filter.
  - cbn. now apply NoDup_fmap_filter.
  - cbn. now apply NoDup_fmap_filter.
  - cbn. now apply NoDup_fmap_filter.
Qed.

Lemma find_app_old {A} (f : A -> bool) (l : list A) (x y : A) :
  find f l = Some y -> find f (l ++ [x]) = Some y.
Proof.
  induction l as [|z l IH]; cbn; [discriminate|].
  destruct (f z); [trivial | exact IH].
Qed.

(** X7.  A successful enqueue can be read back by message id; before it
    the message was not queued, and while the row exists a second
    enqueue for the same message throws. *)
Theorem enqueue_then_lookup (db db' : Db) (input : CreateQueuedMessageInput)
    (now : Z) (row : QueuedMessage) :
  enqueueMessage db input now = Some (db', row) ->
  getQueuedMessage db (cqi_message_id input) = None
  /\ getQueuedMessage db' (cqi_message_id input) = Some row
  /\ getQueueLength db' None = S (getQueueLength db None)
  /\ (forall input2 now2,
        cqi_message_id input2 = cqi_message_id input ->
        enqueueMessage db' input2 now2 = None).
Proof.
  intros H. pose proof (enqueueMessage_checked _ _ _ _ _ H) as (Hfresh & _).
  apply enqueueMessage_Some in H as (Hrow & Hq & _).
  assert (existsb (fun r => String.eqb (q_message_id r) (cqi_message_id input))
                  (message_queue db) = false) as Hex.
  { apply not_true_iff_false. intros Hex. apply existsb_exists in Hex as (r & Hr & Heq).
    apply Hfresh. apply String.eqb_eq in Heq. rewrite <- Heq.
    apply list_elem_of_fmap. exists r. split; [reflexivity | now apply list_elem_of_In]. }
  assert (q_message_id row = cqi_message_id input) as Hmid by now rewrite Hrow.
  split; [|split; [|split]].
  - unfold getQueuedMessage. destruct (find _ _) as [r|] eqn:E; [|reflexivity].
    apply find_some in E as [Hr Heq].
    apply not_true_iff_false in Hex. exfalso. apply Hex.
    apply existsb_exists. eauto.
  - unfold getQueuedMessage. rewrite Hq.
    apply find_app_fresh; [exact Hex|]. rewrite Hmid. apply String.eqb_refl.
  - cbn. rewrite Hq, length_app. cbn. lia.
  - intros input2 now2 Heq. unfold enqueueMessage.
    rewrite Hq, Heq, existsb_app. cbn. rewrite Hmid, String.eqb_refl.
    now rewrite orb_true_r.
Qed.

(** X8.  [removeFromQueue] reports whether the message was queued,
    leaves it unqueued, and leaves every other message's row as it
    was. *)
Theorem removeFromQueue_removes (db : Db) (mid : string) :
  ((removeFromQueue db mid).2 = true <-> is_Some (getQueuedMessage db mid))
  /\ getQueuedMessage (removeFromQueue db mid).1 mid = None
  /\ (forall other, other <> mid ->
        getQueuedMessage (removeFromQueue db mid).1 other
        = getQueuedMessage db other).
Proof.
  unfold removeFromQueue, getQueuedMessage. cbn [fst snd message_queue].
  induction (message_queue db) as [|r q (IH1 & IH2 & IH3)].
  - cbn. repeat split; try reflexivity.
    + discriminate.
    + intros [? [=]].
  - rewrite filter_cons. cbn [find].
    destruct (decide (q_message_id r <> mid)) as [Hne|Heq].
    + assert (String.eqb (q_message_id r) mid = false) as E
        by now apply String.eqb_neq.
      cbn [find length]. rewrite E. split; [|split].
      * rewrite <- IH1. rewrite !Nat.ltb_lt. lia.
      * exact IH2.
      * intros other Ho. destruct (String.eqb (q_message_id r) other);
          [reflexivity | now apply IH3].
    + apply dec_stable in Heq.
      assert (String.eqb (q_message_id r) mid = true) as E
        by now apply String.eqb_eq.
      rewrite E. split; [|split].
      * split; [eauto|]. intros _. apply Nat.ltb_lt. cbn [length].
        pose proof (length_filter (fun r0 => q_message_id r0 <> mid) q). lia.
      * exact IH2.
      * intros other Ho.
        assert (String.eqb (q_message_id r) other = false) as E2
          by (apply String.eqb_neq; congruence).
        rewrite E2. now apply IH3.
Qed.

Lemma filter_disjoint_length {A} (P Q : A -> Prop)
    `{forall x, Decision (P x)} `{forall x, Decision (Q x)} (l : list A) :
  (forall x, P x -> Q x -> False) ->
  (length (filter P l) + length (filter Q l) <= length l)%nat.
Proof.
  intros Hdis. induction l as [|x l IH]; [cbn; lia|].
  rewrite !filter_cons.
  destruct (decide (P x)) as [Hp|_], (decide (Q x)) as [Hq|_]; cbn [length];
    [exfalso; eauto | lia | lia | lia].
Qed.

Lemma ready_rowsFor (db : Db) (target : ClientId) (now : Z) :
  filter (ready target now) (rowsFor db target)
  = filter (ready target now) (message_queue db).
Proof.
  unfold rowsFor. rewrite list_filter_filter. apply list_filter_iff.
  intros r. unfold ready. tauto.
Qed.

(** X9.  Every group of [getQueueStats] belongs to a target that has
    rows; its [pending] is that target's queue length, its [ready] is
    the number of rows a large enough [dequeueMessages] returns, and a
    row is never counted both as ready and as exhausted.  A target
    without rows has no group. *)
Theorem queue_stats_agree (db : Db) (now : Z) :
  Forall (fun st =>
            qs_pending st = getQueueLength db (Some (qs_target st))
            /\ (0 < qs_pending st)%nat
            /\ qs_ready st
               = length (dequeueMessages db (qs_target st) (qs_pending st) now)
            /\ (qs_ready st + qs_exhausted st <= qs_pending st)%nat)
         (getQueueStats db now)
  /\ (forall t, getQueueLength db (Some t) = 0%nat ->
        t ∉ qs_target <$> getQueueStats db now).
Proof.
  unfold getQueueStats. split.
  - rewrite Forall_forall. intros st Hst.
    apply list_elem_of_In, in_map_iff in Hst as (t & <- & Ht).
    apply list_elem_of_In, list_elem_of_filter in Ht as [Hrows _].
    cbn [statsFor qs_pending qs_target qs_ready qs_exhausted getQueueLength].
    split; [reflexivity|]. split.
    { destruct (rowsFor db t) eqn:E; [congruence | cbn; lia]. }
    split.
    + unfold dequeueMessages. rewrite length_take, merge_sort_Permutation.
      rewrite ready_rowsFor.
      assert (length (filter (ready t now) (message_queue db))
              <= length (rowsFor db t))%nat; [|lia].
      rewrite <- ready_rowsFor. apply length_filter.
    + apply filter_disjoint_length. intros r (_ & _ & Hlt) Hex.
      unfold exhausted in Hex. lia.
  - intros t Hlen Hin. apply list_elem_of_fmap in Hin as (st & -> & Hst).
    apply list_elem_of_In, in_map_iff in Hst as (t' & <- & Ht').
    apply list_elem_of_In, list_elem_of_filter in Ht' as [Hrows _].
    cbn in Hlen. destruct (rowsFor db t') eqn:E; [congruence | discriminate].
Qed.

Lemma withStatus_again (m : Message) (st : MessageStatus) (now : Z) :
  withStatus (withStatus m st now) st now = withStatus m st now.
Proof. destruct st; reflexivity. Qed.

Lemma markDelivered_step (db : Db) (mid : string) (ids : list string) (now : Z) :
  markDelivered
    (removeFromQueue (updateMessageStatus db mid delivered now) mid).1 ids now
  = markDelivered db (mid :: ids) now.
Proof.
  unfold markDelivered, removeFromQueue, updateMessageStatus.
  cbn [fst clients conversations messages message_queue]. f_equal.
  - rewrite map_map. apply map_ext. intros m.
    destruct (String.eqb (m_id m) mid) eqn:E.
    + apply String.eqb_eq in E. cbn [m_id withStatus].
      rewrite (bool_decide_eq_true_2 (m_id m ∈ mid :: ids))
        by (rewrite E; apply list_elem_of_here).
      destruct (bool_decide (m_id m ∈ ids)); [apply withStatus_again | reflexivity].
    + apply String.eqb_neq in E.
      rewrite (bool_decide_ext (m_id m ∈ ids) (m_id m ∈ mid :: ids));
        [reflexivity | rewrite elem_of_cons; tauto].
  - rewrite list_filter_filter. apply list_filter_iff. intros r.
    rewrite not_elem_of_cons. tauto.
Qed.

Lemma isClientOnline_clients (db db' : Db) (c : ClientId) :
  clients db' = clients db -> isClientOnline db' c = isClientOnline db c.
Proof. unfold isClientOnline, getClient. now intros ->. Qed.

Lemma updateMessageStatus_absent (db : Db) (mid : string)
    (st : MessageStatus) (now : Z) :
  getMessage db mid = None ->
  messages (updateMessageStatus db mid st now) = messages db.
Proof.
  unfold getMessage, updateMessageStatus. cbn [messages]. intros Hnone.
  rewrite <- (map_id (messages db)) at 2. apply map_ext_in.
  intros m Hin. eapply find_none in Hnone; [|exact Hin]. cbn in Hnone.
  now rewrite Hnone.
Qed.

Lemma messageExists_getMessage (db : Db) (mid : string) :
  messageExists db mid = bool_decide (is_Some (getMessage db mid)).
Proof.
  unfold messageExists, getMessage.
  induction (messages db) as [|m l IH]; cbn; [reflexivity|].
  destruct (String.eqb (m_id m) mid); cbn; [|exact IH].
  first [reflexivity | symmetry; apply bool_decide_eq_true; eauto].
Qed.

(** One delivery attempt while the [clients] row says online. *)
Lemma attemptDelivery_online_step (db : Db) (target : ClientId)
    (item : QueuedMessage) (now : Z) :
  isClientOnline db target = true ->
  attemptDelivery db target item now
  = ((removeFromQueue
        (updateMessageStatus db (q_message_id item) delivered now)
        (q_message_id item)).1,
     if messageExists db (q_message_id item) then Delivered else Removed).
Proof.
  intros Hon. unfold attemptDelivery. rewrite messageExists_getMessage.
  destruct (getMessage db (q_message_id item)) as [m|] eqn:Hm.
  - rewrite Hon. cbn [negb]. rewrite (getMessage_id _ _ _ Hm).
    rewrite bool_decide_eq_true_2 by eauto. reflexivity.
  - rewrite bool_decide_eq_false_2 by (intros [? [=]]). f_equal.
    unfold removeFromQueue. cbn [fst]. f_equal.
    symmetry. now apply updateMessageStatus_absent.
Qed.

Lemma markDelivered_nil (db : Db) (now : Z) : markDelivered db [] now = db.
Proof.
  unfold markDelivered. destruct db as [cl cv ms q]. cbn. f_equal.
  - rewrite <- (map_id ms) at 2. apply map_ext. intros m.
    now rewrite bool_decide_eq_false_2 by apply not_elem_of_nil.
  - induction q as [|r q IH]; [reflexivity|]. rewrite filter_cons.
    destruct (decide _) as [_|Hn]; [now rewrite IH|].
    exfalso. apply Hn. apply not_elem_of_nil.
Qed.

Lemma messageExists_step (db : Db) (mid x : string)
    (st : MessageStatus) (now : Z) :
  messageExists (removeFromQueue (updateMessageStatus db mid st now) mid).1 x
  = messageExists db x.
Proof.
  unfold messageExists, removeFromQueue, updateMessageStatus.
  cbn [fst messages].
  induction (messages db) as [|m l IHl]; [reflexivity|].
  cbn [map existsb]. rewrite IHl. f_equal.
  now destruct (String.eqb (m_id m) mid).
Qed.

Lemma deliverAll_online (db : Db) (target : ClientId)
    (queued : list QueuedMessage) (now : Z) :
  isClientOnline db target = true ->
  deliverAll db target queued now
  = (markDelivered db (q_message_id <$> queued) now,
     map (fun item => if messageExists db (q_message_id item)
                      then Delivered else Removed) queued).
Proof.
  revert db. induction queued as [|item rest IH]; intros db Hon.
  - cbn. now rewrite markDelivered_nil.
  - cbn [deliverAll]. rewrite (attemptDelivery_online_step _ _ _ _ Hon).
    set (db1 := (removeFromQueue _ _).1).
    assert (isClientOnline db1 target = true) as Hon1
      by (rewrite <- Hon; now apply isClientOnline_clients).
    rewrite (IH db1 Hon1). unfold db1. rewrite markDelivered_step.
    rewrite fmap_cons. cbn [map]. f_equal. f_equal.
    apply map_ext. intros it. now rewrite messageExists_step.
Qed.

(** X10.  A drain that no other task interleaves with, in closed
    form.  When the target's [clients] row says online,
    [processQueueForTarget] removes exactly the rows it dequeued and
    marks their messages delivered; each attempt ends "delivered", or
    "removed" when the message is gone, never "retry".  Rows it did not
    dequeue, and the other tables, stay as they were.  When the row does
    not say online nothing happens. *)
Theorem drain_delivers_what_it_dequeues (db : Db) (target : ClientId) (now : Z) :
  processQueueForTarget db target now
  = if isClientOnline db target
    then
      (markDelivered db (q_message_id <$> dequeueMessages db target 10 now) now,
       map (fun item => if messageExists db (q_message_id item)
                        then Delivered else Removed)
           (dequeueMessages db target 10 now))
    else (db, []).
Proof.
  unfold processQueueForTarget.
  destruct (isClientOnline db target) eqn:Hon; cbn [negb]; [|reflexivity].
  now apply deliverAll_online.
Qed.

End QueueMoreFacts.

(** ** Conversations and messages: listings and closing *)

Module StoreMoreFacts.

Import Store StoreMore StoreFacts.

#[local] Instance olderMessage_transitive : Transitive olderMessage.
Proof. intros a b c. unfold olderMessage. lia. Qed.

#[local] Instance olderMessage_total : Total olderMessage.
Proof. intros a b. unfold olderMessage. lia. Qed.

#[local] Instance moreUrgent_transitive : Transitive moreUrgent.
Proof. intros a b c. unfold moreUrgent. lia. Qed.

#[local] Instance moreUrgent_total : Total moreUrgent.
Proof. intros a b. unfold moreUrgent. lia. Qed.

#[local] Instance newerConversation_transitive : Transitive newerConversation.
Proof. intros a b c. unfold newerConversation. lia. Qed.

#[local] Instance newerConversation_total : Total newerConversation.
Proof. intros a b. unfold newerConversation. lia. Qed.

(** X11.  Pages of a conversation's history fit together: the page of
    [l1] messages at [offset] followed by the page of [l2] at
    [offset + l1] is the page of [l1 + l2] at [offset].  A first page
    with room for the whole conversation holds each of its messages
    once; every page is ordered oldest first; past the end a page is
    empty. *)
Theorem history_pages_compose (db : Db) (cid : string) (offset l1 l2 : nat) :
  let page l o := getConversationMessages db cid (Some l) (Some o) in
  let all := filter (fun m => m_conversation_id m = cid) (messages db) in
  page l1 offset ++ page l2 (offset + l1)%nat = page (l1 + l2)%nat offset
  /\ (forall n, (length all <= n)%nat -> page n 0%nat ≡ₚ all)
  /\ StronglySorted olderMessage (page l1 offset)
  /\ ((length all <= offset)%nat -> page l1 offset = []).
Proof.
  intros page all. unfold page, getConversationMessages. cbn [default].
  unfold id. fold all. set (sorted := merge_sort olderMessage all).
  assert (Hperm : sorted ≡ₚ all) by apply merge_sort_Permutation.
  assert (Hsorted : StronglySorted olderMessage sorted)
    by apply (StronglySorted_merge_sort olderMessage).
  repeat split.
  - rewrite <- (drop_drop sorted l1 offset). apply take_take_drop.
  - intros n Hn. rewrite drop_0, take_ge; [exact Hperm|]. now rewrite Hperm.
  - rewrite <- (take_drop offset sorted) in Hsorted.
    apply StronglySorted_app_1_r in Hsorted.
    rewrite <- (take_drop l1 (drop offset sorted)) in Hsorted.
    now apply StronglySorted_app_1_l in Hsorted.
  - intros Hlen. rewrite drop_ge; [apply take_nil|]. now rewrite Hperm.
Qed.

(** X12.  [getResponseToMessage] finds nothing exactly when no stored
    message answers [mid]; otherwise it returns a stored answer to
    [mid] that no other answer to [mid] predates. *)
Theorem getResponseToMessage_earliest (db : Db) (mid : string) :
  match getResponseToMessage db mid with
  | Some r =>
      r ∈ messages db /\ m_response_to_id r = Some mid
      /\ forall r', r' ∈ messages db -> m_response_to_id r' = Some mid ->
           (m_created_at r <= m_created_at r')%Z
  | None =>
      forall r', r' ∈ messages db -> m_response_to_id r' <> Some mid
  end.
Proof.
  unfold getResponseToMessage.
  set (answers := filter (fun m => m_response_to_id m = Some mid) (messages db)).
  set (sorted := merge_sort olderMessage answers).
  assert (Hperm : sorted ≡ₚ answers) by apply merge_sort_Permutation.
  assert (Hsorted : StronglySorted olderMessage sorted)
    by apply (StronglySorted_merge_sort olderMessage).
  destruct sorted as [|r rest]; cbn [head].
  - intros r' Hin Hresp. apply Permutation_nil in Hperm.
    assert (r' ∈ answers) as Hr' by (apply list_elem_of_filter; auto).
    rewrite Hperm in Hr'. now apply not_elem_of_nil in Hr'.
  - assert (r ∈ answers) as Hr by (rewrite <- Hperm; apply list_elem_of_here).
    apply list_elem_of_filter in Hr as [Hresp Hin].
    do 2 (split; [assumption|]). intros r' Hin' Hresp'.
    assert (r' ∈ r :: rest) as Hr'
      by (rewrite Hperm; apply list_elem_of_filter; auto).
    apply StronglySorted_inv in Hsorted as [_ Hall].
    apply elem_of_cons in Hr' as [->|Hr']; [lia|].
    rewrite Forall_forall in Hall. now apply Hall.
Qed.

(** X13.  [getPendingMessagesForTarget] returns stored messages for the
    target whose status is [pending], urgent before high before normal
    and oldest first within a priority; there are [limit] of them (10
    when no limit is given), or all the pending ones when those are
    fewer; and the pending ones left out all rank after the ones
    returned. *)
Theorem getPendingMessagesForTarget_selects (db : Db) (target : ClientId)
    (limit : option nat) :
  let waiting := filter (pendingFor target) (messages db) in
  let result := getPendingMessagesForTarget db target limit in
  (forall m, m ∈ result ->
     m ∈ messages db /\ m_target m = target /\ m_status m = pending)
  /\ StronglySorted moreUrgent result
  /\ length result = Nat.min (default 10%nat limit) (length waiting)
  /\ exists rest,
       waiting ≡ₚ result ++ rest
       /\ StronglySorted moreUrgent (result ++ rest).
Proof.
  intros waiting result.
  set (sorted := merge_sort moreUrgent waiting).
  assert (Hperm : sorted ≡ₚ waiting) by apply merge_sort_Permutation.
  assert (Hsorted : StronglySorted moreUrgent sorted)
    by apply (StronglySorted_merge_sort moreUrgent).
  assert (Hsplit : result ++ drop (default 10%nat limit) sorted = sorted)
    by apply take_drop.
  split; [|split; [|split]].
  - intros m Hm. assert (m ∈ waiting) as Hin.
    { rewrite <- Hperm, <- Hsplit. apply elem_of_app. now left. }
    apply list_elem_of_filter in Hin as [[Ht Hs] Hin]. auto.
  - rewrite <- Hsplit in Hsorted. now apply StronglySorted_app_1_l in Hsorted.
  - unfold result, getPendingMessagesForTarget. fold waiting. fold sorted.
    rewrite length_take. now rewrite Hperm.
  - exists (drop (default 10%nat limit) sorted). rewrite Hsplit.
    split; [now symmetry | exact Hsorted].
Qed.

Lemma NoDup_fmap_sublist {A B} (f : A -> B) (l k : list A) :
  l `sublist_of` k -> NoDup (f <$> k) -> NoDup (f <$> l).
Proof.
  intros Hsub Hnd. eapply sublist_NoDup; [exact Hnd|]. now apply fmap_sublist.
Qed.

(** X14.  [listConversations], the conversation ids being the primary
    key: every conversation listed is stored, has the status asked for
    ([active] when none is) and, when a participant is given, holds a
    message sent by or to that participant; no conversation is listed
    twice, however many of its messages match; the list is ordered by
    [updated_at], newest first, and is no longer than the limit (20 when
    none is given). *)
Theorem listConversations_selects (db : Db) (opts : ListConversationsOpts) :
  NoDup (cv_id <$> conversations db) ->
  let result := listConversations db opts in
  (forall c, c ∈ result ->
     c ∈ conversations db
     /\ hasStatus (default (OnlyStatus active) (lc_status opts)) c
     /\ forall p, lc_participant opts = Some p ->
          exists m, m ∈ messages db /\ m_conversation_id m = cv_id c
                    /\ (m_sender m = p \/ m_target m = p))
  /\ NoDup (cv_id <$> result)
  /\ StronglySorted newerConversation result
  /\ (length result <= default 20%nat (lc_limit opts))%nat.
Proof.
  intros Hkey result. unfold result, listConversations.
  set (status := default (OnlyStatus active) (lc_status opts)).
  set (joined := match lc_participant opts with
                 | Some p => filter (involves db p) (conversations db)
                 | None => conversations db
                 end).
  set (sorted := merge_sort newerConversation (filter (hasStatus status) joined)).
  assert (Hperm : sorted ≡ₚ filter (hasStatus status) joined)
    by apply merge_sort_Permutation.
  assert (Hsorted : StronglySorted newerConversation sorted)
    by apply (StronglySorted_merge_sort newerConversation).
  assert (Hjoined : joined `sublist_of` conversations db).
  { unfold joined. destruct (lc_participant opts); [apply sublist_filter | done]. }
  assert (Hpage : take (default 20%nat (lc_limit opts))
                    (drop (default 0%nat (lc_offset opts)) sorted)
                  `sublist_of` sorted).
  { etrans; [apply sublist_take | apply sublist_drop]. }
  split; [|split; [|split]].
  - intros c Hc. eapply elem_of_sublist in Hc; [|exact Hpage].
    rewrite Hperm in Hc. apply list_elem_of_filter in Hc as [Hst Hc].
    split; [eapply elem_of_sublist; eauto|]. split; [exact Hst|].
    intros p Hp. unfold joined in Hc. rewrite Hp in Hc.
    apply list_elem_of_filter in Hc as [Hinv _].
    unfold involves in Hinv. apply Exists_exists in Hinv as (m & Hm & Hc & Hp').
    eauto.
  - apply (NoDup_fmap_sublist _ _ sorted Hpage).
    rewrite Hperm.
    apply (NoDup_fmap_sublist _ _ (conversations db)); [|exact Hkey].
    etrans; [apply sublist_filter | exact Hjoined].
  - rewrite <- (take_drop (default 0%nat (lc_offset opts)) sorted) in Hsorted.
    apply StronglySorted_app_1_r in Hsorted.
    rewrite <- (take_drop (default 20%nat (lc_limit opts))
                  (drop (default 0%nat (lc_offset opts)) sorted)) in Hsorted.
    now apply StronglySorted_app_1_l in Hsorted.
  - rewrite length_take. lia.
Qed.

Lemma getConversation_id (db : Db) (cid : string) (c : Conversation) :
  getConversation db cid = Some c -> cv_id c = cid.
Proof.
  unfold getConversation. intros H. apply find_some in H as [_ H].
  now apply String.eqb_eq.
Qed.

(** X15.  [closeConversation].  For an id that is not stored it
    answers [null] and leaves the store as it was.  For a stored id it
    answers the row with status [completed], [closed_at] and
    [updated_at] set to now (also when the conversation was closed
    before), the summary replaced when one is given and kept otherwise,
    and the other columns untouched.  Other conversations and the other
    tables are not written. *)
Theorem closeConversation_effect (db : Db) (cid : string)
    (summary : option string) (now : Z) :
  let db' := (closeConversation db cid summary now).1 in
  match getConversation db cid with
  | None => closeConversation db cid summary now = (db, None)
  | Some c =>
      (closeConversation db cid summary now).2
      = Some {| cv_id := cid; cv_title := cv_title c;
                cv_project := cv_project c; cv_status := completed;
                cv_created_by := cv_created_by c;
                cv_created_at := cv_created_at c; cv_updated_at := now;
                cv_closed_at := Some now;
                cv_summary := match summary with
                              | Some s => Some s
                              | None => cv_summary c
                              end;
                cv_metadata := cv_metadata c |}
  end
  /\ (forall other, other <> cid ->
        getConversation db' other = getConversation db other)
  /\ messages db' = messages db
  /\ message_queue db' = message_queue db
  /\ clients db' = clients db.
Proof.
  intros db'. unfold db', closeConversation, updateConversation.
  cbn [fst snd cu_title cu_status cu_summary isClosing default].
  set (upd := fun c : Conversation => if String.eqb (cv_id c) cid then _ else c).
  assert (Hid : forall other c,
             String.eqb (cv_id (upd c)) other = String.eqb (cv_id c) other).
  { intros other c. unfold upd. now destruct (String.eqb (cv_id c) cid). }
  split; [|split; [|repeat split]].
  - unfold getConversation at 2 3. cbn [conversations].
    rewrite (find_map_update _ upd) by (intros c; apply Hid).
    fold (getConversation db cid).
    destruct (getConversation db cid) as [c|] eqn:Hc; cbn [option_map].
    + apply getConversation_id in Hc as Hcid. unfold upd.
      rewrite Hcid, String.eqb_refl. reflexivity.
    + f_equal. destruct db as [cl cv ms q]. cbn. f_equal.
      rewrite <- (map_id cv) at 2. apply map_ext_in. intros c Hin.
      unfold getConversation in Hc. cbn in Hc.
      eapply find_none in Hc; [|exact Hin]. cbn in Hc. unfold upd.
      now rewrite Hc.
  - intros other Hne. unfold getConversation. cbn [conversations].
    rewrite (find_map_update _ upd) by (intros c; apply Hid).
    destruct (find _ _) as [c|] eqn:Hc; cbn [option_map]; [|reflexivity].
    apply find_some in Hc as [_ Hc]. apply String.eqb_eq in Hc.
    unfold upd. destruct (String.eqb (cv_id c) cid) eqn:E; [|reflexivity].
    apply String.eqb_eq in E. congruence.
Qed.

(** X16.  A conversation whose status is [completed] or [archived]
    carries a closing time: this holds of a migrated database and is
    kept by [createConversation], by every [updateConversation] (so by
    [closeConversation]) and by [createMessage]. *)
Theorem closedStamped_kept (db : Db) (now : Z) :
  closedStamped (migrate now)
  /\ (closedStamped db ->
      (forall input newId db' c,
         createConversation db input newId now = Some (db', c) ->
         closedStamped db')
      /\ (forall cid updates, closedStamped (updateConversation db cid updates now).1)
      /\ (forall input newId db' m,
            createMessage db input newId now = Some (db', m) ->
            closedStamped db')).
Proof.
  unfold closedStamped. split; [apply Forall_nil_2|].
  intros Hinv. split; [|split].
  - intros input newId db' c Hc. unfold createConversation in Hc.
    destruct (existsb _ _) eqn:Hfresh; [discriminate|].
    destruct (negb _); [discriminate|].
    unfold getConversation in Hc. cbn [conversations] in Hc.
    rewrite QueueFacts.find_app_fresh in Hc;
      [| exact Hfresh | cbn; apply String.eqb_refl].
    cbn in Hc. injection Hc as <- <-. cbn [conversations].
    apply Forall_app. split; [exact Hinv|].
    apply Forall_singleton. cbn. discriminate.
  - intros cid updates. unfold updateConversation. cbn [fst conversations].
    rewrite Forall_forall in Hinv. rewrite Forall_forall. intros c Hc.
    apply list_elem_of_In, in_map_iff in Hc as (c0 & <- & Hc0).
    apply list_elem_of_In in Hc0. specialize (Hinv _ Hc0).
    destruct (String.eqb (cv_id c0) cid); [|exact Hinv].
    cbn [cv_status cv_closed_at].
    destruct (cu_status updates) as [st|]; cbn [default from_option];
      [|exact Hinv].
    unfold id. intros ->. eauto.
  - intros input newId db' m Hm.
    apply createMessage_Some in Hm as (_ & _ & -> & _).
    rewrite Forall_forall in Hinv. rewrite Forall_forall. intros c Hc.
    apply list_elem_of_In, in_map_iff in Hc as (c0 & <- & Hc0).
    apply list_elem_of_In in Hc0. specialize (Hinv _ Hc0).
    unfold touchConversation.
    now destruct (String.eqb (cv_id c0) (cmi_conversation_id input)).
Qed.

End StoreMoreFacts.

(** ** Sessions, the registry and the clients table *)

Module HttpFacts.

Import JsString Store Registry QueueProcessor Transport Http StoreFacts.

Lemma rowOf_clients (d d' : Db) (c : ClientId) :
  clients d' = clients d -> rowOf d' c = rowOf d c.
Proof. unfold rowOf, getClient. now intros ->. Qed.

Lemma rowOf_updateClientStatus (d : Db) (c c' : ClientId) (st : ClientStatus)
    (sid : option string) (now : Z) :
  rowOf (updateClientStatus d c st sid now) c'
  = if bool_decide (c = c') then (fun _ => (st, sid)) <$> rowOf d c'
    else rowOf d c'.
Proof.
  unfold rowOf, getClient, updateClientStatus. cbn [clients].
  rewrite find_map_update
    by (intros row; now destruct (bool_decide (c_id row = c))).
  destruct (find _ _) as [row|] eqn:Hrow; cbn;
    [|now destruct (bool_decide (c = c'))].
  apply find_some in Hrow as [_ Hrow]. apply bool_decide_eq_true in Hrow.
  rewrite Hrow. destruct (decide (c' = c)) as [->|Hne].
  - now rewrite !bool_decide_eq_true_2.
  - rewrite (bool_decide_eq_false_2 (c' = c)) by exact Hne.
    now rewrite (bool_decide_eq_false_2 (c = c')) by congruence.
Qed.

Lemma rowOf_setClientOffline (d : Db) (c c' : ClientId) :
  rowOf (setClientOffline d c) c'
  = if bool_decide (c = c') then (fun _ => (offline, None)) <$> rowOf d c'
    else rowOf d c'.
Proof.
  unfold rowOf, getClient, setClientOffline. cbn [clients].
  rewrite find_map_update
    by (intros row; now destruct (bool_decide (c_id row = c))).
  destruct (find _ _) as [row|] eqn:Hrow; cbn;
    [|now destruct (bool_decide (c = c'))].
  apply find_some in Hrow as [_ Hrow]. apply bool_decide_eq_true in Hrow.
  rewrite Hrow. destruct (decide (c' = c)) as [->|Hne].
  - now rewrite !bool_decide_eq_true_2.
  - rewrite (bool_decide_eq_false_2 (c' = c)) by exact Hne.
    now rewrite (bool_decide_eq_false_2 (c = c')) by congruence.
Qed.

Lemma isClientOnline_rowOf (d : Db) (c : ClientId) :
  isClientOnline d c
  = from_option (fun r => bool_decide (r.1 = online)) false (rowOf d c).
Proof. unfold isClientOnline, rowOf. now destruct (getClient d c). Qed.

Lemma attemptDelivery_clients (d : Db) (t : ClientId) (item : QueuedMessage)
    (now : Z) :
  clients (attemptDelivery d t item now).1 = clients d.
Proof.
  unfold attemptDelivery. destruct (getMessage _ _); [|reflexivity].
  now destruct (negb _).
Qed.

Lemma deliverAll_clients (d : Db) (t : ClientId) (queued : list QueuedMessage)
    (now : Z) :
  clients (deliverAll d t queued now).1 = clients d.
Proof.
  revert d. induction queued as [|item rest IH]; intros d; [reflexivity|].
  cbn [deliverAll].
  destruct (attemptDelivery d t item now) as [d1 res] eqn:E1.
  destruct (deliverAll d1 t rest now) as [d2 ress] eqn:E2. cbn [fst].
  change d2 with (d2, ress).1. rewrite <- E2, IH.
  change d1 with (d1, res).1. rewrite <- E1. apply attemptDelivery_clients.
Qed.

Lemma processQueueForTarget_clients (d : Db) (t : ClientId) (now : Z) :
  clients (processQueueForTarget d t now).1 = clients d.
Proof.
  unfold processQueueForTarget. destruct (negb _); [reflexivity|].
  apply deliverAll_clients.
Qed.

Lemma processQueue_clients (d : Db) (now : Z) :
  clients (processQueue d now) = clients d.
Proof.
  unfold processQueue, CLIENTS. cbn [fold_left].
  now rewrite !processQueueForTarget_clients.
Qed.

Lemma rowOf_offline_all (d : Db) (l : list (string * option ClientId))
    (c : ClientId) :
  rowOf (foldr (fun entry d =>
                  match entry.2 with
                  | Some c => setClientOffline d c
                  | None => d
                  end) d l) c
  = if bool_decide (Some c ∈ l.*2)
    then (fun _ => (offline, None)) <$> rowOf d c
    else rowOf d c.
Proof.
  induction l as [|[sid [c'|]] l IH]; cbn [foldr snd].
  - now rewrite bool_decide_eq_false_2 by apply not_elem_of_nil.
  - rewrite rowOf_setClientOffline, IH, fmap_cons. cbn [snd].
    destruct (decide (c' = c)) as [->|Hne].
    + rewrite bool_decide_eq_true_2 by reflexivity.
      rewrite (bool_decide_eq_true_2 (Some c ∈ Some c :: l.*2))
        by apply list_elem_of_here.
      destruct (bool_decide (Some c ∈ l.*2)); [|reflexivity].
      now destruct (rowOf d c).
    + rewrite (bool_decide_eq_false_2 (c' = c)) by exact Hne.
      rewrite (bool_decide_ext (Some c ∈ Some c' :: l.*2) (Some c ∈ l.*2));
        [reflexivity|].
      rewrite elem_of_cons. split; [|tauto]. intros [[=]|H]; congruence.
  - rewrite IH, fmap_cons. cbn [snd].
    rewrite (bool_decide_ext (Some c ∈ None :: l.*2) (Some c ∈ l.*2));
      [reflexivity|].
    rewrite elem_of_cons. split; [|tauto]. now intros [[=]|H].
Qed.

(** X17.  The session hooks keep the registry and the [clients] table
    in step.  [inStep] holds of a process started on an empty database
    file; it is kept when a session with an unused id is initialised,
    when a session closes, at every run of the queue timer and by the
    shutdown hook, after which the registry is empty.  While it holds
    the registry and the table give the same answer about every
    client. *)
Theorem hooks_keep_registry_and_table_in_step (s : Server) (now : Z) :
  inStep (newServer now)
  /\ (inStep s ->
      (forall clientId sid,
         sessions s !! sid = None ->
         inStep (sessionInitialized s clientId sid now))
      /\ (forall sid, inStep (sessionClosed s sid))
      /\ inStep (tick s now)
      /\ (inStep (shutdown s) /\ clientRegistry (shutdown s) = ∅)
      /\ (forall c, isOnline (clientRegistry s) c = isClientOnline (db s) c)).
Proof.
  split; [now intros []|]. intros Hinv. split; [|split; [|split; [|split]]].
  - intros [c|] sid Hfresh c'; unfold sessionInitialized, onsessioninitialized,
      onClientOnline, setOnline; cbn [sessions clientRegistry db].
    + rewrite (rowOf_clients (updateClientStatus (db s) c online (Some sid) now))
        by apply processQueueForTarget_clients.
      rewrite rowOf_updateClientStatus, lookup_insert.
      specialize (Hinv c') as Hc'. destruct (decide (c = c')) as [->|Hne].
      * rewrite bool_decide_eq_true_2 by reflexivity.
        rewrite lookup_insert_eq. split; [|reflexivity].
        destruct (clientRegistry s !! c') as [sid'|];
          [destruct Hc' as [-> _] | rewrite Hc']; reflexivity.
      * rewrite bool_decide_eq_false_2 by exact Hne.
        destruct (clientRegistry s !! c') as [sid'|]; [|exact Hc'].
        destruct Hc' as [Hrow Hsess]. split; [exact Hrow|].
        rewrite lookup_insert_ne; [exact Hsess | congruence].
    + specialize (Hinv c') as Hc'.
      destruct (clientRegistry s !! c') as [sid'|]; [|exact Hc'].
      destruct Hc' as [Hrow Hsess]. split; [exact Hrow|].
      rewrite lookup_insert_ne; [exact Hsess | congruence].
  - intros sid c'. unfold sessionClosed. destruct (truthy sid); [|apply Hinv].
    specialize (Hinv c') as Hc'.
    destruct (sessions s !! sid) as [[c|]|] eqn:Hsid;
      unfold onclose, setOffline; cbn [sessions clientRegistry db].
    + rewrite rowOf_setClientOffline, lookup_delete.
      destruct (decide (c = c')) as [->|Hne].
      * rewrite bool_decide_eq_true_2 by reflexivity.
        destruct (clientRegistry s !! c') as [sid'|];
          [destruct Hc' as [-> _] | rewrite Hc']; reflexivity.
      * rewrite bool_decide_eq_false_2 by exact Hne.
        destruct (clientRegistry s !! c') as [sid'|]; [|exact Hc'].
        destruct Hc' as [Hrow Hsess]. split; [exact Hrow|].
        rewrite lookup_delete_ne; [exact Hsess | congruence].
    + destruct (clientRegistry s !! c') as [sid'|]; [|exact Hc'].
      destruct Hc' as [Hrow Hsess]. split; [exact Hrow|].
      rewrite lookup_delete_ne; [exact Hsess | congruence].
    + destruct (clientRegistry s !! c') as [sid'|]; [|exact Hc'].
      destruct Hc' as [Hrow Hsess]. split; [exact Hrow|].
      rewrite lookup_delete_ne; [exact Hsess | congruence].
  - intros c. unfold tick. cbn [sessions clientRegistry db].
    rewrite (rowOf_clients (db s)) by apply processQueue_clients.
    apply Hinv.
  - split; [|reflexivity]. intros c. unfold shutdown, clear.
    cbn [sessions clientRegistry db]. rewrite lookup_empty, rowOf_offline_all.
    specialize (Hinv c) as Hc.
    destruct (clientRegistry s !! c) as [sid|].
    + destruct Hc as [Hrow Hsess]. rewrite Hrow.
      rewrite bool_decide_eq_true_2; [reflexivity|].
      apply list_elem_of_fmap. exists (sid, Some c). split; [reflexivity|].
      now apply elem_of_map_to_list.
    + rewrite Hc. now destruct (bool_decide _).
  - intros c. unfold isOnline. rewrite isClientOnline_rowOf.
    specialize (Hinv c) as Hc. destruct (clientRegistry s !! c) as [sid|].
    + destruct Hc as [-> _]. reflexivity.
    + rewrite Hc. reflexivity.
Qed.

(** X18.  A session that closes marks its client offline in the
    registry and in the table whether or not another session of the
    same client is still on record. *)
Theorem closing_one_session_marks_client_offline (s : Server)
    (sid other : string) (c : ClientId) :
  truthy sid = true ->
  sid <> other ->
  sessions s !! sid = Some (Some c) ->
  sessions s !! other = Some (Some c) ->
  let s' := sessionClosed s sid in
  sessions s' !! other = Some (Some c)
  /\ isOnline (clientRegistry s') c = false
  /\ isClientOnline (db s') c = false.
Proof.
  intros Htruthy Hne Hsid Hother s'. unfold s', sessionClosed.
  rewrite Htruthy, Hsid. unfold onclose, setOffline.
  cbn [sessions clientRegistry db]. split; [|split].
  - now rewrite lookup_delete_ne.
  - unfold isOnline. rewrite lookup_delete_eq.
    apply bool_decide_eq_false_2. now intros [? [=]].
  - rewrite isClientOnline_rowOf, rowOf_setClientOffline.
    rewrite bool_decide_eq_true_2 by reflexivity.
    now destruct (rowOf (db s) c).
Qed.

End HttpFacts.

(** ** The dispatcher: what a call leaves in the store *)

Module DispatcherMoreFacts.

Import JsString Agents Store Registry Dispatcher.
Import QueueFacts StoreFacts DispatcherFacts.

Lemma getResponseToMessage_Some (db : Db) (mid : string) (r : Message) :
  getResponseToMessage db mid = Some r ->
  In r (messages db) /\ m_response_to_id r = Some mid.
Proof.
  unfold getResponseToMessage. intros H.
  assert (r ∈ merge_sort olderMessage
            (filter (fun m => m_response_to_id m = Some mid) (messages db)))
    as Hin.
  { destruct (merge_sort _ _) as [|x l]; [discriminate|].
    cbn in H. injection H as ->. apply list_elem_of_here. }
  rewrite merge_sort_Permutation in Hin.
  apply list_elem_of_filter in Hin as [Hresp Hin].
  split; [now apply list_elem_of_In | exact Hresp].
Qed.

(** The answer in the result of [finish]: the one handed in, or one the
    poll read from the store. *)
Lemma finish_response (db db' : Db) (opts : SendMessageOpts)
    (res r : SendMessageResult) (resp : Message) :
  finish db opts res = Some (db', r) ->
  r_response r = Some resp ->
  r_response res = Some resp
  \/ (r_response res = None
      /\ getResponseToMessage db (m_id (r_message res)) = Some resp).
Proof.
  unfold finish, waitForResponse. intros H Hresp.
  destruct (r_response res) as [given|] eqn:Hgiven.
  - rewrite andb_false_r in H. injection H as <- <-. left. congruence.
  - destruct (_ && _).
    + destruct (0 <? _)%Z.
      * destruct (getResponseToMessage _ _) as [polled|] eqn:Hp;
          injection H as <- <-; cbn in Hresp; [right | congruence].
        split; [reflexivity | congruence].
      * injection H as <- <-. congruence.
    + injection H as <- <-. congruence.
Qed.

Lemma map_update_fresh (mid : string) (st : MessageStatus) (now : Z)
    (l : list Message) :
  existsb (fun m => String.eqb (m_id m) mid) l = false ->
  map (fun m => if String.eqb (m_id m) mid then withStatus m st now else m) l = l.
Proof.
  induction l as [|m l IH]; [reflexivity|]. cbn.
  intros H. apply orb_false_iff in H as [-> H]. now rewrite IH.
Qed.

Lemma find_app_first {A} (f : A -> bool) (l rest : list A) (x : A) :
  existsb f l = false -> f x = true -> find f (l ++ x :: rest) = Some x.
Proof.
  intros Hl Hx. induction l as [|y l IH]; cbn in *; [now rewrite Hx|].
  apply orb_false_iff in Hl as [-> Hl]. now apply IH.
Qed.

Section WithEnvironment.

Variable toLowerCase : string -> string.
Variable codexSend : string -> string -> AgentPersona -> option CodexCallResult.
Variable invokeCodexExec : Message -> string -> Z -> bool -> InvocationResult.

Abbreviation send := (sendMessage toLowerCase codexSend invokeCodexExec).

(** What a [sendMessage] call that returns has written, route by
    route, and where the answer in its result comes from. *)
Lemma sendMessage_effect (registry : option ClientRegistry) (enabled : bool)
    (db db' : Db) (opts : SendMessageOpts) (convId msgId respId : string)
    (now : Z) (r : SendMessageResult) :
  send registry enabled db opts convId msgId respId now = Some (db', r) ->
  let msg := newMessageRow (messageInput opts (r_conversation r)) msgId now in
  r_message r = msg
  /\ messageExists db msgId = false
  /\ clients db' = clients db
  /\ ((targetOnline registry (target opts) = true
       /\ messages db' = messages db ++ [withStatus msg delivered now]
       /\ message_queue db' = message_queue db
       /\ forall resp, r_response r = Some resp ->
            getResponseToMessage db' msgId = Some resp)
      \/ (targetOnline registry (target opts) = false
          /\ target opts = codex
          /\ message_queue db' = message_queue db
          /\ ((messages db' = messages db ++ [msg]
               /\ forall resp, r_response r = Some resp ->
                    getResponseToMessage db' msgId = Some resp)
              \/ exists text,
                   let answer :=
                     newMessageRow
                       (answerInput opts (r_conversation r) msg text)
                       respId now in
                   messages db'
                   = messages db ++ [withStatus msg responded now; answer]
                   /\ r_response r = Some answer
                   /\ respId <> msgId))
      \/ (targetOnline registry (target opts) = false
          /\ target opts <> codex
          /\ messages db' = messages db ++ [msg]
          /\ (exists row,
                message_queue db' = message_queue db ++ [row]
                /\ q_message_id row = msgId /\ q_target row = target opts
                /\ q_attempts row = 0%nat /\ q_max_attempts row = 5%Z
                /\ q_next_attempt row = now
                /\ clientExists db (target opts) = true)
          /\ forall resp, r_response r = Some resp ->
               getResponseToMessage db' msgId = Some resp)).
Proof.
  unfold sendMessage. intros H.
  change (match conversationId opts with
          | Some cid => _
          | None => _
          end) with (resolveConversation db opts convId now) in H.
  destruct (resolveConversation db opts convId now) as [[db1 conv]|] eqn:Hres;
    [|discriminate].
  cbn [mbind option_bind] in H.
  change (createMessage db1 _ msgId now)
    with (createMessage db1 (messageInput opts conv) msgId now) in H.
  destruct (createMessage db1 (messageInput opts conv) msgId now)
    as [[db2 msg]|] eqn:Hmsg; [|discriminate].
  cbn [mbind option_bind] in H.
  change (match registry with Some r => isOnline r (target opts) | None => false end)
    with (targetOnline registry (target opts)) in H.
  assert (messages db1 = messages db /\ message_queue db1 = message_queue db
          /\ clients db1 = clients db) as (Hm1 & Hq1 & Hc1).
  { unfold resolveConversation in Hres.
    assert (forall input,
              createConversation db input convId now = Some (db1, conv) ->
              messages db1 = messages db /\ message_queue db1 = message_queue db
              /\ clients db1 = clients db) as Hcreate.
    { intros input Hc. apply createConversation_Some in Hc. tauto. }
    destruct (conversationId opts) as [c|]; [|exact (Hcreate _ Hres)].
    destruct (truthy c); [|exact (Hcreate _ Hres)].
    destruct (getConversation db c); [|discriminate].
    cbn in Hres. now injection Hres as <- <-. }
  apply createMessage_Some in Hmsg
    as (Hrow & Hm2 & _ & Hq2 & Hc2 & _ & Hfresh1).
  assert (messageExists db msgId = false) as Hfresh
    by (unfold messageExists in *; now rewrite <- Hm1).
  assert (m_id msg = msgId) as Hid by now rewrite Hrow.
  assert (forall st,
            messages (updateMessageStatus db2 (m_id msg) st now)
            = messages db ++ [withStatus msg st now]) as Hupd.
  { intros st. unfold updateMessageStatus. cbn [messages].
    rewrite Hm2, Hm1, map_app, map_update_fresh
      by (rewrite Hid; exact Hfresh).
    cbn [map]. now rewrite String.eqb_refl. }
  assert (forall d res,
            finish d opts res = Some (db', r) ->
            r_message res = msg -> r_conversation res = conv ->
            r_response res = None ->
            db' = d /\ r_message r = msg /\ r_conversation r = conv
            /\ forall resp, r_response r = Some resp ->
                 getResponseToMessage db' msgId = Some resp) as Hpolled.
  { intros d res Hf Hrm Hrc Hnone.
    pose proof (finish_Some _ _ _ _ _ Hf) as (-> & Hm & Hc & _).
    do 3 (split; [congruence|]). intros resp Hresp.
    destruct (finish_response _ _ _ _ _ _ Hf Hresp) as [Hgiven|[_ Hpoll]];
      [congruence|].
    now rewrite Hrm, Hid in Hpoll. }
  assert (forall d res answer,
            finish d opts res = Some (db', r) ->
            r_message res = msg -> r_conversation res = conv ->
            r_response res = Some answer ->
            db' = d /\ r_message r = msg /\ r_conversation r = conv
            /\ r_response r = Some answer) as Hinline.
  { intros d res answer Hf Hrm Hrc Hsome.
    pose proof (finish_Some _ _ _ _ _ Hf) as (-> & Hm & Hc & _).
    do 3 (split; [congruence|]).
    unfold finish in Hf. rewrite Hsome, andb_false_r in Hf.
    injection Hf as <-. exact Hsome. }
  cbv zeta.
  destruct (targetOnline registry (target opts)) eqn:Hon.
  - apply Hpolled in H as (-> & Hrm & Hrc & Hpoll); [|reflexivity..].
    rewrite Hrc, <- Hrow. split; [exact Hrm|]. split; [exact Hfresh|].
    split; [cbn; congruence|]. left.
    split; [reflexivity|]. split; [apply Hupd|].
    split; [cbn; congruence | exact Hpoll].
  - destruct (bool_decide (target opts = codex)) eqn:Hcodex.
    + apply bool_decide_eq_true in Hcodex.
      assert (forall db3 answer text st,
                createMessage db2 (answerInput opts conv msg text) respId now
                = Some (db3, answer) ->
                answer = newMessageRow (answerInput opts conv msg text) respId now
                /\ messages (updateMessageStatus db3 (m_id msg) st now)
                   = messages db ++ [withStatus msg st now; answer]
                /\ message_queue db3 = message_queue db
                /\ clients db3 = clients db
                /\ respId <> msgId) as Hanswer.
      { intros db3 answer text st Hans.
        apply createMessage_Some in Hans
          as (Harow & Hm3 & _ & Hq3 & Hc3 & _ & Hfresh3).
        assert (respId <> msgId) as Hne.
        { intros ->. unfold messageExists in Hfresh3. rewrite Hm2 in Hfresh3.
          rewrite existsb_app_last, Hid, String.eqb_refl, orb_true_r in Hfresh3.
          discriminate. }
        split; [exact Harow|]. split; [|repeat split; congruence].
        unfold updateMessageStatus. cbn [messages].
        rewrite Hm3, Hm2, Hm1, !map_app, map_update_fresh
          by (rewrite Hid; exact Hfresh).
        cbn [map]. rewrite String.eqb_refl.
        assert (String.eqb (m_id answer) (m_id msg) = false) as ->.
        { apply String.eqb_neq. rewrite Harow, Hid. exact Hne. }
        now rewrite <- app_assoc. }
      destruct (tryCodexMcpServer _ _ _ _ _ _) as [mcpResult|].
      * change (createMessage db2 _ respId now)
          with (createMessage db2 (answerInput opts conv msg mcpResult) respId now)
          in H.
        destruct (createMessage db2 _ respId now) as [[db3 answer]|] eqn:Hans;
          [|discriminate].
        cbn [mbind option_bind] in H.
        destruct (Hanswer _ _ _ responded Hans) as (Harow & Hm3 & Hq3 & Hc3 & Hne).
        apply (Hinline _ _ answer) in H as (-> & Hrm & Hrc & Hresp);
          [|reflexivity..].
        rewrite Hrc, <- Hrow. split; [exact Hrm|]. split; [exact Hfresh|].
        split; [exact Hc3|]. right. left.
        split; [reflexivity|]. split; [exact Hcodex|]. split; [exact Hq3|].
        right. exists mcpResult. rewrite <- Harow. auto.
      * destruct (from_option truthy false _) eqn:Hhas.
        -- match type of H with
           | context [createMessage db2 ?i respId now] =>
               change (createMessage db2 i respId now)
                 with (createMessage db2
                         (answerInput opts conv msg (cmi_content i)) respId now)
                 in H;
               destruct (createMessage db2
                           (answerInput opts conv msg (cmi_content i))
                           respId now) as [[db3 answer]|] eqn:Hans;
               [|discriminate]
           end.
           cbn [mbind option_bind] in H.
           destruct (Hanswer _ _ _ responded Hans)
             as (Harow & Hm3 & Hq3 & Hc3 & Hne).
           apply (Hinline _ _ answer) in H as (-> & Hrm & Hrc & Hresp);
             [|reflexivity..].
           rewrite Hrc, <- Hrow. split; [exact Hrm|]. split; [exact Hfresh|].
           split; [exact Hc3|]. right. left.
           split; [reflexivity|]. split; [exact Hcodex|]. split; [exact Hq3|].
           right. eexists. rewrite <- Harow. auto.
        -- cbn [mbind option_bind] in H.
           apply Hpolled in H as (-> & Hrm & Hrc & Hpoll); [|reflexivity..].
           rewrite Hrc, <- Hrow. split; [exact Hrm|]. split; [exact Hfresh|].
           split; [congruence|]. right. left.
           split; [reflexivity|]. split; [exact Hcodex|].
           split; [congruence|]. left. split; [congruence | exact Hpoll].
    + apply bool_decide_eq_false in Hcodex.
      destruct (enqueueMessage db2 _ now) as [[db3 row]|] eqn:Henq;
        [|discriminate].
      cbn [mbind option_bind] in H.
      pose proof (QueueMoreFacts.enqueueMessage_checked _ _ _ _ _ Henq)
        as (_ & _ & Hknown).
      apply enqueueMessage_Some in Henq as (Hqrow & Hq3 & Hm3 & _ & Hc3).
      apply Hpolled in H as (-> & Hrm & Hrc & Hpoll); [|reflexivity..].
      rewrite Hrc, <- Hrow. split; [exact Hrm|]. split; [exact Hfresh|].
      split; [congruence|]. right. right.
      split; [reflexivity|]. split; [exact Hcodex|].
      split; [congruence|]. split; [|exact Hpoll].
      exists row. split; [congruence|]. rewrite Hqrow. cbn.
      do 5 (split; [first [exact Hid | reflexivity]|]).
      unfold clientExists in *. cbn in Hknown. now rewrite <- Hc1, <- Hc2.
Qed.

(** X19.  The message in the result of [sendMessage] is the row as it
    was inserted, so its status is [pending] on every route.  The row
    in the store differs: it is [delivered], stamped with the time of
    the call, when the registry has the target online; with the target
    offline it is still the inserted row, or marked [responded] when
    codex answered during the call. *)
Theorem sendMessage_reports_inserted_row (registry : option ClientRegistry)
    (enabled : bool) (db db' : Db) (opts : SendMessageOpts)
    (convId msgId respId : string) (now : Z) (r : SendMessageResult) :
  send registry enabled db opts convId msgId respId now = Some (db', r) ->
  let msg := newMessageRow (messageInput opts (r_conversation r)) msgId now in
  r_message r = msg
  /\ m_status (r_message r) = pending
  /\ exists stored,
       getMessage db' msgId = Some stored
       /\ (targetOnline registry (target opts) = true ->
           stored = withStatus msg delivered now)
       /\ (targetOnline registry (target opts) = false ->
           stored = msg
           \/ (target opts = codex /\ is_Some (r_response r)
               /\ stored = withStatus msg responded now)).
Proof.
  intros H. apply sendMessage_effect in H. cbv zeta in H.
  destruct H as (Hrm & Hfresh & _ & Hroute). cbv zeta.
  split; [exact Hrm|]. split; [now rewrite Hrm|].
  set (msg := newMessageRow (messageInput opts (r_conversation r)) msgId now)
    in *.
  assert (forall st rest,
            find (fun m => String.eqb (m_id m) msgId)
                 (messages db ++ withStatus msg st now :: rest)
            = Some (withStatus msg st now)) as Hfind.
  { intros st rest. apply find_app_first; [exact Hfresh|].
    cbn. apply String.eqb_refl. }
  unfold getMessage.
  destruct Hroute as [(Hon & -> & _)
                     |[(Hoff & Hcodex & _ & [[-> _]|(text & -> & Hresp & _)])
                      |(Hoff & _ & -> & _)]].
  - eexists. split; [apply Hfind|]. split; [reflexivity | congruence].
  - exists msg. split; [|split; [congruence | now left]].
    apply find_app_first; [exact Hfresh | cbn; apply String.eqb_refl].
  - eexists. split; [apply Hfind|]. split; [congruence|].
    intros _. right. rewrite Hresp. eauto.
  - exists msg. split; [|split; [congruence | now left]].
    apply find_app_first; [exact Hfresh | cbn; apply String.eqb_refl].
Qed.

(** X20.  [sendMessage] never writes the [clients] table, and it adds
    at most one row to the queue; it adds none when the target is codex
    or when the registry has the target online. *)
Theorem sendMessage_queues_only_for_offline_claude
    (registry : option ClientRegistry) (enabled : bool) (db db' : Db)
    (opts : SendMessageOpts) (convId msgId respId : string) (now : Z)
    (r : SendMessageResult) :
  send registry enabled db opts convId msgId respId now = Some (db', r) ->
  clients db' = clients db
  /\ (target opts = codex \/ targetOnline registry (target opts) = true ->
      message_queue db' = message_queue db)
  /\ exists added,
       message_queue db' = message_queue db ++ added
       /\ (length added <= 1)%nat.
Proof.
  intros H. apply sendMessage_effect in H. cbv zeta in H.
  destruct H as (_ & _ & Hclients & Hroute). split; [exact Hclients|].
  destruct Hroute as [(Hon & _ & Hq & _)
                     |[(Hoff & Hcodex & Hq & _)
                      |(Hoff & Hcodex & _ & (row & Hq & _) & _)]].
  - split; [intros _; exact Hq|]. exists []. rewrite app_nil_r. auto.
  - split; [intros _; exact Hq|]. exists []. rewrite app_nil_r. auto.
  - split; [intros [?|?]; congruence|]. exists [row]. auto.
Qed.

(** X21.  Whenever the result of [sendMessage] carries a response,
    that response is a message of the store whose [response_to_id] is
    the id of the message sent. *)
Theorem sendMessage_response_links_back (registry : option ClientRegistry)
    (enabled : bool) (db db' : Db) (opts : SendMessageOpts)
    (convId msgId respId : string) (now : Z) (r : SendMessageResult)
    (resp : Message) :
  send registry enabled db opts convId msgId respId now = Some (db', r) ->
  r_response r = Some resp ->
  In resp (messages db')
  /\ m_response_to_id resp = Some (m_id (r_message r))
  /\ m_id (r_message r) = msgId.
Proof.
  intros H Hresp. apply sendMessage_effect in H. cbv zeta in H.
  destruct H as (Hrm & _ & _ & Hroute).
  assert (m_id (r_message r) = msgId) as Hid by now rewrite Hrm.
  rewrite Hid. split; [|split; [|reflexivity]].
  - destruct Hroute as [(_ & _ & _ & Hpoll)
                       |[(_ & _ & _ & [[_ Hpoll]|(text & Hm & Hans & _)])
                        |(_ & _ & _ & _ & Hpoll)]];
      try (now apply (getResponseToMessage_Some db' msgId), Hpoll).
    rewrite Hm. apply in_or_app. right. right. left. congruence.
  - destruct Hroute as [(_ & _ & _ & Hpoll)
                       |[(_ & _ & _ & [[_ Hpoll]|(text & Hm & Hans & _)])
                        |(_ & _ & _ & _ & Hpoll)]];
      try (now apply (getResponseToMessage_Some db' msgId), Hpoll).
    rewrite Hans in Hresp. injection Hresp as <-. reflexivity.
Qed.

(** X22.  [sendMessage] leaves every message that was stored before
    the call as it was.  It appends the message sent and, only when the
    target is codex and not online, possibly one answer; each message
    appended goes from the sender to the target or back. *)
Theorem sendMessage_keeps_stored_messages (registry : option ClientRegistry)
    (enabled : bool) (db db' : Db) (opts : SendMessageOpts)
    (convId msgId respId : string) (now : Z) (r : SendMessageResult) :
  send registry enabled db opts convId msgId respId now = Some (db', r) ->
  exists added,
    messages db' = messages db ++ added
    /\ (1 <= length added <= 2)%nat
    /\ (length added = 2%nat ->
        target opts = codex /\ targetOnline registry (target opts) = false)
    /\ Forall (fun m =>
                 (m_sender m = sender opts /\ m_target m = target opts)
                 \/ (m_sender m = target opts /\ m_target m = sender opts))
              added.
Proof.
  intros H. apply sendMessage_effect in H. cbv zeta in H.
  destruct H as (_ & _ & _ & Hroute).
  destruct Hroute as [(Hon & Hm & _)
                     |[(Hoff & Hcodex & _ & [[Hm _]|(text & Hm & _)])
                      |(Hoff & _ & Hm & _)]];
    eexists; (split; [exact Hm|]); cbn [length];
    (split; [lia|]); (split; [first [discriminate | auto]|]);
    repeat apply Forall_cons_2; try apply Forall_nil_2; cbn; auto.
Qed.

End WithEnvironment.

End DispatcherMoreFacts.

(** ** The request filter *)

Module SecurityFacts.

Import JsString Security.

Lemma allowedHosts_port (port port' : N) (h : string) :
  h ∈ allowedHosts port -> h ∈ allowedHosts port' -> port' = port.
Proof.
  unfold allowedHosts. rewrite !elem_of_cons, !elem_of_nil.
  intros [->|[->|[->|[]]]] [H|[H|[H|[]]]];
    first [discriminate H
          | apply (inj (String.append _)) in H; now apply (inj pretty) in H].
Qed.

(** X23.  A request the filter lets through came from a loopback
    address and names, in its [Host] header, one of the three local
    hosts followed by the port of this server, so a server on another
    port would have refused it; and when its path starts with [/mcp] it
    carries no [Origin]. *)
Theorem preHandler_admits (port : N) (req : Request) :
  preHandler port req = Continue ->
  isLoopback (ip req) = true
  /\ (exists name,
        name ∈ ["127.0.0.1"; "localhost"; "[::1]"]
        /\ host req = Some (name +:+ ":" +:+ pretty port))
  /\ (String.prefix "/mcp" (url req) = true ->
      origin req = None \/ origin req = Some EmptyString)
  /\ forall port', preHandler port' req = Continue -> port' = port.
Proof.
  unfold preHandler. intros H.
  destruct (isLoopback (ip req)) eqn:Hip; [|discriminate]. cbn [negb] in H.
  destruct (host req) as [h|] eqn:Hhost; [|discriminate].
  cbn [from_option] in H.
  destruct (truthy h) eqn:Hh; [|discriminate]. cbn [negb orb] in H.
  destruct (bool_decide (h ∈ allowedHosts port)) eqn:Hin; [|discriminate].
  apply bool_decide_eq_true in Hin. cbn [negb] in H.
  split; [reflexivity|]. split; [|split].
  - unfold allowedHosts in Hin.
    rewrite !elem_of_cons, elem_of_nil in Hin.
    destruct Hin as [->|[->|[->|[]]]];
      [exists "127.0.0.1" | exists "localhost" | exists "[::1]"];
      (split; [rewrite !elem_of_cons; auto | reflexivity]).
  - intros Hmcp. rewrite Hmcp in H.
    destruct (origin req) as [o|]; [|now left]. right.
    cbn [from_option] in H. destruct (truthy o) eqn:Ho; [discriminate|].
    unfold truthy in Ho. apply negb_false_iff, String.eqb_eq in Ho.
    now rewrite Ho.
  - intros port' H'. cbn [negb from_option] in H'. rewrite ?Hh in H'.
    cbn [negb orb] in H'.
    destruct (bool_decide (h ∈ allowedHosts port')) eqn:Hin'; [|discriminate].
    apply bool_decide_eq_true in Hin'. eapply allowedHosts_port; eauto.
Qed.

End SecurityFacts.

(** ** From the queue to the reconnecting client *)

Module ReconnectFacts.

Import JsString Agents Store Registry QueueProcessor Dispatcher Transport.
Import StoreMore.
Import QueueFacts StoreFacts DispatcherFacts QueueMoreFacts HttpFacts.
Import DispatcherMoreFacts.

Lemma clientExists_rowOf (d : Db) (c : ClientId) :
  clientExists d c = true -> is_Some (Http.rowOf d c).
Proof.
  unfold clientExists, Http.rowOf, getClient. intros H.
  apply existsb_exists in H as (row & Hin & Hrow).
  destruct (find _ _) eqn:Hf; [cbn; eauto|].
  eapply find_none in Hf; [|exact Hin]. cbn in Hf. congruence.
Qed.

Lemma filter_app_last {A} (P : A -> Prop) `{forall x, Decision (P x)}
    (l : list A) (x : A) :
  P x -> filter P (l ++ [x]) = filter P l ++ [x].
Proof.
  intros Hx. rewrite filter_app. f_equal.
  rewrite filter_cons, decide_True by exact Hx. reflexivity.
Qed.

Section WithEnvironment.

Variable toLowerCase : string -> string.
Variable codexSend : string -> string -> AgentPersona -> option CodexCallResult.
Variable invokeCodexExec : Message -> string -> Z -> bool -> InvocationResult.

(** X26.  A message that [sendMessage] queued for claude, offline
    according to the registry, is delivered when claude next opens a
    session, nothing else being written in between: the drain run by
    the session hook removes the queue row and marks the stored message
    delivered at that time.  The drain takes ten rows at most, so fewer
    than ten other rows for claude may be due by then. *)
Theorem queued_message_is_delivered_on_reconnect
    (registry : option ClientRegistry) (enabled : bool) (db db1 : Db)
    (opts : SendMessageOpts) (convId msgId respId : string) (now later : Z)
    (r : SendMessageResult) (reg : ClientRegistry) (sid : string) :
  sendMessage toLowerCase codexSend invokeCodexExec registry enabled db opts
              convId msgId respId now = Some (db1, r) ->
  target opts = claude ->
  targetOnline registry claude = false ->
  (now <= later)%Z ->
  (length (filter (ready claude later) (message_queue db)) < 10)%nat ->
  let db2 := (onsessioninitialized reg db1 (Some claude) sid later).2 in
  getQueuedMessage db2 msgId = None
  /\ getMessage db2 msgId = Some (withStatus (r_message r) delivered later)
  /\ isClientOnline db2 claude = true.
Proof.
  intros Hsend Htarget Hoff Hlater Hroom db2.
  apply sendMessage_effect in Hsend. cbv zeta in Hsend.
  destruct Hsend as (Hrm & Hfresh & Hclients & Hroute).
  rewrite Htarget in Hroute.
  destruct Hroute as [(Hon & _)|[(_ & Hcodex & _)|(_ & _ & Hm & Hrow & _)]];
    [congruence | discriminate |].
  destruct Hrow as (row & Hq & Hmid & Hto & Hatt & Hmax & Hnext & Hknown).
  set (msg := newMessageRow (messageInput opts (r_conversation r)) msgId now)
    in *.
  set (db1' := updateClientStatus db1 claude online (Some sid) later).
  assert (isClientOnline db1' claude = true) as Hon.
  { rewrite isClientOnline_rowOf. unfold db1'.
    rewrite rowOf_updateClientStatus, bool_decide_eq_true_2 by reflexivity.
    rewrite (rowOf_clients db) by exact Hclients.
    destruct (clientExists_rowOf db claude Hknown) as [x ->]. reflexivity. }
  assert (db2 = markDelivered db1'
                  (q_message_id <$> dequeueMessages db1' claude 10 later) later)
    as ->.
  { unfold db2, onsessioninitialized, onClientOnline, processQueueForTarget.
    fold db1'. cbn [snd]. rewrite Hon. cbn [negb].
    now rewrite deliverAll_online. }
  set (ids := q_message_id <$> dequeueMessages db1' claude 10 later).
  assert (msgId ∈ ids) as Hin.
  { assert (ready claude later row) as Hready
      by (unfold ready; rewrite Hto, Hatt, Hmax, Hnext; repeat split; lia).
    unfold ids, dequeueMessages, db1'. cbn [message_queue updateClientStatus].
    rewrite Hq, (filter_app_last _ _ _ Hready).
    rewrite take_ge.
    - apply list_elem_of_fmap. exists row. split; [now rewrite Hmid|].
      rewrite merge_sort_Permutation. apply elem_of_app. right.
      apply list_elem_of_here.
    - rewrite merge_sort_Permutation, length_app. cbn. lia. }
  split; [|split].
  - unfold getQueuedMessage, markDelivered. cbn [message_queue].
    destruct (find _ _) as [x|] eqn:Hx; [|reflexivity]. exfalso.
    apply find_some in Hx as [Hx Heq]. apply String.eqb_eq in Heq.
    apply list_elem_of_In, list_elem_of_filter in Hx as [Hout _].
    apply Hout. now rewrite Heq.
  - unfold getMessage, markDelivered. cbn [messages].
    rewrite find_map_update
      by (intros m; now destruct (bool_decide (m_id m ∈ ids))).
    unfold db1'. cbn [messages updateClientStatus]. rewrite Hm.
    rewrite find_app_fresh; [| exact Hfresh | cbn; apply String.eqb_refl].
    cbn [option_map]. rewrite Hrm.
    now rewrite (bool_decide_eq_true_2 (m_id msg ∈ ids)) by exact Hin.
  - rewrite <- Hon. now apply QueueMoreFacts.isClientOnline_clients.
Qed.

End WithEnvironment.

End ReconnectFacts.

(** ** The further properties at concrete runs *)

Module MoreRuns.

Import JsString Agents Store Registry QueueProcessor Dispatcher Transport.
Import Scenarios StoreMore MoreScenarios.

(** X1 at the stream [s]. *)
Lemma parseStreamId_makeEventId_witness :
  EventStore.parseStreamId (EventStore.makeEventId "s" 7) = "s".
Proof.
  apply (EventStoreMore.parseStreamId_makeEventId "s" 7). reflexivity.
Defined.

(** X2 at the second event of the stream [s], stored at time 900. *)
Lemma storeEvent_keeps_index_exact_witness :
  (EventStore.storeEvent EventStore.bug_store1 "s" "m2" 900).2 = "s:2"
  /\ exists s',
       EventStore.streams
         (EventStore.storeEvent EventStore.bug_store1 "s" "m2" 900).1 !! "s"
       = Some s'
       /\ EventStore.nextSeq s' = 3%N
       /\ EventStore.indexed 0 (EventStore.events s') (EventStore.indexById s').
Proof.
  assert (EventStoreInv.streamOf EventStore.bug_store1 "s"
          = {| EventStore.nextSeq := 2%N;
               EventStore.events :=
                 [ {| EventStore.id := "s:1"; EventStore.ts := 0;
                      EventStore.message := "m1" |} ];
               EventStore.indexById := {[ "s:1" := 0%nat ]} |}) as Hs
    by (vm_compute; reflexivity).
  destruct (EventStoreMore.storeEvent_keeps_index_exact
              EventStore.bug_store1 "s" "m2" 900)
    as (Hid & s' & Hs' & Hseq & _ & Hidx & _).
  - rewrite Hs. cbn [EventStore.events EventStore.indexById].
    split; [apply NoDup_singleton|]. split; [reflexivity|].
    intros [|i] ev Hev; [|discriminate Hev].
    injection Hev as <-. reflexivity.
  - unfold EventStoreInv.numbered. rewrite Hs.
    cbn [EventStore.events EventStore.nextSeq].
    apply Forall_singleton. exists 1%N. split; [lia | reflexivity].
  - rewrite Hs. cbn [EventStore.events]. intros ev Hev.
    injection Hev as <-. vm_compute. discriminate.
  - rewrite Hs in Hid, Hseq. split; [exact Hid|].
    exists s'. split; [exact Hs'|]. split; [exact Hseq | exact Hidx].
Defined.

(** X4 at the resume from [s:1] at time 1500, after [s:1] expired. *)
Lemma replay_of_evicted_anchor_is_empty_witness :
  (EventStore.replayEventsAfter EventStore.bug_store3 "s:1" 1500).1.2 = []
  /\ (EventStore.replayEventsAfter EventStore.bug_store3 "s:1" 1500).2
     = EmptyString.
Proof.
  destruct (EventStore.streams EventStore.bug_store3
              !! EventStore.parseStreamId "s:1") as [s|] eqn:Hs;
    [|vm_compute in Hs; discriminate Hs].
  pose proof Hs as Hval. vm_compute in Hval. injection Hval as Hval.
  apply (EventStoreMore.replay_of_evicted_anchor_is_empty
           EventStore.bug_store3 "s:1" 1500 s Hs).
  - rewrite <- Hval. apply (bool_decide_unpack _). vm_compute. exact I.
  - rewrite <- Hval. unfold EventStoreInv.indexWithin.
    apply (bool_decide_unpack _). vm_compute. exact I.
  - rewrite <- Hval. apply (bool_decide_unpack _). vm_compute. exact I.
Defined.

(** X6 at the mixed queue. *)
Lemma queue_constraints_kept_witness :
  queueKeyed (removeFromQueue mixedQueue "b").1
  /\ queueKeyed (clearExhaustedMessages mixedQueue).1.
Proof.
  assert (queueKeyed mixedQueue) as Hkeyed
    by (split; apply (bool_decide_unpack _); vm_compute; exact I).
  destruct (QueueMoreFacts.queue_constraints_kept mixedQueue Hkeyed)
    as (_ & _ & Hremove & Hsweep).
  split; [apply Hremove | exact Hsweep].
Defined.

(** X7 at the hello message, queued by hand. *)
Lemma enqueue_then_lookup_witness :
  exists db' row,
    requeued = Some (db', row)
    /\ getQueuedMessage helloDb "msg-1" = None
    /\ getQueuedMessage db' "msg-1" = Some row
    /\ getQueueLength db' None = S (getQueueLength helloDb None).
Proof.
  destruct requeued as [[db' row]|] eqn:E; [|vm_compute in E; discriminate E].
  exists db', row. split; [reflexivity|].
  destruct (QueueMoreFacts.enqueue_then_lookup helloDb db' _ 200 row E)
    as (Hbefore & Hafter & Hlen & _).
  auto.
Defined.

(** X14 at the store of the hello run. *)
Lemma listConversations_selects_witness :
  NoDup (cv_id <$> listConversations helloDb listForClaude)
  /\ (length (listConversations helloDb listForClaude) <= 20)%nat.
Proof.
  assert (NoDup (cv_id <$> conversations helloDb)) as Hkey
    by (apply (bool_decide_unpack _); vm_compute; exact I).
  destruct (StoreMoreFacts.listConversations_selects helloDb listForClaude Hkey)
    as (_ & Hnodup & _ & Hlen).
  split; [exact Hnodup | exact Hlen].
Defined.

(** X16 at the closed conversation, archived later. *)
Lemma closedStamped_kept_witness :
  closedStamped
    (updateConversation closedDb "conv-1"
       {| cu_title := None; cu_status := Some archived; cu_summary := None |}
       50).1.
Proof.
  assert (closedStamped closedDb) as Hinv.
  { unfold closedStamped. apply (Forall_forall _ _). intros c Hc _.
    apply (bool_decide_unpack _).
    revert c Hc. apply (Forall_forall (fun c => bool_decide (is_Some (cv_closed_at c)))).
    vm_compute. repeat constructor. }
  destruct (StoreMoreFacts.closedStamped_kept closedDb 50) as [_ Hkept].
  destruct (Hkept Hinv) as (_ & Hupdate & _). apply Hupdate.
Defined.

(** X17 at the first session of a fresh process. *)
Lemma hooks_keep_registry_and_table_in_step_witness :
  Http.inStep (Http.sessionInitialized (Http.newServer 0) (Some claude) "S1" 10)
  /\ Http.inStep (Http.shutdown (Http.newServer 0)).
Proof.
  destruct (HttpFacts.hooks_keep_registry_and_table_in_step (Http.newServer 0) 10)
    as [_ Hkept].
  assert (Http.inStep (Http.newServer 0)) as Hinv by (now intros []).
  destruct (Hkept Hinv) as (Hinit & _ & _ & [Hdown _] & _).
  split; [|exact Hdown]. apply Hinit. reflexivity.
Defined.

(** X18 at claude's two sessions, the first of which closes. *)
Lemma closing_one_session_marks_client_offline_witness :
  Http.sessions (Http.sessionClosed twoSessions "S1") !! "S2"
  = Some (Some claude)
  /\ isOnline (Http.clientRegistry (Http.sessionClosed twoSessions "S1")) claude
     = false
  /\ isClientOnline (Http.db (Http.sessionClosed twoSessions "S1")) claude
     = false.
Proof.
  apply (HttpFacts.closing_one_session_marks_client_offline
           twoSessions "S1" "S2" claude).
  - reflexivity.
  - discriminate.
  - vm_compute. reflexivity.
  - vm_compute. reflexivity.
Defined.

(** X19 at the hello run: codex is online, the row is delivered, the
    result says pending. *)
Lemma sendMessage_reports_inserted_row_witness :
  exists db' r,
    helloSent = Some (db', r)
    /\ m_status (r_message r) = pending
    /\ exists stored,
         getMessage db' "msg-1" = Some stored
         /\ stored = withStatus (r_message r) delivered 100.
Proof.
  destruct helloSent as [[db' r]|] eqn:E; [|vm_compute in E; discriminate E].
  exists db', r. split; [reflexivity|].
  destruct (DispatcherMoreFacts.sendMessage_reports_inserted_row
              asciiLowerCase silentCodex failedExec
              (Some bothOnline.1) true bothOnline.2 db'
              (opts claude codex None "hello" None)
              "conv-1" "msg-1" "resp-1" 100 r E)
    as (Hrm & Hst & stored & Hget & Hon & _).
  split; [exact Hst|]. exists stored. split; [exact Hget|].
  rewrite Hrm. apply Hon. vm_compute. reflexivity.
Defined.

(** X20 at the hello run: nothing is queued for codex. *)
Lemma sendMessage_queues_only_for_offline_claude_witness :
  exists db' r,
    helloSent = Some (db', r)
    /\ clients db' = clients bothOnline.2
    /\ message_queue db' = message_queue bothOnline.2.
Proof.
  destruct helloSent as [[db' r]|] eqn:E; [|vm_compute in E; discriminate E].
  exists db', r. split; [reflexivity|].
  destruct (DispatcherMoreFacts.sendMessage_queues_only_for_offline_claude
              asciiLowerCase silentCodex failedExec
              (Some bothOnline.1) true bothOnline.2 db'
              (opts claude codex None "hello" None)
              "conv-1" "msg-1" "resp-1" 100 r E)
    as (Hclients & Hqueue & _).
  split; [exact Hclients|]. apply Hqueue. now left.
Defined.

(** X21 at the question the persistent peer answers. *)
Lemma sendMessage_response_links_back_witness :
  exists db' r resp,
    asked = Some (db', r)
    /\ r_response r = Some resp
    /\ In resp (messages db')
    /\ m_response_to_id resp = Some "msg-1".
Proof.
  destruct asked as [[db' r]|] eqn:E; [|vm_compute in E; discriminate E].
  destruct (r_response r) as [resp|] eqn:Hresp.
  - exists db', r, resp. split; [reflexivity|]. split; [exact Hresp|].
    destruct (DispatcherMoreFacts.sendMessage_response_links_back
                asciiLowerCase (answeringCodex "Because Y.") failedExec
                (Some claudeOnly.1) true claudeOnly.2 db'
                (opts claude codex None "Why is X failing?" None)
                "conv-1" "msg-1" "resp-1" 100 r resp E Hresp)
      as (Hin & Hlink & Hid).
    split; [exact Hin|]. now rewrite Hlink, Hid.
  - exfalso. vm_compute in E. injection E as _ Hr.
    rewrite <- Hr in Hresp. discriminate Hresp.
Defined.

(** X22 at the same question: the message and its answer are appended. *)
Lemma sendMessage_keeps_stored_messages_witness :
  exists db' r added,
    asked = Some (db', r)
    /\ messages db' = messages claudeOnly.2 ++ added
    /\ (1 <= length added <= 2)%nat.
Proof.
  destruct asked as [[db' r]|] eqn:E; [|vm_compute in E; discriminate E].
  destruct (DispatcherMoreFacts.sendMessage_keeps_stored_messages
              asciiLowerCase (answeringCodex "Because Y.") failedExec
              (Some claudeOnly.1) true claudeOnly.2 db'
              (opts claude codex None "Why is X failing?" None)
              "conv-1" "msg-1" "resp-1" 100 r E)
    as (added & Hm & Hlen & _).
  exists db', r, added. auto.
Defined.

(** X23 at a local request to a server on port 3790. *)
Lemma preHandler_admits_witness :
  Security.isLoopback (Security.ip localRequest) = true
  /\ forall port',
       Security.preHandler port' localRequest = Security.Continue ->
       port' = 3790%N.
Proof.
  destruct (SecurityFacts.preHandler_admits 3790 localRequest)
    as (Hip & _ & _ & Hport).
  - vm_compute. reflexivity.
  - split; [exact Hip | exact Hport].
Defined.


(** X25 at the resume from [s:2] at time 960, before anything has
    expired. *)
Lemma replay_without_expiry_witness :
  (EventStore.replayEventsAfter EventStore.bug_store3 "s:2" 960).1.2
  = [("s:3", "m3")]
  /\ (EventStore.replayEventsAfter EventStore.bug_store3 "s:2" 960).2 = "s".
Proof.
  destruct (EventStore.streams EventStore.bug_store3
              !! EventStore.parseStreamId "s:2") as [s|] eqn:Hs;
    [|vm_compute in Hs; discriminate Hs].
  pose proof Hs as Hval. vm_compute in Hval. injection Hval as Hval.
  destruct (EventStoreFacts.replay_without_expiry
              EventStore.bug_store3 "s:2" 960 s 1
              {| EventStore.id := "s:2"; EventStore.ts := 900;
                 EventStore.message := "m2" |})
    as [Hsent Hret].
  - discriminate.
  - vm_compute. discriminate.
  - exact Hs.
  - rewrite <- Hval. split; [|split].
    + apply (bool_decide_unpack _). vm_compute. exact I.
    + vm_compute. reflexivity.
    + intros [|[|[|i]]] ev Hev; try discriminate Hev;
        injection Hev as <-; vm_compute; reflexivity.
  - rewrite <- Hval. cbn [EventStore.events].
    repeat apply Forall_cons_2; try apply Forall_nil_2; vm_compute; discriminate.
  - rewrite <- Hval. vm_compute. repeat constructor.
  - rewrite <- Hval. reflexivity.
  - reflexivity.
  - split; [|rewrite Hret; reflexivity].
    assert (EventStore.eventsAfter "s:2" (EventStore.events s)
            = Some [("s:3", "m3")]) as Hexpected
      by (rewrite <- Hval; vm_compute; reflexivity).
    rewrite Hexpected in Hsent. apply (inj Some) in Hsent.
    symmetry. exact Hsent.
Defined.

(** X26 at the ping: claude opens its session at time 200. *)
Lemma queued_message_is_delivered_on_reconnect_witness :
  exists db1 r,
    pingSent = Some (db1, r)
    /\ getQueuedMessage
         (onsessioninitialized codexOnly.1 db1 (Some claude) "S1" 200).2 "msg-1"
       = None
    /\ getMessage
         (onsessioninitialized codexOnly.1 db1 (Some claude) "S1" 200).2 "msg-1"
       = Some (withStatus (r_message r) delivered 200).
Proof.
  destruct pingSent as [[db1 r]|] eqn:E; [|vm_compute in E; discriminate E].
  exists db1, r. split; [reflexivity|].
  destruct (ReconnectFacts.queued_message_is_delivered_on_reconnect
              asciiLowerCase silentCodex failedExec
              (Some codexOnly.1) true codexOnly.2 db1
              (opts codex claude None "ping" (Some high))
              "conv-1" "msg-1" "resp-1" 100 200 r codexOnly.1 "S1" E)
    as (Hqueue & Hstored & _).
  - reflexivity.
  - vm_compute. reflexivity.
  - lia.
  - vm_compute. lia.
  - split; [exact Hqueue | exact Hstored].
Defined.

End MoreRuns.
